(** * Waffles neural-network layers (GLayer.cpp / GLayer.h): a shallow embedding

    The layer classes of [GClasses/GLayer.cpp] are embedded as Rocq records
    and functions.  A C++ [double] is an IEEE-754 binary64 value, i.e. Rocq's
    primitive [float]; a [size_t] is an integer in [Z] reduced modulo [2^64];
    a [GVec] is a list of doubles and a [GMatrix] a list of rows together with
    its column count.  Code that can throw, or whose behaviour is undefined
    (an access outside a buffer), returns a [result]. *)

From Stdlib Require Import ZArith List Floats Lia String Bool Reals Lra DecimalString.
From stdpp Require Import base option list.

Local Open Scope string_scope.
Local Open Scope list_scope.
Local Open Scope Z_scope.

(** ** Exceptions and the error monad *)

(** [Ex msg] is the exception class of [GError.h] (every [throw Ex(...)] of the
    layers); [Undefined] stands for undefined behaviour (reading or writing
    outside a buffer); [OutOfFuel] is the outcome of a loop whose iteration
    bound was exhausted. *)
Inductive exn : Type :=
| Ex (msg : string)
| Undefined
| OutOfFuel.

Inductive result (A : Type) : Type :=
| Ok (a : A)
| Raise (e : exn).
Arguments Ok {A} a.
Arguments Raise {A} e.

Definition bind {A B} (m : result A) (k : A -> result B) : result B :=
  match m with
  | Ok a => k a
  | Raise e => Raise e
  end.

#[global] Instance result_ret : MRet result := fun A a => Ok a.
#[global] Instance result_bind : MBind result := fun A B k m => bind m k.

Definition of_option {A} (o : option A) : result A :=
  match o with
  | Some a => Ok a
  | None => Raise Undefined
  end.

(** ** size_t *)

(** A [size_t] has 64 bits; its arithmetic is modulo [2^64]. *)
Definition size_modulus : Z := 2 ^ 64.
Definition wrap (z : Z) : Z := z mod size_modulus.

(** [FLEXIBLE_SIZE] of GLayer.h. *)
Definition FLEXIBLE_SIZE : Z := 0.

(** ** Loops *)

(** [for(size_t i = from; i < from + count; i++) body], threading the state. *)
Fixpoint for_range {S : Type} (body : nat -> S -> result S)
         (from count : nat) (s : S) : result S :=
  match count with
  | O => Ok s
  | Datatypes.S c => s' ← body from s; for_range body (Datatypes.S from) c s'
  end.

(** [for(size_t i = 0; i < n; i++) body] with [n] a [size_t]. *)
Definition for_upto {S : Type} (n : Z) (body : nat -> S -> result S) (s : S)
  : result S :=
  for_range body 0 (Z.to_nat n) s.

(** [for(size_t x = start; x < stop; x += step) body].  The loop does not
    terminate when [step] is 0; [fuel] bounds the number of iterations. *)
Fixpoint for_step {S : Type} (fuel : nat) (body : Z -> S -> result S)
         (x stop step : Z) (s : S) : result S :=
  if stop <=? x then Ok s
  else match fuel with
       | O => Raise OutOfFuel
       | Datatypes.S f =>
           s' ← body x s; for_step f body (wrap (x + step)) stop step s'
       end.

(** ** GVec and GMatrix *)

Abbreviation double := float (only parsing).
Abbreviation GVec := (list double) (only parsing).

(** Modelled from the spec: [GVec::size] (GVec.cpp is not among the sources). *)
Definition GVec_size (v : GVec) : Z := Z.of_nat (length v).

(** Modelled from the spec: [GVec::operator[]], element access; an index
    outside the vector is undefined behaviour. *)
Definition GVec_get (v : GVec) (i : nat) : result double := of_option (v !! i).

Definition GVec_set (v : GVec) (i : nat) (x : double) : result GVec :=
  if decide (i < length v)%nat then Ok (<[i := x]> v) else Raise Undefined.

(** Modelled from the spec: [GVec::addScaled(scalar, that)], the scaled
    addition [this[j] += scalar * that[j]]; both vectors have the same size. *)
Definition GVec_addScaled (this : GVec) (scalar : double) (that : GVec)
  : result GVec :=
  if decide (length this = length that)
  then Ok (zip_with (fun a w => (a + scalar * w)%float) this that)
  else Raise Undefined.

(** Modelled from the spec: [GVec::dotProduct(that)], the sum of the products
    of corresponding elements, accumulated from index 0 upward. *)
Definition GVec_dotProduct (this that : GVec) : result double :=
  if decide (length this = length that)
  then Ok (fold_left (fun acc p => (acc + fst p * snd p)%float)
                     (zip this that) 0%float)
  else Raise Undefined.

Record GMatrix : Type := mkGMatrix {
  m_rows : list GVec;
  m_cols : Z
}.

(** Modelled from the spec: the [GMatrix] primitives used by the layers
    (GMatrix.cpp is not among the sources): the default constructor, [rows],
    [cols], row access ([operator[]], [row], [back]) and [resize], which
    discards the contents and allocates [rowCount] rows of [colCount]
    uninitialised doubles ([junk] stands for their indeterminate value). *)
Definition GMatrix_empty : GMatrix := mkGMatrix [] 0.
Definition GMatrix_rows (m : GMatrix) : Z := Z.of_nat (length (m_rows m)).
Definition GMatrix_cols (m : GMatrix) : Z := m_cols m.
Definition GMatrix_row (m : GMatrix) (i : nat) : result GVec :=
  of_option (m_rows m !! i).
Definition GMatrix_back (m : GMatrix) : result GVec :=
  of_option (last (m_rows m)).
Definition GMatrix_set_row (m : GMatrix) (i : nat) (v : GVec) : result GMatrix :=
  if decide (i < length (m_rows m))%nat
  then Ok (mkGMatrix (<[i := v]> (m_rows m)) (m_cols m))
  else Raise Undefined.
Definition GMatrix_resize (junk : double) (rowCount colCount : Z) : GMatrix :=
  mkGMatrix (replicate (Z.to_nat rowCount) (replicate (Z.to_nat colCount) junk))
            colCount.

(** Every row of a matrix has [cols] elements. *)
Definition GMatrix_wf (m : GMatrix) : Prop :=
  Forall (fun r => Z.of_nat (length r) = m_cols m) (m_rows m).

(** Modelled from the spec: [GVec::operator*=], the multiplication of every
    element by a scalar. *)
Definition GVec_scale (v : GVec) (factor : double) : GVec :=
  map (fun x => (x * factor)%float) v.

(** [m[i][j] += x]. *)
Definition GMatrix_add_at (m : GMatrix) (i j : nat) (x : double)
  : result GMatrix :=
  row ← GMatrix_row m i;
  old ← GVec_get row j;
  row ← GVec_set row j (old + x)%float;
  GMatrix_set_row m i row.

(** Modelled from the spec: the flat weight buffers behind the pointer
    arguments of [weightsToVector] and [vectorToWeights].  A buffer is the
    list of doubles starting at the pointer; [store] is a [memcpy] into it at
    an offset and [load] a read of [n] doubles; both are undefined outside
    the buffer. *)
Definition store (buf : list double) (off : nat) (data : list double)
  : result (list double) :=
  if decide (off + length data <= length buf)%nat
  then Ok (take off buf ++ data ++ drop (off + length data) buf)
  else Raise Undefined.

Definition load (buf : list double) (off n : nat) : result (list double) :=
  if decide (off + n <= length buf)%nat
  then Ok (take n (drop off buf))
  else Raise Undefined.

(** [count] consecutive chunks of [n] elements. *)
Fixpoint chunks {A : Type} (n count : nat) (l : list A) : list (list A) :=
  match count with
  | O => []
  | Datatypes.S c => take n l :: chunks n c (drop n l)
  end.

(** Modelled from the spec: [GMatrix::toVector] copies the rows, one
    after the other, into the buffer; [GMatrix::fromVector(pVector, nRows)]
    makes the matrix [nRows] rows long (the column count stays) and
    fills the rows from the buffer in the same order. *)
Definition GMatrix_toVector (m : GMatrix) (buf : list double) (off : nat)
  : result (list double) :=
  store buf off (concat (m_rows m)).

Definition GMatrix_fromVector (m : GMatrix) (buf : list double) (off : nat)
           (nRows : Z) : result GMatrix :=
  data ← load buf off (Z.to_nat nRows * Z.to_nat (m_cols m));
  Ok (mkGMatrix (chunks (Z.to_nat (m_cols m)) (Z.to_nat nRows) data) (m_cols m)).

(** ** The serialized document (GDom) *)

(** Modelled from the spec: a structured document with named fields, nested
    lists and numeric, string and bool leaves (GDom.cpp is not among the
    sources).  [newInt] takes a [long long] and [asInt] returns one; the
    layers convert to and from [size_t]. *)
#[local] Unset Elimination Schemes.
Inductive GDomNode : Type :=
| DomInt (z : Z)
| DomDouble (d : double)
| DomBool (b : bool)
| DomString (s : string)
| DomList (items : list GDomNode)
| DomObj (fields : list (string * GDomNode)).
#[local] Set Elimination Schemes.

Definition to_int64 (z : Z) : Z := if z <? 2 ^ 63 then z else z - 2 ^ 64.

Definition GDom_newInt (size : Z) : GDomNode := DomInt (to_int64 size).
Definition GDom_newBool (b : bool) : GDomNode := DomBool b.
Definition GDom_newObj : GDomNode := DomObj [].

Definition GDomNode_addField (node : GDomNode) (name : string) (v : GDomNode)
  : GDomNode :=
  match node with
  | DomObj fields => DomObj (fields ++ [(name, v)])
  | other => other
  end.

Fixpoint assoc (fields : list (string * GDomNode)) (name : string)
  : option GDomNode :=
  match fields with
  | [] => None
  | (k, v) :: rest => if String.eqb k name then Some v else assoc rest name
  end.

(** A missing field is the spec's [DeserializationError]. *)
Definition GDomNode_field (node : GDomNode) (name : string) : result GDomNode :=
  match node with
  | DomObj fields =>
      match assoc fields name with
      | Some v => Ok v
      | None => Raise (Ex (String.append "There is no field named " name))
      end
  | _ => Raise (Ex "not an obj")
  end.

(** [(size_t)node->asInt()]. *)
Definition GDomNode_asSize (node : GDomNode) : result Z :=
  match node with
  | DomInt z => Ok (wrap z)
  | _ => Raise (Ex "not an int")
  end.

Definition GDomNode_asInt (node : GDomNode) : result Z :=
  match node with
  | DomInt z => Ok z
  | _ => Raise (Ex "not an int")
  end.

Definition GDomNode_asBool (node : GDomNode) : result bool :=
  match node with
  | DomBool b => Ok b
  | _ => Raise (Ex "not a bool")
  end.

Definition GDomNode_asDouble (node : GDomNode) : result double :=
  match node with
  | DomDouble d => Ok d
  | _ => Raise (Ex "not a double")
  end.

Fixpoint mapM {A B : Type} (f : A -> result B) (l : list A) : result (list B) :=
  match l with
  | [] => Ok []
  | x :: rest => y ← f x; ys ← mapM f rest; Ok (y :: ys)
  end.

(** Modelled from the spec: [GVec::serialize], [GVec::deserialize] and the
    [GVec] deserializing constructor: a vector is the list of its elements. *)
Definition GVec_serialize (v : GVec) : GDomNode := DomList (map DomDouble v).

Definition GVec_deserialize (node : GDomNode) : result GVec :=
  match node with
  | DomList items => mapM GDomNode_asDouble items
  | _ => Raise (Ex "not a list")
  end.

(** Modelled from the spec: [GMatrix::serialize] and the deserializing [GMatrix]
    constructor: the column count and the list of the rows. *)
Definition GMatrix_serialize (m : GMatrix) : GDomNode :=
  GDomNode_addField
    (GDomNode_addField GDom_newObj "cols" (GDom_newInt (m_cols m)))
    "rows" (DomList (map GVec_serialize (m_rows m))).

Definition GMatrix_deserialize (node : GDomNode) : result GMatrix :=
  c ← GDomNode_field node "cols";
  cols ← GDomNode_asSize c;
  r ← GDomNode_field node "rows";
  rows ← match r with
         | DomList items => mapM GVec_deserialize items
         | _ => Raise (Ex "not a list")
         end;
  Ok (mkGMatrix rows cols).

(** [GNeuralNetLayer::LayerType], in the order of the enumeration. *)
Inductive LayerType : Type :=
| layer_tanh | layer_logistic | layer_bentidentity | layer_softroot
| layer_sigexp | layer_gaussian | layer_sine | layer_rectifier
| layer_leakyrectifier | layer_softplus | layer_linear | layer_activation
| layer_productpooling | layer_additionpooling | layer_maxout | layer_softmax
| layer_restrictedboltzmannmachine | layer_convolutional1d
| layer_convolutional2d | layer_maxpooling.

Definition LayerType_to_int (e : LayerType) : Z :=
  match e with
  | layer_tanh => 0 | layer_logistic => 1 | layer_bentidentity => 2
  | layer_softroot => 3 | layer_sigexp => 4 | layer_gaussian => 5
  | layer_sine => 6 | layer_rectifier => 7 | layer_leakyrectifier => 8
  | layer_softplus => 9 | layer_linear => 10 | layer_activation => 11
  | layer_productpooling => 12 | layer_additionpooling => 13
  | layer_maxout => 14 | layer_softmax => 15
  | layer_restrictedboltzmannmachine => 16 | layer_convolutional1d => 17
  | layer_convolutional2d => 18 | layer_maxpooling => 19
  end.

(** [GNeuralNetLayer::baseDomNode]. *)
Definition baseDomNode (type : LayerType) : GDomNode :=
  GDomNode_addField GDom_newObj "type" (GDom_newInt (LayerType_to_int type)).

(** Total views of a vector element and of a matrix entry, used to state
    results; they are only read inside the bounds. *)
Definition elt (v : GVec) (i : nat) : double := default 0%float (v !! i).
Definition entry (m : GMatrix) (i j : nat) : double :=
  elt (default [] (m_rows m !! i)) j.

(** [init + f 0 + f 1 + ... + f (n-1)], added in this order. *)
Definition accumulate (f : nat -> double) (n : nat) (init : double) : double :=
  fold_left (fun acc i => (acc + f i)%float) (seq 0 n) init.

(** [init] plus the [f i] with [sel i], for [i] from 0 to [n-1], added in
    this order. *)
Definition accumulate_where (sel : nat -> bool) (f : nat -> double) (n : nat)
           (init : double) : double :=
  fold_left (fun acc i => if sel i then (acc + f i)%float else acc)
            (seq 0 n) init.

(** What a layer sees of the layer feeding it ([pUpStreamLayer]): its
    [outputs()], [activation()] and [error()]. *)
Record UpStream : Type := mkUpStream {
  up_outputs : Z;
  up_activation : GVec;
  up_error : GVec
}.

(** ** GLayerLinear *)

Module GLayerLinear.

Record t : Type := mk {
  m_weights : GMatrix;   (* (inputs+1) x outputs; the last row is the bias *)
  m_activation : GMatrix (* row 0 is the activation, row 1 the error *)
}.

Definition inputs (L : t) : Z := wrap (GMatrix_rows (m_weights L) - 1).
Definition outputs (L : t) : Z := GMatrix_cols (m_weights L).
Definition activation (L : t) : result GVec := GMatrix_row (m_activation L) 0.
Definition error (L : t) : result GVec := GMatrix_row (m_activation L) 1.
Definition bias (L : t) : result GVec := GMatrix_back (m_weights L).

(** The members before the constructor body runs. *)
Definition init : t := mk GMatrix_empty GMatrix_empty.

Definition resize (junk : double) (L : t) (in_ out : Z) : t :=
  if (in_ =? inputs L) && (out =? outputs L) then L
  else mk (GMatrix_resize junk (wrap (in_ + 1)) out)
          (GMatrix_resize junk 2 out).

(** [GLayerLinear(size_t out)] and [GLayerLinear(size_t in, size_t out)]. *)
Definition new_out (junk : double) (out : Z) : t :=
  resize junk init FLEXIBLE_SIZE out.
Definition new (junk : double) (in_ out : Z) : t :=
  resize junk init in_ out.

(** [GLayerLinear(GDomNode* pNode)]. *)
Definition new_from_dom (junk : double) (pNode : GDomNode) : result t :=
  w ← GDomNode_field pNode "weights";
  weights ← GMatrix_deserialize w;
  Ok (mk weights (GMatrix_resize junk 2 (GMatrix_cols weights))).

Definition serialize (L : t) : result GDomNode :=
  Ok (GDomNode_addField (baseDomNode layer_linear)
                        "weights" (GMatrix_serialize (m_weights L))).

Definition countWeights (L : t) : Z := wrap (wrap (inputs L + 1) * outputs L).

Definition weightsToVector (L : t) (pOutVector : list double)
  : result (list double * Z) :=
  buf ← GMatrix_toVector (m_weights L) pOutVector 0;
  Ok (buf, countWeights L).

Definition vectorToWeights (L : t) (pVector : list double) : result (t * Z) :=
  w ← GMatrix_fromVector (m_weights L) pVector 0 (wrap (inputs L + 1));
  let L' := mk w (m_activation L) in
  Ok (L', countWeights L').

(** [a.copy(bias())] makes the activation a copy of the bias row, whatever
    its size was.  The [GAssert]s of the source are debug-build checks and
    are not part of the embedding. *)
Definition feedForward (L : t) (input : GVec) : result t :=
  _ ← activation L;
  b ← bias L;
  a ← for_upto (inputs L)
        (fun i a =>
           x ← GVec_get input i;
           w ← GMatrix_row (m_weights L) i;
           GVec_addScaled a x w) b;
  act ← GMatrix_set_row (m_activation L) 0 a;
  Ok (mk (m_weights L) act).

Definition backPropError (L : t) (up : UpStream) : result UpStream :=
  source ← error L;
  e ← for_upto (up_outputs up)
        (fun i upStreamError =>
           w ← GMatrix_row (m_weights L) i;
           d ← GVec_dotProduct source w;
           GVec_set upStreamError i d) (up_error up);
  Ok (mkUpStream (up_outputs up) (up_activation up) e).

(** [*delta++ += x]: [deltas] and the position of the [delta] pointer. *)
Definition add_at_cursor (x : double) (s : GVec * nat) : result (GVec * nat) :=
  old ← GVec_get s.1 s.2;
  d ← GVec_set s.1 s.2 (old + x)%float;
  Ok (d, Datatypes.S s.2).

Definition updateDeltas (L : t) (upStreamActivation deltas : GVec)
  : result GVec :=
  err ← error L;
  s ← for_upto (inputs L)
        (fun i s =>
           act ← GVec_get upStreamActivation i;
           for_upto (outputs L)
             (fun j s => e ← GVec_get err j; add_at_cursor (e * act)%float s) s)
        (deltas, 0%nat);
  s ← for_upto (outputs L)
        (fun j s => e ← GVec_get err j; add_at_cursor e s) s;
  Ok s.1.

(** [m_weights[i][j] += learningRate * *delta++] over the weight rows, then
    [b[j] += learningRate * *delta++] over the bias row [m_weights.back()]. *)
Definition applyDeltas (L : t) (learningRate : double) (deltas : GVec)
  : result t :=
  _ ← bias L;
  let last := (length (m_rows (m_weights L)) - 1)%nat in
  s ← for_upto (inputs L)
        (fun i s =>
           for_upto (outputs L)
             (fun j '(w, p) =>
                d ← GVec_get deltas p;
                w ← GMatrix_add_at w i j (learningRate * d)%float;
                Ok (w, Datatypes.S p)) s)
        (m_weights L, 0%nat);
  s ← for_upto (outputs L)
        (fun j '(w, p) =>
           d ← GVec_get deltas p;
           w ← GMatrix_add_at w last j (learningRate * d)%float;
           Ok (w, Datatypes.S p)) s;
  Ok (mk s.1 (m_activation L)).

(** [m_weights[i] *= factor] for every weight row, and [bias() *= factor]
    when [scaleBiases]. *)
Definition scaleWeights (L : t) (factor : double) (scaleBiases : bool)
  : result t :=
  w ← for_upto (inputs L)
        (fun i w =>
           row ← GMatrix_row w i;
           GMatrix_set_row w i (GVec_scale row factor)) (m_weights L);
  w ← (if scaleBiases
       then b ← GMatrix_back w;
            GMatrix_set_row w (length (m_rows w) - 1) (GVec_scale b factor)
       else Ok w);
  Ok (mk w (m_activation L)).

(** The shape the layer has after [resize]: the weights are
    [(inputs+1) x outputs], the activation matrix is [2 x outputs], and the
    weights fit in the address space. *)
Definition wf (L : t) : Prop :=
  GMatrix_wf (m_weights L) /\ GMatrix_wf (m_activation L) /\
  1 <= GMatrix_rows (m_weights L) /\
  GMatrix_rows (m_weights L) * (m_cols (m_weights L) + 1) < size_modulus /\
  GMatrix_rows (m_activation L) = 2 /\
  m_cols (m_activation L) = m_cols (m_weights L).

End GLayerLinear.

(** ** GLayerProductPooling and GLayerAdditionPooling *)

Module GLayerProductPooling.

Record t : Type := mk {
  m_activation : GMatrix (* row 0 is the activation, row 1 the error *)
}.

Definition inputs (L : t) : Z := wrap (GMatrix_cols (m_activation L) * 2).
Definition outputs (L : t) : Z := GMatrix_cols (m_activation L).
Definition activation (L : t) : result GVec := GMatrix_row (m_activation L) 0.
Definition error (L : t) : result GVec := GMatrix_row (m_activation L) 1.

Definition init : t := mk GMatrix_empty.

Definition resize (junk : double) (L : t) (inputCount outputCount : Z)
  : result t :=
  if negb (wrap (outputCount * 2) =? inputCount)
  then Raise (Ex "inputCount must be 2*outputCount")
  else if outputCount =? outputs L then Ok L
  else Ok (mk (GMatrix_resize junk 2 outputCount)).

(** [GLayerProductPooling(size_t inps)]. *)
Definition new (junk : double) (inps : Z) : result t :=
  if Z.land inps 1 =? 1
  then Raise (Ex "inputCount must be divisible by 2")
  else resize junk init inps (inps / 2).

Definition feedForward (L : t) (input : GVec) : result t :=
  if negb (GVec_size input =? wrap (GMatrix_cols (m_activation L) * 2))
  then Raise (Ex "Unexpected number of inputs")
  else
    a ← activation L;
    a ← for_upto (GMatrix_cols (m_activation L))
          (fun i a =>
             x ← GVec_get input (2 * i);
             y ← GVec_get input (2 * i + 1);
             GVec_set a i (x * y)%float) a;
    act ← GMatrix_set_row (m_activation L) 0 a;
    Ok (mk act).

Definition backPropError (L : t) (up : UpStream) : result UpStream :=
  err ← error L;
  e ← for_upto (outputs L)
        (fun i upStreamError =>
           ei ← GVec_get err i;
           a1 ← GVec_get (up_activation up) (2 * i + 1);
           upStreamError ← GVec_set upStreamError (2 * i) (ei * a1)%float;
           a0 ← GVec_get (up_activation up) (2 * i);
           GVec_set upStreamError (2 * i + 1) (ei * a0)%float) (up_error up);
  Ok (mkUpStream (up_outputs up) (up_activation up) e).

Definition countWeights (L : t) : Z := 0.

End GLayerProductPooling.

Module GLayerAdditionPooling.

Record t : Type := mk {
  m_activation : GMatrix (* row 0 is the activation, row 1 the error *)
}.

Definition inputs (L : t) : Z := wrap (GMatrix_cols (m_activation L) * 2).
Definition outputs (L : t) : Z := GMatrix_cols (m_activation L).
Definition activation (L : t) : result GVec := GMatrix_row (m_activation L) 0.
Definition error (L : t) : result GVec := GMatrix_row (m_activation L) 1.

Definition init : t := mk GMatrix_empty.

Definition resize (junk : double) (L : t) (inputCount outputCount : Z)
  : result t :=
  if negb (wrap (outputCount * 2) =? inputCount)
  then Raise (Ex "inputCount must be 2*outputCount")
  else if outputCount =? outputs L then Ok L
  else Ok (mk (GMatrix_resize junk 2 outputCount)).

(** [GLayerAdditionPooling(size_t inps)]. *)
Definition new (junk : double) (inps : Z) : result t :=
  if Z.land inps 1 =? 1
  then Raise (Ex "inputCount must be divisible by 2")
  else resize junk init inps (inps / 2).

Definition feedForward (L : t) (input : GVec) : result t :=
  if negb (GVec_size input =? wrap (GMatrix_cols (m_activation L) * 2))
  then Raise (Ex "Unexpected number of inputs")
  else
    a ← activation L;
    a ← for_upto (GMatrix_cols (m_activation L))
          (fun i a =>
             x ← GVec_get input (2 * i);
             y ← GVec_get input (2 * i + 1);
             GVec_set a i (x + y)%float) a;
    act ← GMatrix_set_row (m_activation L) 0 a;
    Ok (mk act).

(** The source has the comment "Should we add here?" above the two
    assignments. *)
Definition backPropError (L : t) (up : UpStream) : result UpStream :=
  err ← error L;
  e ← for_upto (outputs L)
        (fun i upStreamError =>
           ei ← GVec_get err i;
           a1 ← GVec_get (up_activation up) (2 * i + 1);
           upStreamError ← GVec_set upStreamError (2 * i) (ei + a1)%float;
           a0 ← GVec_get (up_activation up) (2 * i);
           GVec_set upStreamError (2 * i + 1) (ei + a0)%float) (up_error up);
  Ok (mkUpStream (up_outputs up) (up_activation up) e).

Definition countWeights (L : t) : Z := 0.

End GLayerAdditionPooling.

(** ** GLayerActivation (the base of GLayerTanh, GLayerLogistic, ...) *)

Module GLayerActivation.

Record t : Type := mk {
  type : LayerType;      (* the subclass: layer_tanh, layer_logistic, ... *)
  m_activation : GMatrix (* row 0 is the activation, row 1 the error *)
}.

Definition inputs (L : t) : Z := GMatrix_cols (m_activation L).
Definition outputs (L : t) : Z := GMatrix_cols (m_activation L).
Definition activation (L : t) : result GVec := GMatrix_row (m_activation L) 0.
Definition error (L : t) : result GVec := GMatrix_row (m_activation L) 1.

(** [GLayerActivation()] and [GLayerActivation(GDomNode* pNode)]. *)
Definition new (junk : double) (kind : LayerType) : t :=
  mk kind (GMatrix_resize junk 2 0).

Definition new_from_dom (junk : double) (kind : LayerType) (pNode : GDomNode)
  : result t :=
  f ← GDomNode_field pNode "size";
  size ← GDomNode_asSize f;
  Ok (mk kind (GMatrix_resize junk 2 size)).

Definition serialize (L : t) : result GDomNode :=
  Ok (GDomNode_addField (baseDomNode (type L))
                        "size" (GDom_newInt (GMatrix_cols (m_activation L)))).

Definition resize (junk : double) (L : t) (in_ out : Z) : result t :=
  if negb (in_ =? out)
  then Raise (Ex "GLayerActivation must have the same number of inputs as outputs.")
  else Ok (mk (type L) (GMatrix_resize junk 2 out)).

Section Elementwise.

(** The virtual [eval] and [derivative] of the subclass. *)
Context (eval : double -> double) (derivative : double -> double -> double).

Definition feedForward (L : t) (input : GVec) : result t :=
  a ← activation L;
  a ← for_upto (inputs L)
        (fun i a => x ← GVec_get input i; GVec_set a i (eval x)) a;
  act ← GMatrix_set_row (m_activation L) 0 a;
  Ok (mk (type L) act).

Definition backPropError (L : t) (up : UpStream) : result UpStream :=
  source ← error L;
  a ← activation L;
  let n := up_activation up in
  e ← for_upto (up_outputs up)
        (fun i upStreamError =>
           s ← GVec_get source i;
           ni ← GVec_get n i;
           ai ← GVec_get a i;
           GVec_set upStreamError i (s * derivative ni ai)%float) (up_error up);
  Ok (mkUpStream (up_outputs up) (up_activation up) e).

End Elementwise.

(** [GLayerRectifier]: [eval(x)] is [std::max(0.0, x)], that is
    [(0.0 < x) ? x : 0.0], and [derivative(x, f_x)] is [x >= 0.0 ? 1.0 : 0.0]. *)
Definition rectifier_eval (x : double) : double :=
  if (0 <? x)%float then x else 0%float.
Definition rectifier_derivative (x f_x : double) : double :=
  if (0 <=? x)%float then 1%float else 0%float.

Definition countWeights (L : t) : Z := 0.

End GLayerActivation.

(** The doubles nearest to [-1e200] and [-1e100]. *)
Definition neg_1e200 : double := (-0x1.4e718d7d7625ap+664)%float.
Definition neg_1e100 : double := (-0x1.249ad2594c37dp+332)%float.

(** ** GLayerMaxOut *)

Module GLayerMaxOut.

Record t : Type := mk {
  m_weights : GMatrix;    (* a row per upstream unit, a column per unit *)
  m_bias : GMatrix;       (* row 0 is the bias, row 1 the bias delta *)
  m_activation : GMatrix; (* row 0 is the activation, row 1 the error *)
  m_winners : list Z      (* GIndexVec: the indexes of the winning inputs *)
}.

Definition inputs (L : t) : Z := GMatrix_rows (m_weights L).
Definition outputs (L : t) : Z := GMatrix_cols (m_weights L).
Definition activation (L : t) : result GVec := GMatrix_row (m_activation L) 0.
Definition error (L : t) : result GVec := GMatrix_row (m_activation L) 1.
Definition bias (L : t) : result GVec := GMatrix_row (m_bias L) 0.

Definition init : t := mk GMatrix_empty GMatrix_empty GMatrix_empty [].

(** [junk_index] stands for the indeterminate content of the resized
    [m_winners]. *)
Definition resize (junk : double) (junk_index : Z) (L : t)
           (inputCount outputCount : Z) : t :=
  if (inputCount =? inputs L) && (outputCount =? outputs L) then L
  else mk (GMatrix_resize junk inputCount outputCount)
          (GMatrix_resize junk 2 inputCount)
          (GMatrix_resize junk 2 outputCount)
          (replicate (Z.to_nat outputCount) junk_index).

(** [GLayerMaxOut(size_t inps, size_t outs)]. *)
Definition new (junk : double) (junk_index : Z) (inps outs : Z) : t :=
  resize junk junk_index init inps outs.

(** [GLayerMaxOut(GDomNode* pNode)] and [serialize]. *)
Definition new_from_dom (pNode : GDomNode) : result t :=
  Raise (Ex "Sorry, not implemented yet").

Definition serialize (L : t) : result GDomNode :=
  Raise (Ex "Sorry, not implemented yet").

(** [m_winners[i] = j]. *)
Definition set_winner (winners : list Z) (i : nat) (j : Z) : result (list Z) :=
  if decide (i < length winners)%nat then Ok (<[i := j]> winners)
  else Raise Undefined.

(** [(in[j] + b[j]) * m_weights[j][i]]. *)
Definition candidate (L : t) (input b : GVec) (j i : nat) : result double :=
  x ← GVec_get input j;
  bj ← GVec_get b j;
  w ← GMatrix_row (m_weights L) j;
  wji ← GVec_get w i;
  Ok ((x + bj) * wji)%float.

Section WithRand.

(** The C library's [rand()]: [feedForward] calls it although it takes no
    generator argument (the source marks both calls "todo: get rid of
    rand()").  Its hidden state and its step are parameters. *)
Context {RandState : Type} (c_rand : RandState -> Z * RandState).

Definition feedForward (L : t) (input : GVec) (st : RandState)
  : result (t * RandState) :=
  let inputCount := inputs L in
  let outputCount := outputs L in
  b ← bias L;
  a ← activation L;
  s ← for_upto outputCount
        (fun i '(a, winners, st) =>
           bw ← for_upto inputCount
                  (fun j '(best, winners) =>
                     cand ← candidate L input b j i;
                     if (best <? cand)%float
                     then winners ← set_winner winners i (Z.of_nat j);
                          Ok (cand, winners)
                     else Ok (best, winners))
                  (neg_1e200, winners);
           let '(best, winners) := bw in
           let '(r1, st) := c_rand st in
           bws ← (if Z.rem r1 10 =? 0
                  then
                    let '(r2, st) := c_rand st in
                    if inputCount =? 0 then Raise Undefined
                    else
                      let j := wrap r2 mod inputCount in
                      best ← candidate L input b (Z.to_nat j) i;
                      winners ← set_winner winners i j;
                      Ok (best, winners, st)
                  else Ok (best, winners, st));
           let '(best, winners, st) := bws in
           a ← GVec_set a i best;
           Ok (a, winners, st))
        (a, m_winners L, st);
  let '(a, winners, st) := s in
  act ← GMatrix_set_row (m_activation L) 0 a;
  Ok (mk (m_weights L) (m_bias L) act winners, st).

End WithRand.

(** [upStreamError.fill(0.0)], then for every output the error goes to the
    recorded winner: [upStreamError[up] += m_weights[up][i] * source[i]]. *)
Definition backPropError (L : t) (up : UpStream) : result UpStream :=
  source ← error L;
  e ← for_upto (outputs L)
        (fun i upStreamError =>
           win ← of_option (m_winners L !! i);
           let u := Z.to_nat win in
           w ← GMatrix_row (m_weights L) u;
           wi ← GVec_get w i;
           s ← GVec_get source i;
           old ← GVec_get upStreamError u;
           GVec_set upStreamError u (old + wi * s)%float)
        (replicate (length (up_error up)) 0%float);
  Ok (mkUpStream (up_outputs up) (up_activation up) e).

Definition countWeights (L : t) : Z := wrap (inputs L * wrap (outputs L + 1)).

Definition weightsToVector (L : t) (pOutVector : list double)
  : result (list double * Z) :=
  b ← bias L;
  bdata ← load b 0 (Z.to_nat (inputs L));
  buf ← store pOutVector 0 bdata;
  buf ← GMatrix_toVector (m_weights L) buf (Z.to_nat (inputs L));
  Ok (buf, wrap (inputs L * wrap (outputs L + 1))).

Definition vectorToWeights (L : t) (pVector : list double) : result (t * Z) :=
  b ← load pVector 0 (Z.to_nat (inputs L));
  mb ← GMatrix_set_row (m_bias L) 0 b;
  w ← GMatrix_fromVector (m_weights L) pVector (Z.to_nat (inputs L)) (inputs L);
  let L' := mk w mb (m_activation L) (m_winners L) in
  Ok (L', wrap (inputs L' * wrap (outputs L' + 1))).

End GLayerMaxOut.

(** ** GLayerRestrictedBoltzmannMachine *)

Module GLayerRestrictedBoltzmannMachine.

Record t : Type := mk {
  m_weights : GMatrix;    (* a column per upstream unit, a row per unit *)
  m_bias : GMatrix;       (* rows: bias, activation, error *)
  m_biasReverse : GMatrix (* rows: bias, activation, error *)
}.

Definition inputs (L : t) : Z := GMatrix_cols (m_weights L).
Definition outputs (L : t) : Z := GMatrix_rows (m_weights L).
Definition bias (L : t) : result GVec := GMatrix_row (m_bias L) 0.
Definition activation (L : t) : result GVec := GMatrix_row (m_bias L) 1.
Definition error (L : t) : result GVec := GMatrix_row (m_bias L) 2.
Definition biasReverse (L : t) : result GVec := GMatrix_row (m_biasReverse L) 0.

Definition init : t := mk GMatrix_empty GMatrix_empty GMatrix_empty.

Definition resize (junk : double) (L : t) (inputCount outputCount : Z) : t :=
  if (inputCount =? inputs L) && (outputCount =? outputs L) then L
  else mk (GMatrix_resize junk outputCount inputCount)
          (GMatrix_resize junk 3 outputCount)
          (GMatrix_resize junk 3 inputCount).

Definition new (junk : double) (inputSize outputSize : Z) : t :=
  resize junk init inputSize outputSize.

(** [GLayerRestrictedBoltzmannMachine(GDomNode* pNode)]. *)
Definition new_from_dom (junk : double) (pNode : GDomNode) : result t :=
  w ← GDomNode_field pNode "weights";
  weights ← GMatrix_deserialize w;
  let bias0 := GMatrix_resize junk 3 (GMatrix_rows weights) in
  let biasReverse0 := GMatrix_resize junk 3 (GMatrix_cols weights) in
  fb ← GDomNode_field pNode "bias";
  b ← GVec_deserialize fb;
  bias1 ← GMatrix_set_row bias0 0 b;
  fr ← GDomNode_field pNode "biasRev";
  br ← GVec_deserialize fr;
  biasReverse1 ← GMatrix_set_row biasReverse0 0 br;
  Ok (mk weights bias1 biasReverse1).

Definition serialize (L : t) : result GDomNode :=
  b ← bias L;
  br ← biasReverse L;
  Ok (GDomNode_addField
        (GDomNode_addField
           (GDomNode_addField (baseDomNode layer_restrictedboltzmannmachine)
                              "weights" (GMatrix_serialize (m_weights L)))
           "bias" (GVec_serialize b))
        "biasRev" (GVec_serialize br)).

(** Replacing the activation row [m_bias[1]]. *)
Definition set_activation (L : t) (a : GVec) : result t :=
  mb ← GMatrix_set_row (m_bias L) 1 a;
  Ok (mk (m_weights L) mb (m_biasReverse L)).

(** [activation().copy(bias())], then [*(pNet++) += in.dotProduct(m_weights[i])]
    for every output. *)
Definition feedForward (L : t) (input : GVec) : result t :=
  _ ← activation L;
  b ← bias L;
  a ← for_upto (outputs L)
        (fun i a =>
           w ← GMatrix_row (m_weights L) i;
           d ← GVec_dotProduct input w;
           old ← GVec_get a i;
           GVec_set a i (old + d)%float) b;
  set_activation L a.

Definition countWeights (L : t) : Z := wrap (wrap (inputs L + 1) * outputs L).

Definition weightsToVector (L : t) (pOutVector : list double)
  : result (list double * Z) :=
  b ← bias L;
  bdata ← load b 0 (Z.to_nat (outputs L));
  buf ← store pOutVector 0 bdata;
  buf ← GMatrix_toVector (m_weights L) buf (Z.to_nat (outputs L));
  Ok (buf, wrap (wrap (inputs L + 1) * outputs L)).

(** The row count handed to [fromVector] is [inputs()], although the weight
    matrix has [outputs()] rows. *)
Definition vectorToWeights (L : t) (pVector : list double) : result (t * Z) :=
  b ← bias L;
  bdata ← load pVector 0 (Z.to_nat (outputs L));
  b ← store b 0 bdata;
  mb ← GMatrix_set_row (m_bias L) 0 b;
  w ← GMatrix_fromVector (m_weights L) pVector (Z.to_nat (outputs L)) (inputs L);
  let L' := mk w mb (m_biasReverse L) in
  Ok (L', wrap (wrap (inputs L' + 1) * outputs L')).

End GLayerRestrictedBoltzmannMachine.

(** ** GLayerConvolutional1D *)

Module GLayerConvolutional1D.

Record t : Type := mk {
  m_inputSamples : Z;
  m_inputChannels : Z;
  m_outputSamples : Z;
  m_kernelsPerChannel : Z;
  m_kernels : GMatrix;    (* a row per (channel, kernel) pair *)
  m_activation : GMatrix; (* row 0 is the activation, row 1 the error *)
  m_bias : GVec
}.

Definition inputs (L : t) : Z := wrap (m_inputSamples L * m_inputChannels L).
Definition outputs (L : t) : Z :=
  wrap (wrap (m_outputSamples L * m_inputChannels L) * m_kernelsPerChannel L).
Definition activation (L : t) : result GVec := GMatrix_row (m_activation L) 0.
Definition error (L : t) : result GVec := GMatrix_row (m_activation L) 1.
Definition bias (L : t) : GVec := m_bias L.

(** [GLayerConvolutional1D(inputSamples, inputChannels, kernelSize,
    kernelsPerChannel)]. *)
Definition new (junk : double)
           (inputSamples inputChannels kernelSize kernelsPerChannel : Z)
  : result t :=
  let outputSamples := wrap (wrap (inputSamples - kernelSize) + 1) in
  let kernelCount := wrap (inputChannels * kernelsPerChannel) in
  if inputSamples <? kernelSize
  then Raise (Ex "kernelSize must be <= inputSamples")
  else Ok (mk inputSamples inputChannels outputSamples kernelsPerChannel
              (GMatrix_resize junk kernelCount kernelSize)
              (GMatrix_resize junk 2 (wrap (kernelCount * outputSamples)))
              (replicate (Z.to_nat kernelCount) junk)).

(** [GLayerConvolutional1D(GDomNode* pNode)]. *)
Definition new_from_dom (pNode : GDomNode) : result t :=
  f ← GDomNode_field pNode "isam"; isam ← GDomNode_asSize f;
  f ← GDomNode_field pNode "ichan"; ichan ← GDomNode_asSize f;
  f ← GDomNode_field pNode "osam"; osam ← GDomNode_asSize f;
  f ← GDomNode_field pNode "kpc"; kpc ← GDomNode_asSize f;
  f ← GDomNode_field pNode "kern"; kern ← GMatrix_deserialize f;
  f ← GDomNode_field pNode "act"; act ← GMatrix_deserialize f;
  f ← GDomNode_field pNode "bias"; b ← GVec_deserialize f;
  Ok (mk isam ichan osam kpc kern act b).

Definition serialize (L : t) : result GDomNode :=
  let pNode := baseDomNode layer_convolutional1d in
  let pNode := GDomNode_addField pNode "isam" (GDom_newInt (m_inputSamples L)) in
  let pNode := GDomNode_addField pNode "ichan" (GDom_newInt (m_inputChannels L)) in
  let pNode := GDomNode_addField pNode "osam" (GDom_newInt (m_outputSamples L)) in
  let pNode := GDomNode_addField pNode "kpc" (GDom_newInt (m_kernelsPerChannel L)) in
  let pNode := GDomNode_addField pNode "kern" (GMatrix_serialize (m_kernels L)) in
  let pNode := GDomNode_addField pNode "act" (GMatrix_serialize (m_activation L)) in
  let pNode := GDomNode_addField pNode "bias" (GVec_serialize (m_bias L)) in
  Ok pNode.

Definition resize (L : t) (inputSize outputSize : Z) : result t :=
  if negb (inputSize =? wrap (m_inputSamples L * m_inputChannels L))
  then Raise (Ex "Changing the size of GLayerConvolutional1D is not supported")
  else if negb (outputSize =?
                wrap (wrap (m_inputChannels L * m_kernelsPerChannel L)
                      * m_outputSamples L))
  then Raise (Ex "Changing the size of GLayerConvolutional1D is not supported")
  else Ok L.

(** Writing the weights through the accessors [kernels()] and [bias()]. *)
Definition set_weights (L : t) (kernels : GMatrix) (b : GVec) : t :=
  mk (m_inputSamples L) (m_inputChannels L) (m_outputSamples L)
     (m_kernelsPerChannel L) kernels (m_activation L) b.

(** The state of the loops of [feedForward]: the net buffer [n] and the
    counters [netPos], [inPos] and [kern]. *)
Record ff_state : Type := mk_ff {
  ff_n : GVec;
  ff_netPos : nat;
  ff_inPos : nat;
  ff_kern : nat
}.

Definition feedForward (L : t) (input : GVec) : result t :=
  a ← activation L;
  (* copy the bias to the net of every output sample *)
  a ← for_upto (m_outputSamples L)
        (fun i a => store a (length (bias L) * i) (bias L)) a;
  (* feed the input through *)
  let kernelSize := GMatrix_cols (m_kernels L) in
  s ← for_upto (m_outputSamples L)
        (fun i s =>
           s ← for_upto (m_inputChannels L)
                 (fun j s =>
                    s ← for_upto (m_kernelsPerChannel L)
                          (fun k s =>
                             w ← GMatrix_row (m_kernels L) (ff_kern s);
                             d ← for_upto kernelSize
                                   (fun l d =>
                                      wl ← GVec_get w l;
                                      x ← GVec_get input
                                            (ff_inPos s
                                             + l * Z.to_nat (m_inputChannels L));
                                      Ok (d + wl * x)%float)
                                   0%float;
                             old ← GVec_get (ff_n s) (ff_netPos s);
                             n ← GVec_set (ff_n s) (ff_netPos s) (old + d)%float;
                             Ok (mk_ff n (Datatypes.S (ff_netPos s)) (ff_inPos s)
                                       (Datatypes.S (ff_kern s))))
                          s;
                    Ok (mk_ff (ff_n s) (ff_netPos s) (Datatypes.S (ff_inPos s))
                              (ff_kern s)))
                 (mk_ff (ff_n s) (ff_netPos s) (ff_inPos s) 0%nat);
           Ok s)
        (mk_ff a 0%nat 0%nat 0%nat);
  act ← GMatrix_set_row (m_activation L) 0 (ff_n s);
  Ok (mk (m_inputSamples L) (m_inputChannels L) (m_outputSamples L)
         (m_kernelsPerChannel L) (m_kernels L) act (m_bias L)).

Definition countWeights (L : t) : Z :=
  wrap (wrap (GMatrix_rows (m_kernels L) + 1) * GMatrix_cols (m_kernels L)).

Definition weightsToVector (L : t) (pOutVector : list double)
  : result (list double * Z) :=
  bdata ← load (bias L) 0 (Z.to_nat (GMatrix_rows (m_kernels L)));
  buf ← store pOutVector 0 bdata;
  buf ← GMatrix_toVector (m_kernels L) buf
          (Z.to_nat (GMatrix_rows (m_kernels L)));
  Ok (buf, wrap (wrap (GMatrix_rows (m_kernels L) + 1)
                 * GMatrix_cols (m_kernels L))).

Definition vectorToWeights (L : t) (pVector : list double) : result (t * Z) :=
  bdata ← load pVector 0 (Z.to_nat (GMatrix_rows (m_kernels L)));
  b ← store (bias L) 0 bdata;
  kern ← GMatrix_fromVector (m_kernels L) pVector
           (Z.to_nat (GMatrix_rows (m_kernels L)))
           (GMatrix_rows (m_kernels L));
  Ok (mk (m_inputSamples L) (m_inputChannels L) (m_outputSamples L)
         (m_kernelsPerChannel L) kern (m_activation L) b,
      wrap (wrap (GMatrix_rows kern + 1) * GMatrix_cols kern)).

End GLayerConvolutional1D.

(** ** GLayerConvolutional2D (construction, serialization, weight vectors) *)

Module GLayerConvolutional2D.

(** What an [Image] points at: nothing ([NULL]), the activation row or the
    error row of [m_activation]. *)
Inductive ImageData : Type := NullData | ActivationData | ErrorData.

Record Image : Type := mkImage {
  data : ImageData;
  width : Z;
  height : Z;
  channels : Z;
  interlaced : bool;
  dx : Z; dy : Z; dz : Z; (* offset *)
  px : Z; py : Z;         (* padding *)
  sx : Z; sy : Z;         (* stride *)
  invertStride : bool;
  flip : bool
}.

(** [Image::Image(data, width, height, channels)]. *)
Definition Image_new (d : ImageData) (w h c : Z) : Image :=
  mkImage d w h c true 0 0 0 0 0 1 1 false false.

(** [Image::npos], [(size_t) -1]. *)
Definition npos : Z := size_modulus - 1.

(** [Image::index(x, y, z)]: the position in the data of the element at
    column [x], row [y] and channel [z] of the viewport, or [npos] outside the
    image.  A remainder or quotient by a zero stride is undefined. *)
Definition Image_index (im : Image) (x y z : Z) : result Z :=
  let z := wrap (z + dz im) in
  xy ← (if invertStride im
        then
          if sx im =? 0 then Raise Undefined
          else if 0 <? wrap (x + dx im) mod sx im then Ok None
          else if sy im =? 0 then Raise Undefined
          else if 0 <? wrap (y + dy im) mod sy im then Ok None
          else Ok (Some (wrap (wrap (x + dx im) / sx im - px im),
                         wrap (wrap (y + dy im) / sy im - py im)))
        else
          Ok (Some (wrap (x + wrap (wrap (dx im * sx im) - px im)),
                    wrap (y + wrap (wrap (dy im * sy im) - py im)))));
  match xy with
  | None => Ok npos
  | Some (x, y) =>
      let '(x, y) :=
        if flip im
        then (wrap (wrap (width im - x) - 1), wrap (wrap (height im - y) - 1))
        else (x, y) in
      if (width im <=? x) || (height im <=? y) then Ok npos
      else if interlaced im
      then Ok (wrap (wrap (wrap (wrap (y * width im) + x) * channels im) + z))
      else Ok (wrap (wrap (wrap (wrap (z * height im) + y) * width im) + x))
  end.

(** [Image::read(x, y, z)] on the vector [data] points at: 0.0 outside the
    image. *)
Definition Image_read (im : Image) (d : GVec) (x y z : Z) : result double :=
  i ← Image_index im x y z;
  if i =? npos then Ok 0%float else GVec_get d (Z.to_nat i).

(** [Image::at(x, y, z)], here as a read: it throws outside the image. *)
Definition Image_at (im : Image) (d : GVec) (x y z : Z) : result double :=
  i ← Image_index im x y z;
  if i =? npos then Raise (Ex "tried to access invalid image location!")
  else GVec_get d (Z.to_nat i).

Definition Image_set_flip (im : Image) (b : bool) : Image :=
  mkImage (data im) (width im) (height im) (channels im) (interlaced im)
          (dx im) (dy im) (dz im) (px im) (py im) (sx im) (sy im)
          (invertStride im) b.

Definition Image_set_interlaced (im : Image) (b : bool) : Image :=
  mkImage (data im) (width im) (height im) (channels im) b
          (dx im) (dy im) (dz im) (px im) (py im) (sx im) (sy im)
          (invertStride im) (flip im).

Definition Image_set_stride_padding (im : Image) (sx' sy' px' py' : Z) : Image :=
  mkImage (data im) (width im) (height im) (channels im) (interlaced im)
          (dx im) (dy im) (dz im) px' py' sx' sy'
          (invertStride im) (flip im).

Record t : Type := mk {
  m_width : Z; m_height : Z; m_channels : Z;
  m_kWidth : Z; m_kHeight : Z;
  m_outputWidth : Z; m_outputHeight : Z;
  m_bias : GVec; m_biasDelta : GVec;
  m_kernels : GMatrix;
  m_activation : GMatrix; (* row 0 is the activation, row 1 the error *)
  m_kernelImage : Image; m_deltaImage : Image;
  m_inputImage : Image; m_upStreamErrorImage : Image;
  m_actImage : Image; m_errImage : Image
}.

Definition inputs (L : t) : Z :=
  wrap (wrap (m_width L * m_height L) * m_channels L).
Definition outputs (L : t) : Z :=
  wrap (wrap (m_outputWidth L * m_outputHeight L) * GVec_size (m_bias L)).
Definition activation (L : t) : result GVec := GMatrix_row (m_activation L) 0.
Definition error (L : t) : result GVec := GMatrix_row (m_activation L) 1.

(** [GLayerConvolutional2D(width, height, channels, kWidth, kHeight, kCount)]. *)
Definition new (junk : double) (width height channels kWidth kHeight kCount : Z)
  : t :=
  let outputWidth := wrap (wrap (width - kWidth) + 1) in
  let outputHeight := wrap (wrap (height - kHeight) + 1) in
  mk width height channels kWidth kHeight outputWidth outputHeight
     (replicate (Z.to_nat kCount) junk) []
     (GMatrix_resize junk kCount (wrap (wrap (kWidth * kHeight) * channels)))
     (GMatrix_resize junk 2 (wrap (wrap (outputWidth * outputHeight) * kCount)))
     (Image_new NullData kWidth kHeight channels)
     (Image_new NullData kWidth kHeight channels)
     (Image_new NullData width height channels)
     (Image_new NullData width height channels)
     (Image_new ActivationData outputWidth outputHeight kCount)
     (Image_new ErrorData outputWidth outputHeight kCount).

(** [GLayerConvolutional2D(kWidth, kHeight, kCount)]. *)
Definition new_flexible (junk : double) (kWidth kHeight kCount : Z) : t :=
  mk FLEXIBLE_SIZE FLEXIBLE_SIZE FLEXIBLE_SIZE kWidth kHeight 0 0
     (replicate (Z.to_nat kCount) junk) []
     (GMatrix_resize junk kCount 0)
     (GMatrix_resize junk 2 0)
     (Image_new NullData kWidth kHeight 0)
     (Image_new NullData kWidth kHeight 0)
     (Image_new NullData 0 0 0)
     (Image_new NullData 0 0 0)
     (Image_new ActivationData 0 0 0)
     (Image_new ErrorData 0 0 0).

Definition setInputInterlaced (L : t) (b : bool) : t :=
  mk (m_width L) (m_height L) (m_channels L) (m_kWidth L) (m_kHeight L)
     (m_outputWidth L) (m_outputHeight L) (m_bias L) (m_biasDelta L)
     (m_kernels L) (m_activation L) (m_kernelImage L) (m_deltaImage L)
     (Image_set_interlaced (m_inputImage L) b)
     (Image_set_interlaced (m_upStreamErrorImage L) b)
     (m_actImage L) (m_errImage L).

Definition setKernelsInterlaced (L : t) (b : bool) : t :=
  mk (m_width L) (m_height L) (m_channels L) (m_kWidth L) (m_kHeight L)
     (m_outputWidth L) (m_outputHeight L) (m_bias L) (m_biasDelta L)
     (m_kernels L) (m_activation L)
     (Image_set_interlaced (m_kernelImage L) b)
     (Image_set_interlaced (m_deltaImage L) b)
     (m_inputImage L) (m_upStreamErrorImage L)
     (m_actImage L) (m_errImage L).

Definition setOutputInterlaced (L : t) (b : bool) : t :=
  mk (m_width L) (m_height L) (m_channels L) (m_kWidth L) (m_kHeight L)
     (m_outputWidth L) (m_outputHeight L) (m_bias L) (m_biasDelta L)
     (m_kernels L) (m_activation L) (m_kernelImage L) (m_deltaImage L)
     (m_inputImage L) (m_upStreamErrorImage L)
     (Image_set_interlaced (m_actImage L) b)
     (Image_set_interlaced (m_errImage L) b).

(** [GLayerConvolutional2D(GDomNode* pNode)]. *)
Definition new_from_dom (junk : double) (pNode : GDomNode) : result t :=
  f ← GDomNode_field pNode "width"; width ← GDomNode_asSize f;
  f ← GDomNode_field pNode "height"; height ← GDomNode_asSize f;
  f ← GDomNode_field pNode "channels"; channels ← GDomNode_asSize f;
  f ← GDomNode_field pNode "kWidth"; kWidth ← GDomNode_asSize f;
  f ← GDomNode_field pNode "kHeight"; kHeight ← GDomNode_asSize f;
  f ← GDomNode_field pNode "outputWidth"; outputWidth ← GDomNode_asSize f;
  f ← GDomNode_field pNode "outputHeight"; outputHeight ← GDomNode_asSize f;
  f ← GDomNode_field pNode "bias"; b ← GVec_deserialize f;
  f ← GDomNode_field pNode "kernels"; kernels ← GMatrix_deserialize f;
  let kCount := GMatrix_rows kernels in
  let L :=
    mk width height channels kWidth kHeight outputWidth outputHeight b []
       kernels
       (GMatrix_resize junk 2 (wrap (wrap (outputWidth * outputHeight) * kCount)))
       (Image_new NullData kWidth kHeight channels)
       (Image_new NullData kWidth kHeight channels)
       (Image_new NullData width height channels)
       (Image_new NullData width height channels)
       (Image_new ActivationData outputWidth outputHeight kCount)
       (Image_new ErrorData outputWidth outputHeight kCount) in
  f ← GDomNode_field pNode "strideX"; strideX ← GDomNode_asSize f;
  f ← GDomNode_field pNode "strideY"; strideY ← GDomNode_asSize f;
  f ← GDomNode_field pNode "paddingX"; paddingX ← GDomNode_asSize f;
  f ← GDomNode_field pNode "paddingY"; paddingY ← GDomNode_asSize f;
  let L :=
    mk (m_width L) (m_height L) (m_channels L) (m_kWidth L) (m_kHeight L)
       (m_outputWidth L) (m_outputHeight L) (m_bias L) (m_biasDelta L)
       (m_kernels L) (m_activation L) (m_kernelImage L) (m_deltaImage L)
       (Image_set_stride_padding (m_inputImage L)
                                 strideX strideY paddingX paddingY)
       (m_upStreamErrorImage L) (m_actImage L) (m_errImage L) in
  f ← GDomNode_field pNode "inputInterlaced"; ii ← GDomNode_asBool f;
  let L := setInputInterlaced L ii in
  f ← GDomNode_field pNode "kernelsInterlaced"; ki ← GDomNode_asBool f;
  let L := setKernelsInterlaced L ki in
  f ← GDomNode_field pNode "outputInterlaced"; oi ← GDomNode_asBool f;
  Ok (setOutputInterlaced L oi).

Definition serialize (L : t) : result GDomNode :=
  let pNode := baseDomNode layer_convolutional2d in
  let pNode := GDomNode_addField pNode "width" (GDom_newInt (m_width L)) in
  let pNode := GDomNode_addField pNode "height" (GDom_newInt (m_height L)) in
  let pNode := GDomNode_addField pNode "channels" (GDom_newInt (m_channels L)) in
  let pNode := GDomNode_addField pNode "kWidth" (GDom_newInt (m_kWidth L)) in
  let pNode := GDomNode_addField pNode "kHeight" (GDom_newInt (m_kHeight L)) in
  let pNode := GDomNode_addField pNode "strideX" (GDom_newInt (sx (m_inputImage L))) in
  let pNode := GDomNode_addField pNode "strideY" (GDom_newInt (sy (m_inputImage L))) in
  let pNode := GDomNode_addField pNode "paddingX" (GDom_newInt (px (m_inputImage L))) in
  let pNode := GDomNode_addField pNode "paddingY" (GDom_newInt (py (m_inputImage L))) in
  let pNode := GDomNode_addField pNode "outputWidth" (GDom_newInt (m_outputWidth L)) in
  let pNode := GDomNode_addField pNode "outputHeight" (GDom_newInt (m_outputHeight L)) in
  let pNode := GDomNode_addField pNode "inputInterlaced"
                 (GDom_newBool (interlaced (m_inputImage L))) in
  let pNode := GDomNode_addField pNode "kernelsInterlaced"
                 (GDom_newBool (interlaced (m_kernelImage L))) in
  let pNode := GDomNode_addField pNode "outputInterlaced"
                 (GDom_newBool (interlaced (m_actImage L))) in
  let pNode := GDomNode_addField pNode "bias" (GVec_serialize (m_bias L)) in
  let pNode := GDomNode_addField pNode "kernels" (GMatrix_serialize (m_kernels L)) in
  Ok pNode.

Definition resize (L : t) (inputSize outputSize : Z) : result t :=
  if negb (inputSize =? inputs L) || negb (outputSize =? outputs L)
  then Raise (Ex "GLayerConvolutional2D can only be resized given an upstream convolutional layer!")
  else Ok L.

Definition countWeights (L : t) : Z :=
  wrap (wrap (wrap (wrap (m_kWidth L * m_kHeight L) * m_channels L)
              * GMatrix_rows (m_kernels L))
        + GMatrix_rows (m_kernels L)).

(** What [updateOutputSize] and [addKernel] write into [m_actImage] and
    [m_errImage]. *)
Definition Image_set_output (im : Image) (d : ImageData) (w h : Z) : Image :=
  mkImage d w h (channels im) (interlaced im)
          (dx im) (dy im) (dz im) (px im) (py im) (sx im) (sy im)
          (invertStride im) (flip im).

Definition Image_set_channels (im : Image) (c : Z) : Image :=
  mkImage (data im) (width im) (height im) c (interlaced im)
          (dx im) (dy im) (dz im) (px im) (py im) (sx im) (sy im)
          (invertStride im) (flip im).

(** [updateOutputSize()]: a division by a zero stride is undefined. *)
Definition updateOutputSize (junk : double) (L : t) : result t :=
  let im := m_inputImage L in
  if sx im =? 0 then Raise Undefined
  else if sy im =? 0 then Raise Undefined
  else
    let outputWidth :=
      wrap (wrap (wrap (m_width L - m_kWidth L) + wrap (2 * px im)) / sx im + 1) in
    let outputHeight :=
      wrap (wrap (wrap (m_height L - m_kHeight L) + wrap (2 * py im)) / sy im + 1) in
    Ok (mk (m_width L) (m_height L) (m_channels L) (m_kWidth L) (m_kHeight L)
           outputWidth outputHeight (m_bias L) (m_biasDelta L) (m_kernels L)
           (GMatrix_resize junk 2
              (wrap (wrap (outputWidth * outputHeight)
                     * GMatrix_rows (m_kernels L))))
           (m_kernelImage L) (m_deltaImage L)
           (m_inputImage L) (m_upStreamErrorImage L)
           (Image_set_output (m_actImage L) ActivationData
                             outputWidth outputHeight)
           (Image_set_output (m_errImage L) ErrorData
                             outputWidth outputHeight)).

(** [GLayerConvolutional2D::none], [(size_t) -1]. *)
Definition none : Z := size_modulus - 1.

Definition with_inputImage (L : t) (im : Image) : t :=
  mk (m_width L) (m_height L) (m_channels L) (m_kWidth L) (m_kHeight L)
     (m_outputWidth L) (m_outputHeight L) (m_bias L) (m_biasDelta L)
     (m_kernels L) (m_activation L) (m_kernelImage L) (m_deltaImage L)
     im (m_upStreamErrorImage L) (m_actImage L) (m_errImage L).

(** [setPadding(px, py)] and [setStride(sx, sy)]; [py] and [sy] default to
    [none], which stands for "the same as the first". *)
Definition setPadding (junk : double) (L : t) (px' py' : Z) : result t :=
  let im := m_inputImage L in
  updateOutputSize junk
    (with_inputImage L
       (Image_set_stride_padding im (sx im) (sy im)
                                 px' (if py' =? none then px' else py'))).

Definition setStride (junk : double) (L : t) (sx' sy' : Z) : result t :=
  let im := m_inputImage L in
  updateOutputSize junk
    (with_inputImage L
       (Image_set_stride_padding im sx' (if sy' =? none then sx' else sy')
                                 (px im) (py im))).

(** [addKernel()].  [m_kernels.resize] discards the kernels; the bias is
    resized after the kernel matrix has grown, to [m_kernels.rows() + 1]
    elements, and the old bias is put back at its start.  [GVec::resize] and
    [GVec::put] are not among the sources: the resized vector holds
    indeterminate values ([junk]) and [put] is the block copy [store]. *)
Definition addKernel (junk : double) (L : t) : result t :=
  let kernels :=
    GMatrix_resize junk (wrap (GMatrix_rows (m_kernels L) + 1))
                   (GMatrix_cols (m_kernels L)) in
  let temp := m_bias L in
  b ← store (replicate (Z.to_nat (wrap (GMatrix_rows kernels + 1))) junk) 0 temp;
  updateOutputSize junk
    (mk (m_width L) (m_height L) (m_channels L) (m_kWidth L) (m_kHeight L)
        (m_outputWidth L) (m_outputHeight L) b (m_biasDelta L)
        kernels (m_activation L) (m_kernelImage L) (m_deltaImage L)
        (m_inputImage L) (m_upStreamErrorImage L)
        (Image_set_channels (m_actImage L) (GMatrix_rows kernels))
        (Image_set_channels (m_errImage L) (GMatrix_rows kernels))).

Definition set_kernels_bias (L : t) (kernels : GMatrix) (b : GVec) : t :=
  mk (m_width L) (m_height L) (m_channels L) (m_kWidth L) (m_kHeight L)
     (m_outputWidth L) (m_outputHeight L) b (m_biasDelta L)
     kernels (m_activation L) (m_kernelImage L) (m_deltaImage L)
     (m_inputImage L) (m_upStreamErrorImage L) (m_actImage L) (m_errImage L).

Definition weightsToVector (L : t) (pOutVector : list double)
  : result (list double * Z) :=
  buf ← GMatrix_toVector (m_kernels L) pOutVector 0;
  buf ← store buf (Z.to_nat (wrap (GMatrix_rows (m_kernels L)
                                    * GMatrix_cols (m_kernels L))))
          (m_bias L);
  Ok (buf, countWeights L).

Definition vectorToWeights (L : t) (pVector : list double) : result (t * Z) :=
  kernels ← GMatrix_fromVector (m_kernels L) pVector 0
              (GMatrix_rows (m_kernels L));
  bdata ← load pVector
            (Z.to_nat (wrap (GMatrix_rows kernels * GMatrix_cols kernels)))
            (Z.to_nat (GMatrix_rows kernels));
  b ← store (m_bias L) 0 bdata;
  let L' := set_kernels_bias L kernels b in
  Ok (L', countWeights L').

End GLayerConvolutional2D.

(** ** GMaxPooling2D *)

Module GMaxPooling2D.

Record t : Type := mk {
  m_inputCols : Z;
  m_inputRows : Z;
  m_inputChannels : Z;
  m_regionSize : Z;
  m_activation : GMatrix (* row 0 is the activation, row 1 the error *)
}.

Definition inputs (L : t) : Z :=
  wrap (wrap (m_inputRows L * m_inputCols L) * m_inputChannels L).

(** [m_inputRows * m_inputCols * m_inputChannels / (m_regionSize *
    m_regionSize)]; a division by zero is undefined. *)
Definition outputs (L : t) : result Z :=
  let d := wrap (m_regionSize L * m_regionSize L) in
  if d =? 0 then Raise Undefined
  else Ok (wrap (wrap (m_inputRows L * m_inputCols L) * m_inputChannels L) / d).

Definition activation (L : t) : result GVec := GMatrix_row (m_activation L) 0.
Definition error (L : t) : result GVec := GMatrix_row (m_activation L) 1.

(** [GMaxPooling2D(inputCols, inputRows, inputChannels, regionSize)].  The
    constructor never stores [regionSize]: [m_regionSize] keeps an
    indeterminate value, [junk_regionSize]. *)
Definition new (junk : double) (junk_regionSize : Z)
           (inputCols inputRows inputChannels regionSize : Z) : result t :=
  if regionSize =? 0 then Raise Undefined
  else if negb (inputCols mod regionSize =? 0)
  then Raise (Ex "inputCols is not a multiple of regionSize")
  else if negb (inputRows mod regionSize =? 0)
  then Raise (Ex "inputRows is not a multiple of regionSize")
  else
    let d := wrap (junk_regionSize * junk_regionSize) in
    if d =? 0 then Raise Undefined
    else Ok (mk inputCols inputRows inputChannels junk_regionSize
                (GMatrix_resize junk 2
                   (wrap (wrap (inputRows * inputCols) * inputChannels) / d))).

(** [GMaxPooling2D(GDomNode* pNode)]: the body is empty, [m_activation] stays
    the default-constructed matrix. *)
Definition new_from_dom (pNode : GDomNode) : result t :=
  f ← GDomNode_field pNode "icol"; icol ← GDomNode_asSize f;
  f ← GDomNode_field pNode "irow"; irow ← GDomNode_asSize f;
  f ← GDomNode_field pNode "ichan"; ichan ← GDomNode_asSize f;
  f ← GDomNode_field pNode "size"; size ← GDomNode_asSize f;
  Ok (mk icol irow ichan size GMatrix_empty).

Definition serialize (L : t) : result GDomNode :=
  let pNode := baseDomNode layer_maxpooling in
  let pNode := GDomNode_addField pNode "icol" (GDom_newInt (m_inputCols L)) in
  let pNode := GDomNode_addField pNode "irow" (GDom_newInt (m_inputRows L)) in
  let pNode := GDomNode_addField pNode "ichan" (GDom_newInt (m_inputChannels L)) in
  let pNode := GDomNode_addField pNode "size" (GDom_newInt (m_regionSize L)) in
  Ok pNode.

Definition resize (L : t) (inputSize outputSize : Z) : result t :=
  if negb (inputSize =?
           wrap (wrap (m_inputCols L * m_inputRows L) * m_inputChannels L))
  then Raise (Ex "Changing the size of GMaxPooling2D is not supported")
  else
    let d := wrap (m_regionSize L * m_regionSize L) in
    if d =? 0 then Raise Undefined
    else if negb (outputSize =?
                  wrap (wrap (m_inputChannels L * m_inputCols L) * m_inputRows L) / d)
    then Raise (Ex "Changing the size of GMaxPooling2D is not supported")
    else Ok L.

(** [std::max(a, b)] is [(a < b) ? b : a]. *)
Definition std_max (a b : double) : double := if (a <? b)%float then b else a.

(** The iteration bound of a loop [for(x = start; x < stop; x += step)]. *)
Definition fuel_of (stop : Z) : nat := Z.to_nat stop.

Definition feedForward (L : t) (input : GVec) : result t :=
  a ← activation L;
  s ← for_step (fuel_of (m_inputRows L))
        (fun yy s =>
           for_step (fuel_of (m_inputCols L))
             (fun xx s =>
                for_upto (m_inputChannels L)
                  (fun c '(a, actPos) =>
                     let c := Z.of_nat c in
                     let yStep := wrap (m_inputCols L * m_inputChannels L) in
                     let yStart := wrap (yy * yStep) in
                     let yEnd := wrap (yStart + wrap (m_regionSize L * yStep)) in
                     m ← for_step (fuel_of yEnd)
                           (fun y m =>
                              let xStart :=
                                wrap (wrap (yStart + wrap (xx * m_inputChannels L)) + c) in
                              let xEnd :=
                                wrap (wrap (xStart
                                            + wrap (m_regionSize L * m_inputChannels L))
                                      + c) in
                              for_step (fuel_of xEnd)
                                (fun x m =>
                                   v ← GVec_get input (Z.to_nat x);
                                   Ok (std_max m v))
                                xStart xEnd (m_inputChannels L) m)
                           yStart yEnd yStep neg_1e100;
                     a ← GVec_set a actPos m;
                     Ok (a, Datatypes.S actPos))
                  s)
             0 (m_inputCols L) (m_regionSize L) s)
        0 (m_inputRows L) (m_regionSize L) (a, 0%nat);
  act ← GMatrix_set_row (m_activation L) 0 s.1;
  Ok (mk (m_inputCols L) (m_inputRows L) (m_inputChannels L) (m_regionSize L) act).

(** The loop state of [backPropError] inside a block: the running maximum
    [m], [maxIndex] and the upstream error buffer. *)
Definition backPropError (L : t) (up : UpStream) : result UpStream :=
  downStreamErr ← error L;
  let a := up_activation up in
  s ← for_step (fuel_of (m_inputRows L))
        (fun yy s =>
           for_step (fuel_of (m_inputCols L))
             (fun xx s =>
                for_upto (m_inputChannels L)
                  (fun c '(upStreamErr, downPos) =>
                     let c := Z.of_nat c in
                     let yStep := wrap (m_inputCols L * m_inputChannels L) in
                     let yStart := wrap (yy * yStep) in
                     let yEnd := wrap (yStart + wrap (m_regionSize L * yStep)) in
                     r ← for_step (fuel_of yEnd)
                           (fun y r =>
                              let xStart :=
                                wrap (wrap (yStart + wrap (xx * m_inputChannels L)) + c) in
                              let xEnd :=
                                wrap (wrap (xStart
                                            + wrap (m_regionSize L * m_inputChannels L))
                                      + c) in
                              for_step (fuel_of xEnd)
                                (fun x '(m, maxIndex, upStreamErr) =>
                                   ax ← GVec_get a (Z.to_nat x);
                                   let '(m, maxIndex) :=
                                     if (m <? ax)%float then (ax, x)
                                     else (m, maxIndex) in
                                   upStreamErr ← GVec_set upStreamErr (Z.to_nat x) 0%float;
                                   Ok (m, maxIndex, upStreamErr))
                                xStart xEnd (m_inputChannels L) r)
                           yStart yEnd yStep (neg_1e100, 0, upStreamErr);
                     let '(_, maxIndex, upStreamErr) := r in
                     e ← GVec_get downStreamErr downPos;
                     upStreamErr ← GVec_set upStreamErr (Z.to_nat maxIndex) e;
                     Ok (upStreamErr, Datatypes.S downPos))
                  s)
             0 (m_inputCols L) (m_regionSize L) s)
        0 (m_inputRows L) (m_regionSize L) (up_error up, 0%nat);
  Ok (mkUpStream (up_outputs up) (up_activation up) s.1).

Definition countWeights (L : t) : Z := 0.

End GMaxPooling2D.

(** ** GNeuralNetLayer: the polymorphic layer and its deserializer *)

Inductive GNeuralNetLayer : Type :=
| Activation (L : GLayerActivation.t)
| Linear (L : GLayerLinear.t)
| ProductPooling (L : GLayerProductPooling.t)
| AdditionPooling (L : GLayerAdditionPooling.t)
| MaxOut (L : GLayerMaxOut.t)
| RestrictedBoltzmannMachine (L : GLayerRestrictedBoltzmannMachine.t)
| Convolutional1D (L : GLayerConvolutional1D.t)
| Convolutional2D (L : GLayerConvolutional2D.t)
| MaxPooling2D (L : GMaxPooling2D.t).

Definition LayerType_of_int (z : Z) : option LayerType :=
  match z with
  | 0 => Some layer_tanh | 1 => Some layer_logistic
  | 2 => Some layer_bentidentity | 3 => Some layer_softroot
  | 4 => Some layer_sigexp | 5 => Some layer_gaussian
  | 6 => Some layer_sine | 7 => Some layer_rectifier
  | 8 => Some layer_leakyrectifier | 9 => Some layer_softplus
  | 10 => Some layer_linear | 11 => Some layer_activation
  | 12 => Some layer_productpooling | 13 => Some layer_additionpooling
  | 14 => Some layer_maxout | 15 => Some layer_softmax
  | 16 => Some layer_restrictedboltzmannmachine
  | 17 => Some layer_convolutional1d | 18 => Some layer_convolutional2d
  | 19 => Some layer_maxpooling
  | _ => None
  end.

(** [GClasses::to_str] of an [int]. *)
Definition to_str (z : Z) : string := NilZero.string_of_int (Z.to_int z).

(** The virtual [serialize]. *)
Definition serialize (layer : GNeuralNetLayer) : result GDomNode :=
  match layer with
  | Activation L => GLayerActivation.serialize L
  | Linear L => GLayerLinear.serialize L
  | ProductPooling L => Raise (Ex "Sorry, not implemented yet")
  | AdditionPooling L => Raise (Ex "Sorry, not implemented yet")
  | MaxOut L => GLayerMaxOut.serialize L
  | RestrictedBoltzmannMachine L => GLayerRestrictedBoltzmannMachine.serialize L
  | Convolutional1D L => GLayerConvolutional1D.serialize L
  | Convolutional2D L => GLayerConvolutional2D.serialize L
  | MaxPooling2D L => GMaxPooling2D.serialize L
  end.

(** [GNeuralNetLayer::deserialize]: the [switch] has no case for the pooling
    layers, maxout, softmax and max pooling. *)
Definition deserialize (junk : double) (pNode : GDomNode)
  : result GNeuralNetLayer :=
  f ← GDomNode_field pNode "type";
  e ← GDomNode_asInt f;
  let activation kind :=
    L ← GLayerActivation.new_from_dom junk kind pNode; Ok (Activation L) in
  match LayerType_of_int e with
  | Some layer_tanh => activation layer_tanh
  | Some layer_logistic => activation layer_logistic
  | Some layer_bentidentity => activation layer_bentidentity
  | Some layer_softroot => activation layer_softroot
  | Some layer_sigexp => activation layer_sigexp
  | Some layer_gaussian => activation layer_gaussian
  | Some layer_sine => activation layer_sine
  | Some layer_rectifier => activation layer_rectifier
  | Some layer_leakyrectifier => activation layer_leakyrectifier
  | Some layer_softplus => activation layer_softplus
  | Some layer_linear =>
      L ← GLayerLinear.new_from_dom junk pNode; Ok (Linear L)
  | Some layer_restrictedboltzmannmachine =>
      L ← GLayerRestrictedBoltzmannMachine.new_from_dom junk pNode;
      Ok (RestrictedBoltzmannMachine L)
  | Some layer_convolutional1d =>
      L ← GLayerConvolutional1D.new_from_dom pNode; Ok (Convolutional1D L)
  | Some layer_convolutional2d =>
      L ← GLayerConvolutional2D.new_from_dom junk pNode; Ok (Convolutional2D L)
  | _ => Raise (Ex (String.append "Unrecognized neural network layer type: "
                                  (to_str e)))
  end.

(** The virtual [inputs()] and [outputs()]. *)
Definition inputs (layer : GNeuralNetLayer) : Z :=
  match layer with
  | Activation L => GLayerActivation.inputs L
  | Linear L => GLayerLinear.inputs L
  | ProductPooling L => GLayerProductPooling.inputs L
  | AdditionPooling L => GLayerAdditionPooling.inputs L
  | MaxOut L => GLayerMaxOut.inputs L
  | RestrictedBoltzmannMachine L => GLayerRestrictedBoltzmannMachine.inputs L
  | Convolutional1D L => GLayerConvolutional1D.inputs L
  | Convolutional2D L => GLayerConvolutional2D.inputs L
  | MaxPooling2D L => GMaxPooling2D.inputs L
  end.

Definition outputs (layer : GNeuralNetLayer) : result Z :=
  match layer with
  | Activation L => Ok (GLayerActivation.outputs L)
  | Linear L => Ok (GLayerLinear.outputs L)
  | ProductPooling L => Ok (GLayerProductPooling.outputs L)
  | AdditionPooling L => Ok (GLayerAdditionPooling.outputs L)
  | MaxOut L => Ok (GLayerMaxOut.outputs L)
  | RestrictedBoltzmannMachine L => Ok (GLayerRestrictedBoltzmannMachine.outputs L)
  | Convolutional1D L => Ok (GLayerConvolutional1D.outputs L)
  | Convolutional2D L => Ok (GLayerConvolutional2D.outputs L)
  | MaxPooling2D L => GMaxPooling2D.outputs L
  end.

(** The weight values a layer holds: the bias vectors, then the rows of the
    weight or kernel matrix. *)
Definition weight_values (layer : GNeuralNetLayer) : result (list GVec) :=
  match layer with
  | Linear L => Ok (m_rows (GLayerLinear.m_weights L))
  | MaxOut L =>
      b ← GLayerMaxOut.bias L; Ok (b :: m_rows (GLayerMaxOut.m_weights L))
  | RestrictedBoltzmannMachine L =>
      b ← GLayerRestrictedBoltzmannMachine.bias L;
      br ← GLayerRestrictedBoltzmannMachine.biasReverse L;
      Ok (b :: br :: m_rows (GLayerRestrictedBoltzmannMachine.m_weights L))
  | Convolutional1D L =>
      Ok (GLayerConvolutional1D.m_bias L
          :: m_rows (GLayerConvolutional1D.m_kernels L))
  | Convolutional2D L =>
      Ok (GLayerConvolutional2D.m_bias L
          :: m_rows (GLayerConvolutional2D.m_kernels L))
  | _ => Ok []
  end.

(** What [deserialize(serialize(layer))] has to reproduce. *)
Definition reproduces (junk : double) (layer : GNeuralNetLayer) : Prop :=
  exists node layer',
    serialize layer = Ok node /\
    deserialize junk node = Ok layer' /\
    inputs layer' = inputs layer /\
    outputs layer' = outputs layer /\
    weight_values layer' = weight_values layer.

(** ** GParameterizedLayer: the layers that have weights *)

Inductive GParameterizedLayer : Type :=
| PLinear (L : GLayerLinear.t)
| PMaxOut (L : GLayerMaxOut.t)
| PRestrictedBoltzmannMachine (L : GLayerRestrictedBoltzmannMachine.t)
| PConvolutional1D (L : GLayerConvolutional1D.t)
| PConvolutional2D (L : GLayerConvolutional2D.t).

(** A parameterized layer seen as a [GNeuralNetLayer]. *)
Definition as_layer (P : GParameterizedLayer) : GNeuralNetLayer :=
  match P with
  | PLinear L => Linear L
  | PMaxOut L => MaxOut L
  | PRestrictedBoltzmannMachine L => RestrictedBoltzmannMachine L
  | PConvolutional1D L => Convolutional1D L
  | PConvolutional2D L => Convolutional2D L
  end.

(** The virtual [weightsToVector] and [vectorToWeights]. *)
Definition weightsToVector (P : GParameterizedLayer) (pOutVector : list double)
  : result (list double * Z) :=
  match P with
  | PLinear L => GLayerLinear.weightsToVector L pOutVector
  | PMaxOut L => GLayerMaxOut.weightsToVector L pOutVector
  | PRestrictedBoltzmannMachine L =>
      GLayerRestrictedBoltzmannMachine.weightsToVector L pOutVector
  | PConvolutional1D L => GLayerConvolutional1D.weightsToVector L pOutVector
  | PConvolutional2D L => GLayerConvolutional2D.weightsToVector L pOutVector
  end.

Definition vectorToWeights (P : GParameterizedLayer) (pVector : list double)
  : result (GParameterizedLayer * Z) :=
  match P with
  | PLinear L =>
      r ← GLayerLinear.vectorToWeights L pVector; Ok (PLinear r.1, r.2)
  | PMaxOut L =>
      r ← GLayerMaxOut.vectorToWeights L pVector; Ok (PMaxOut r.1, r.2)
  | PRestrictedBoltzmannMachine L =>
      r ← GLayerRestrictedBoltzmannMachine.vectorToWeights L pVector;
      Ok (PRestrictedBoltzmannMachine r.1, r.2)
  | PConvolutional1D L =>
      r ← GLayerConvolutional1D.vectorToWeights L pVector;
      Ok (PConvolutional1D r.1, r.2)
  | PConvolutional2D L =>
      r ← GLayerConvolutional2D.vectorToWeights L pVector;
      Ok (PConvolutional2D r.1, r.2)
  end.

Definition is_maxout (P : GParameterizedLayer) : bool :=
  match P with PMaxOut _ => true | _ => false end.

Definition is_rbm (P : GParameterizedLayer) : bool :=
  match P with PRestrictedBoltzmannMachine _ => true | _ => false end.

Definition in_size_t (z : Z) : Prop := 0 <= z < size_modulus.

(** The shape of a parameterized layer after construction or [resize]: the
    matrices are rectangular, the bias vectors have the length the layer
    kind gives them, and every size is a [size_t]. *)
Definition shaped (P : GParameterizedLayer) : Prop :=
  match P with
  | PLinear L => GLayerLinear.wf L
  | PMaxOut L =>
      GMatrix_wf (GLayerMaxOut.m_weights L) /\
      GMatrix_wf (GLayerMaxOut.m_bias L) /\
      1 <= GMatrix_rows (GLayerMaxOut.m_bias L) /\
      m_cols (GLayerMaxOut.m_bias L) = GMatrix_rows (GLayerMaxOut.m_weights L)
  | PRestrictedBoltzmannMachine L =>
      in_size_t (m_cols (GLayerRestrictedBoltzmannMachine.m_weights L)) /\
      1 <= GMatrix_rows (GLayerRestrictedBoltzmannMachine.m_bias L) /\
      1 <= GMatrix_rows (GLayerRestrictedBoltzmannMachine.m_biasReverse L)
  | PConvolutional1D L =>
      in_size_t (GLayerConvolutional1D.m_inputSamples L) /\
      in_size_t (GLayerConvolutional1D.m_inputChannels L) /\
      in_size_t (GLayerConvolutional1D.m_outputSamples L) /\
      in_size_t (GLayerConvolutional1D.m_kernelsPerChannel L) /\
      GMatrix_wf (GLayerConvolutional1D.m_kernels L) /\
      in_size_t (m_cols (GLayerConvolutional1D.m_kernels L)) /\
      in_size_t (m_cols (GLayerConvolutional1D.m_activation L)) /\
      GVec_size (GLayerConvolutional1D.m_bias L)
      = GMatrix_rows (GLayerConvolutional1D.m_kernels L)
  | PConvolutional2D L =>
      in_size_t (GLayerConvolutional2D.m_width L) /\
      in_size_t (GLayerConvolutional2D.m_height L) /\
      in_size_t (GLayerConvolutional2D.m_channels L) /\
      in_size_t (GLayerConvolutional2D.m_outputWidth L) /\
      in_size_t (GLayerConvolutional2D.m_outputHeight L) /\
      GMatrix_wf (GLayerConvolutional2D.m_kernels L) /\
      in_size_t (m_cols (GLayerConvolutional2D.m_kernels L)) /\
      in_size_t (GMatrix_rows (GLayerConvolutional2D.m_kernels L)
                 * m_cols (GLayerConvolutional2D.m_kernels L)) /\
      GVec_size (GLayerConvolutional2D.m_bias L)
      = GMatrix_rows (GLayerConvolutional2D.m_kernels L)
  end.

(** The number of doubles a layer keeps as weights: what its
    [weightsToVector] writes. *)
Definition stored_weights (P : GParameterizedLayer) : Z :=
  match P with
  | PLinear L =>
      GMatrix_rows (GLayerLinear.m_weights L) * m_cols (GLayerLinear.m_weights L)
  | PMaxOut L =>
      GMatrix_rows (GLayerMaxOut.m_weights L)
      * (m_cols (GLayerMaxOut.m_weights L) + 1)
  | PRestrictedBoltzmannMachine L =>
      GMatrix_rows (GLayerRestrictedBoltzmannMachine.m_weights L)
      * (m_cols (GLayerRestrictedBoltzmannMachine.m_weights L) + 1)
  | PConvolutional1D L =>
      GMatrix_rows (GLayerConvolutional1D.m_kernels L)
      * (m_cols (GLayerConvolutional1D.m_kernels L) + 1)
  | PConvolutional2D L =>
      GMatrix_rows (GLayerConvolutional2D.m_kernels L)
      * (m_cols (GLayerConvolutional2D.m_kernels L) + 1)
  end.

(** The buffer invariant: the activation and the error buffer exist and
    each has [outputs()] elements. *)
Definition buffers_match (activation error : result GVec) (outputs : Z) : Prop :=
  exists a e,
    activation = Ok a /\ error = Ok e /\
    GVec_size a = outputs /\ GVec_size e = outputs.

(** ** GLayerLogistic: the activation function *)

(** [std::exp] is not an operation of the primitive floats; the logistic
    function is embedded over the real numbers, with the comparisons of the
    source. *)
Module GLayerLogistic.

Definition eval (x : R) : R :=
  if Rge_dec x 700 then 1%R
  else if Rlt_dec x (-700) then 0%R
  else (1 / (exp (- x) + 1))%R.

Definition derivative (x f_x : R) : R := (f_x * (1 - f_x))%R.

End GLayerLogistic.

(** The sample implementation of [rand()] of the C standard (ISO C 7.22.2):
    [next = next * 1103515245 + 12345; return (next / 65536) % 32768]. *)
Definition iso_c_rand (next : Z) : Z * Z :=
  let next' := wrap (next * 1103515245 + 12345) in
  ((next' / 65536) mod 32768, next').

(** ** Concrete layers used in the examples *)

(** A linear layer with 2 inputs and 2 outputs: weight rows [1 2] and [3 4],
    bias row [0.5 0.25], activation row [0 0] and error row [1 2]. *)
Definition linear_2x2 : GLayerLinear.t :=
  GLayerLinear.mk (mkGMatrix [[1; 2]; [3; 4]; [0.5; 0.25]]%float 2)
                  (mkGMatrix [[0; 0]; [1; 2]]%float 2).

(** An addition-pooling layer with 2 inputs and 1 output whose error buffer
    holds [1]. *)
Definition addpool_2 : GLayerAdditionPooling.t :=
  GLayerAdditionPooling.mk (mkGMatrix [[5]; [1]]%float 1).

(** A maxout layer with 2 inputs and 1 output, weights 1 and bias 0. *)
Definition maxout_2x1 : GLayerMaxOut.t :=
  GLayerMaxOut.mk (mkGMatrix [[1]; [1]]%float 1)
                  (mkGMatrix [[0; 0]; [0; 0]]%float 2)
                  (mkGMatrix [[0]; [0]]%float 1)
                  [0].

(** A one-dimensional convolutional layer as built by
    [GLayerConvolutional1D(10, 1, 3, 1)], with kernel [w0 w1 w2] and bias
    [b]. *)
Definition conv1d_10_1_3_1 (w0 w1 w2 b : double) (act : GMatrix)
  : GLayerConvolutional1D.t :=
  GLayerConvolutional1D.mk 10 1 8 1 (mkGMatrix [[w0; w1; w2]] 3) act [b].

(** A max-pooling layer over a 4x4 single-channel input with region size 2;
    its error buffer holds [1; 2; 3; 4]. *)
Definition maxpool_4x4 : GMaxPooling2D.t :=
  GMaxPooling2D.mk 4 4 1 2 (mkGMatrix [[0; 0; 0; 0]; [1; 2; 3; 4]]%float 4).

(** The row-major 4x4 input
    [[1 2 5 6] [3 4 7 8] [9 10 13 14] [11 12 15 16]]. *)
Definition input_4x4 : GVec :=
  [1; 2; 5; 6; 3; 4; 7; 8; 9; 10; 13; 14; 11; 12; 15; 16]%float.

(** The document [GMaxPooling2D::serialize] writes for a layer over a 4x4
    single-channel input with region size 2. *)
Definition maxpool_4x4_document : GDomNode :=
  DomObj [("type", DomInt 19); ("icol", DomInt 4); ("irow", DomInt 4);
          ("ichan", DomInt 1); ("size", DomInt 2)].

(** A restricted Boltzmann machine with 2 inputs and 1 output: weight row
    [1 2], bias [0.5], reverse bias [0.25 0.75]. *)
Definition rbm_2x1 : GLayerRestrictedBoltzmannMachine.t :=
  GLayerRestrictedBoltzmannMachine.mk
    (mkGMatrix [[1; 2]]%float 2)
    (mkGMatrix [[0.5]; [0]; [0]]%float 1)
    (mkGMatrix [[0.25; 0.75]; [0; 0]; [0; 0]]%float 2).

(** * Properties *)

(** ** Sanity checks of the embedding on concrete values *)

Example GVec_dotProduct_ex :
  GVec_dotProduct [1; 2; 3]%float [4; 5; 6]%float = Ok 32%float.
Proof. vm_compute. reflexivity. Qed.

Example GLayerLinear_feedForward_ex :
  GLayerLinear.feedForward
    (GLayerLinear.mk (mkGMatrix [[1; 2]; [3; 4]; [0.5; 0.25]]%float 2)
                     (mkGMatrix [[0; 0]; [0; 0]]%float 2))
    [10; 100]%float
  = Ok (GLayerLinear.mk (mkGMatrix [[1; 2]; [3; 4]; [0.5; 0.25]]%float 2)
                        (mkGMatrix [[310.5; 420.25]; [0; 0]]%float 2)).
Proof. vm_compute. reflexivity. Qed.

Example GLayerLinear_updateDeltas_ex :
  GLayerLinear.updateDeltas
    (GLayerLinear.mk (mkGMatrix [[1; 2]; [3; 4]; [0.5; 0.25]]%float 2)
                     (mkGMatrix [[0; 0]; [1; 2]]%float 2))
    [10; 100]%float [0; 0; 0; 0; 0; 1]%float
  = Ok [10; 20; 100; 200; 1; 3]%float.
Proof. vm_compute. reflexivity. Qed.

Example GMaxPooling2D_feedForward_ex :
  (L ← GMaxPooling2D.feedForward maxpool_4x4 input_4x4; GMaxPooling2D.activation L)
  = Ok [2; 6; 10; 14]%float.
Proof. vm_compute. reflexivity. Qed.

Example GLayerConvolutional1D_feedForward_ex :
  (L ← GLayerConvolutional1D.feedForward
         (conv1d_10_1_3_1 1 2 3 0.5 (mkGMatrix [replicate 8 0; replicate 8 0]%float 8))
         [1; 2; 3; 4; 5; 6; 7; 8; 9; 10]%float;
   GLayerConvolutional1D.activation L)
  = Ok [14.5; 20.5; 26.5; 32.5; 38.5; 44.5; 50.5; 56.5]%float.
Proof. vm_compute. reflexivity. Qed.

(** ** Binary64 arithmetic *)

(** IEEE-754 multiplication and addition are commutative. *)
Lemma float_mul_comm (x y : double) : (x * y = y * x)%float.
Proof.
  apply Prim2SF_inj. rewrite !mul_spec. unfold SF64mul, SFmul.
  destruct (Prim2SF x) as [sx | sx | | sx mx ex];
    destruct (Prim2SF y) as [sy | sy | | sy my ey];
    try reflexivity; rewrite ?(xorb_comm sx sy); try reflexivity.
  rewrite (Pos.mul_comm mx my), (Z.add_comm ex ey). reflexivity.
Qed.

Lemma float_add_comm (x y : double) : (x + y = y + x)%float.
Proof.
  apply Prim2SF_inj. rewrite !add_spec. unfold SF64add, SFadd.
  destruct (Prim2SF x) as [sx | sx | | sx mx ex];
    destruct (Prim2SF y) as [sy | sy | | sy my ey];
    try reflexivity; try (destruct sx, sy; reflexivity).
  cbv zeta. rewrite (Z.min_comm ex ey).
  rewrite (Z.add_comm (cond_Zopp sx _)). reflexivity.
Qed.

(** ** The error monad and the loops *)

(** Reduce [x ← Ok a; k] to [k a] without unfolding anything else. *)
Ltac mstep := cbn [mbind result_bind bind mret result_ret].

(** Loop rule: an invariant established before the loop and preserved by
    every iteration (which must not fail) holds when the loop is left. *)
Lemma for_range_inv {S : Type} (P : nat -> S -> Prop)
      (body : nat -> S -> result S) :
  forall count from s,
    P from s ->
    (forall i s0, (from <= i < from + count)%nat -> P i s0 ->
                  exists s', body i s0 = Ok s' /\ P (Datatypes.S i) s') ->
    exists s', for_range body from count s = Ok s' /\ P (from + count)%nat s'.
Proof.
  induction count as [|c IH]; intros from s HP Hbody; simpl.
  - exists s. rewrite Nat.add_0_r. auto.
  - destruct (Hbody from s) as (s1 & E1 & P1); [lia | assumption |].
    rewrite E1. simpl.
    destruct (IH (Datatypes.S from) s1) as (s2 & E2 & P2); [assumption | |].
    + intros i s0 Hi HPi. apply Hbody; [lia | assumption].
    + exists s2. split; [assumption |].
      replace (from + Datatypes.S c)%nat with (Datatypes.S from + c)%nat by lia.
      assumption.
Qed.

Lemma for_upto_inv {S : Type} (P : nat -> S -> Prop)
      (body : nat -> S -> result S) (n : Z) (s : S) :
  P 0%nat s ->
  (forall i s0, (i < Z.to_nat n)%nat -> P i s0 ->
                exists s', body i s0 = Ok s' /\ P (Datatypes.S i) s') ->
  exists s', for_upto n body s = Ok s' /\ P (Z.to_nat n) s'.
Proof.
  intros H0 Hb. unfold for_upto.
  destruct (for_range_inv P body (Z.to_nat n) 0%nat s H0) as (s' & E & HP).
  - intros i s0 Hi. apply Hb. lia.
  - exists s'. split; [exact E | exact HP].
Qed.

Lemma accumulate_S (f : nat -> double) (n : nat) (init : double) :
  accumulate f (Datatypes.S n) init = (accumulate f n init + f n)%float.
Proof.
  unfold accumulate. rewrite seq_S, fold_left_app. reflexivity.
Qed.

Lemma elt_lookup (v : GVec) (i : nat) :
  (i < length v)%nat -> v !! i = Some (elt v i).
Proof.
  intros H. unfold elt.
  destruct (lookup_lt_is_Some_2 v i H) as [x ->]. reflexivity.
Qed.

Lemma GVec_get_elt (v : GVec) (i : nat) :
  (i < length v)%nat -> GVec_get v i = Ok (elt v i).
Proof. intros H. unfold GVec_get. rewrite elt_lookup by assumption. reflexivity. Qed.

Lemma GVec_set_Ok (v : GVec) (i : nat) (x : double) :
  (i < length v)%nat -> GVec_set v i x = Ok (<[i := x]> v).
Proof. intros H. unfold GVec_set. rewrite decide_True by assumption. reflexivity. Qed.

Lemma GMatrix_row_lookup (m : GMatrix) (i : nat) (r : GVec) :
  m_rows m !! i = Some r -> GMatrix_row m i = Ok r.
Proof. intros H. unfold GMatrix_row. rewrite H. reflexivity. Qed.

Lemma GMatrix_wf_row (m : GMatrix) (i : nat) (r : GVec) :
  GMatrix_wf m -> m_rows m !! i = Some r -> Z.of_nat (length r) = m_cols m.
Proof.
  intros Hwf Hr. unfold GMatrix_wf in Hwf.
  rewrite Forall_lookup in Hwf. exact (Hwf i r Hr).
Qed.

Lemma entry_lookup (m : GMatrix) (i j : nat) (r : GVec) :
  m_rows m !! i = Some r -> entry m i j = elt r j.
Proof. intros H. unfold entry. rewrite H. reflexivity. Qed.

Lemma wrap_small (z : Z) : 0 <= z < size_modulus -> wrap z = z.
Proof. intros H. unfold wrap. apply Z.mod_small. exact H. Qed.

Lemma GMatrix_wf_cols_nonneg (m : GMatrix) :
  GMatrix_wf m -> 1 <= GMatrix_rows m -> 0 <= m_cols m.
Proof.
  unfold GMatrix_wf, GMatrix_rows. intros Hwf Hrows.
  destruct (m_rows m) as [|r rs]; simpl in Hrows; [lia |].
  inversion Hwf; subst. lia.
Qed.

(** ** GLayerLinear: feedForward, backPropError, updateDeltas *)

Lemma GLayerLinear_wf_inputs (L : GLayerLinear.t) :
  GLayerLinear.wf L ->
  GLayerLinear.inputs L = GMatrix_rows (GLayerLinear.m_weights L) - 1.
Proof.
  intros (Hw & _ & H1 & Hfit & _).
  pose proof (GMatrix_wf_cols_nonneg _ Hw H1) as Hc.
  unfold GLayerLinear.inputs, wrap. apply Z.mod_small. nia.
Qed.

Lemma GLayerLinear_feedForward_spec (L : GLayerLinear.t) (input : GVec) :
  GLayerLinear.wf L ->
  GVec_size input = GLayerLinear.inputs L ->
  exists L' a,
    GLayerLinear.feedForward L input = Ok L' /\
    GLayerLinear.wf L' /\
    GLayerLinear.m_weights L' = GLayerLinear.m_weights L /\
    GLayerLinear.error L' = GLayerLinear.error L /\
    GLayerLinear.activation L' = Ok a /\
    GVec_size a = GLayerLinear.outputs L /\
    forall j : nat, Z.of_nat j < GLayerLinear.outputs L ->
      a !! j = Some (accumulate
                       (fun i => (elt input i * entry (GLayerLinear.m_weights L) i j)%float)
                       (Z.to_nat (GLayerLinear.inputs L))
                       (entry (GLayerLinear.m_weights L)
                              (Z.to_nat (GLayerLinear.inputs L)) j)).
Proof.
  intros Hwf Hin.
  pose proof (GLayerLinear_wf_inputs L Hwf) as Hinputs.
  destruct Hwf as (Hw & Ha & H1 & Hfit & Har & Hac).
  unfold GLayerLinear.feedForward. rewrite Hinputs in *.
  destruct L as [W [ra ca]].
  unfold GLayerLinear.activation, GLayerLinear.error, GLayerLinear.bias,
    GLayerLinear.outputs, GMatrix_rows, GMatrix_cols, GVec_size in *.
  cbn [GLayerLinear.m_weights GLayerLinear.m_activation m_rows m_cols] in *.
  set (nr := length (m_rows W)) in *.
  (* the two rows of the activation matrix *)
  destruct ra as [|a0 [|e0 [|]]]; simpl in Har; try lia.
  (* the bias row *)
  assert (Hb : exists b, m_rows W !! (nr - 1)%nat = Some b).
  { apply lookup_lt_is_Some_2. lia. }
  destruct Hb as [b Hb].
  assert (Hlast : GMatrix_back W = Ok b).
  { unfold GMatrix_back. rewrite last_lookup.
    replace (Init.Nat.pred (length (m_rows W))) with (nr - 1)%nat by (subst nr; lia).
    rewrite Hb. reflexivity. }
  pose proof (GMatrix_wf_row W _ _ Hw Hb) as Hblen.
  rewrite (GMatrix_row_lookup (mkGMatrix [a0; e0] ca) 0 a0 eq_refl).
  rewrite Hlast. mstep.
  set (f := fun j i => (elt input i * entry W i j)%float).
  destruct (for_upto_inv
              (fun i (a : GVec) =>
                 length a = length b /\
                 forall j, (j < length b)%nat ->
                           a !! j = Some (accumulate (f j) i (elt b j)))
              (fun i a =>
                 x ← GVec_get input i;
                 w ← GMatrix_row W i;
                 GVec_addScaled a x w)
              (Z.of_nat nr - 1) b)
    as (a & Ea & Hlen & Hval).
  - split; [reflexivity |]. intros j Hj. apply elt_lookup. exact Hj.
  - intros i a Hi (Hlen & Hval).
    rewrite GVec_get_elt by lia. mstep.
    assert (Hw' : exists w, m_rows W !! i = Some w).
    { apply lookup_lt_is_Some_2. fold nr. lia. }
    destruct Hw' as [w Hwi].
    rewrite (GMatrix_row_lookup W i w Hwi). mstep.
    pose proof (GMatrix_wf_row W _ _ Hw Hwi) as Hwlen.
    unfold GVec_addScaled. rewrite decide_True by lia.
    eexists. split; [reflexivity |]. split.
    + rewrite length_zip_with. lia.
    + intros j Hj. rewrite lookup_zip_with.
      rewrite (Hval j Hj). simpl.
      rewrite elt_lookup by lia. simpl.
      rewrite accumulate_S. unfold f.
      rewrite (entry_lookup W i j w Hwi). reflexivity.
  - rewrite Ea. mstep.
    unfold GMatrix_set_row. simpl.
    eexists. exists a. split; [reflexivity |]. simpl.
    split.
    { unfold GLayerLinear.wf, GMatrix_rows. simpl.
      repeat split; try assumption; try lia.
      inversion Ha as [|? ? ? Htl]; subst.
      constructor; [simpl; lia | exact Htl]. }
    split; [reflexivity |]. split; [reflexivity |].
    split; [reflexivity |]. split.
    + lia.
    + intros j Hj.
      rewrite Hval by lia.
      replace (Z.to_nat (Z.of_nat nr - 1)) with (nr - 1)%nat by lia.
      rewrite (entry_lookup W (nr - 1) j b Hb). reflexivity.
Qed.

Lemma GLayerLinear_backPropError_spec (L : GLayerLinear.t) (up : UpStream) :
  GLayerLinear.wf L ->
  0 <= up_outputs up <= GLayerLinear.inputs L ->
  GVec_size (up_error up) = up_outputs up ->
  exists up' source,
    GLayerLinear.backPropError L up = Ok up' /\
    GLayerLinear.error L = Ok source /\
    up_outputs up' = up_outputs up /\
    up_activation up' = up_activation up /\
    GVec_size (up_error up') = up_outputs up /\
    forall i : nat, Z.of_nat i < up_outputs up ->
      exists w d,
        GMatrix_row (GLayerLinear.m_weights L) i = Ok w /\
        GVec_dotProduct source w = Ok d /\
        up_error up' !! i = Some d.
Proof.
  intros Hwf Hup Hlen.
  pose proof (GLayerLinear_wf_inputs L Hwf) as Hinputs.
  destruct Hwf as (Hw & Ha & H1 & Hfit & Har & Hac).
  unfold GLayerLinear.backPropError. rewrite Hinputs in *.
  destruct L as [W [ra ca]].
  unfold GLayerLinear.error, GMatrix_rows, GMatrix_cols, GVec_size in *.
  cbn [GLayerLinear.m_weights GLayerLinear.m_activation m_rows m_cols] in *.
  destruct ra as [|a0 [|e0 [|]]]; simpl in Har; try lia.
  assert (He0 : Z.of_nat (length e0) = ca).
  { apply (GMatrix_wf_row (mkGMatrix [a0; e0] ca) 1 e0 Ha eq_refl). }
  rewrite (GMatrix_row_lookup (mkGMatrix [a0; e0] ca) 1 e0 eq_refl). mstep.
  destruct (for_upto_inv
              (fun i (e : GVec) =>
                 length e = length (up_error up) /\
                 forall k, (k < i)%nat ->
                   exists w d, m_rows W !! k = Some w /\
                               GVec_dotProduct e0 w = Ok d /\
                               e !! k = Some d)
              (fun i upStreamError =>
                 w ← GMatrix_row W i;
                 d ← GVec_dotProduct e0 w;
                 GVec_set upStreamError i d)
              (up_outputs up) (up_error up))
    as (e & Ee & Helen & Hval).
  - split; [reflexivity |]. intros k Hk. lia.
  - intros i e Hi (Helen & Hval).
    assert (Hw' : exists w, m_rows W !! i = Some w).
    { apply lookup_lt_is_Some_2. lia. }
    destruct Hw' as [w Hwi].
    pose proof (GMatrix_wf_row W _ _ Hw Hwi) as Hwlen.
    rewrite (GMatrix_row_lookup W i w Hwi). mstep.
    assert (Hd : exists d, GVec_dotProduct e0 w = Ok d).
    { unfold GVec_dotProduct. rewrite decide_True by lia. eexists. reflexivity. }
    destruct Hd as [d Hd]. rewrite Hd. mstep.
    rewrite GVec_set_Ok by lia.
    eexists. split; [reflexivity |]. split.
    + rewrite length_insert. exact Helen.
    + intros k Hk. destruct (decide (k = i)) as [-> | Hne].
      * exists w, d. split; [exact Hwi |]. split; [exact Hd |].
        apply list_lookup_insert_eq. lia.
      * destruct (Hval k) as (w' & d' & Hw' & Hd' & He'); [lia |].
        exists w', d'. split; [exact Hw' |]. split; [exact Hd' |].
        rewrite list_lookup_insert_ne by congruence. exact He'.
  - rewrite Ee. mstep.
    eexists. exists e0. split; [reflexivity |]. simpl.
    split; [reflexivity |]. split; [reflexivity |]. split; [reflexivity |].
    split; [lia |].
    intros i Hi. destruct (Hval i) as (w & d & Hwi & Hd & Hei); [lia |].
    exists w, d. split; [apply GMatrix_row_lookup; exact Hwi |].
    split; [exact Hd | exact Hei].
Qed.

(** A run of [*delta++ += h(err[j])] for [j < n], starting with the cursor at
    [p], adds [h (err[j])] into slot [p + j] and leaves the other slots. *)
Lemma add_at_cursor_loop (h : double -> double) (err d : GVec) (p : nat) (n : Z) :
  (Z.to_nat n <= length err)%nat ->
  (p + Z.to_nat n <= length d)%nat ->
  exists d',
    for_upto n
      (fun j s => e ← GVec_get err j; GLayerLinear.add_at_cursor (h e) s)
      (d, p) = Ok (d', (p + Z.to_nat n)%nat) /\
    length d' = length d /\
    (forall j, (j < Z.to_nat n)%nat ->
               d' !! (p + j)%nat = Some (elt d (p + j) + h (elt err j))%float) /\
    (forall k, ~ (p <= k < p + Z.to_nat n)%nat -> d' !! k = d !! k).
Proof.
  intros Herr Hd.
  destruct (for_upto_inv
              (fun i (s : GVec * nat) =>
                 s.2 = (p + i)%nat /\ length s.1 = length d /\
                 (forall j, (j < i)%nat ->
                    s.1 !! (p + j)%nat = Some (elt d (p + j) + h (elt err j))%float) /\
                 (forall k, ~ (p <= k < p + i)%nat -> s.1 !! k = d !! k))
              (fun j s => e ← GVec_get err j; GLayerLinear.add_at_cursor (h e) s)
              n (d, p))
    as ([d' p'] & E & Hp & Hlen & Hin & Hout).
  - simpl. split; [lia |]. split; [reflexivity |]. split; [intros; lia | auto].
  - intros i [d0 p0] Hi (Hp & Hlen & Hin & Hout). simpl in *. subst p0.
    rewrite GVec_get_elt by lia. mstep.
    unfold GLayerLinear.add_at_cursor. simpl.
    rewrite GVec_get_elt by lia. mstep.
    rewrite GVec_set_Ok by lia. mstep.
    eexists. split; [reflexivity |]. simpl.
    split; [lia |]. split; [rewrite length_insert; exact Hlen |]. split.
    + intros j Hj. destruct (decide (j = i)) as [-> | Hne].
      * rewrite list_lookup_insert_eq by lia.
        unfold elt at 1. rewrite Hout by lia. reflexivity.
      * rewrite list_lookup_insert_ne by lia. apply Hin. lia.
    + intros k Hk. rewrite list_lookup_insert_ne by lia. apply Hout. lia.
  - simpl in *. subst p'. exists d'. auto.
Qed.

Lemma GLayerLinear_updateDeltas_spec (L : GLayerLinear.t)
      (upStreamActivation deltas : GVec) :
  GLayerLinear.wf L ->
  GVec_size upStreamActivation = GLayerLinear.inputs L ->
  GVec_size deltas = GLayerLinear.countWeights L ->
  exists deltas' err,
    GLayerLinear.updateDeltas L upStreamActivation deltas = Ok deltas' /\
    GLayerLinear.error L = Ok err /\
    length deltas' = length deltas /\
    (forall i j : nat,
        Z.of_nat i < GLayerLinear.inputs L ->
        Z.of_nat j < GLayerLinear.outputs L ->
        deltas' !! (i * Z.to_nat (GLayerLinear.outputs L) + j)%nat
        = Some (elt deltas (i * Z.to_nat (GLayerLinear.outputs L) + j)
                + elt err j * elt upStreamActivation i)%float) /\
    (forall j : nat,
        Z.of_nat j < GLayerLinear.outputs L ->
        deltas' !! (Z.to_nat (GLayerLinear.inputs L)
                    * Z.to_nat (GLayerLinear.outputs L) + j)%nat
        = Some (elt deltas (Z.to_nat (GLayerLinear.inputs L)
                            * Z.to_nat (GLayerLinear.outputs L) + j)
                + elt err j)%float).
Proof.
  intros Hwf Hact Hdel.
  pose proof (GLayerLinear_wf_inputs L Hwf) as Hinputs.
  destruct Hwf as (Hw & Ha & H1 & Hfit & Har & Hac).
  pose proof (GMatrix_wf_cols_nonneg _ Hw H1) as Hc.
  unfold GLayerLinear.updateDeltas, GLayerLinear.countWeights in *.
  rewrite Hinputs in *.
  destruct L as [W [ra ca]].
  unfold GLayerLinear.error, GLayerLinear.outputs, GMatrix_rows, GMatrix_cols,
    GVec_size in *.
  cbn [GLayerLinear.m_weights GLayerLinear.m_activation m_rows m_cols] in *.
  destruct ra as [|a0 [|err [|]]]; simpl in Har; try lia.
  assert (Herr : Z.of_nat (length err) = ca).
  { apply (GMatrix_wf_row (mkGMatrix [a0; err] ca) 1 err Ha eq_refl). }
  rewrite (GMatrix_row_lookup (mkGMatrix [a0; err] ca) 1 err eq_refl). mstep.
  set (nr := length (m_rows W)) in *.
  set (no := Z.to_nat (m_cols W)) in *.
  assert (Hno : Z.of_nat no = m_cols W) by (subst no; lia).
  assert (Hdlen : length deltas = (nr * no)%nat).
  { rewrite (wrap_small (Z.of_nat nr - 1 + 1)) in Hdel by nia.
    rewrite wrap_small in Hdel by nia. nia. }
  (* the weight slots *)
  destruct (for_upto_inv
              (fun i (s : GVec * nat) =>
                 s.2 = (i * no)%nat /\ length s.1 = length deltas /\
                 (forall i' j, (i' < i)%nat -> (j < no)%nat ->
                    s.1 !! (i' * no + j)%nat
                    = Some (elt deltas (i' * no + j)
                            + elt err j * elt upStreamActivation i')%float) /\
                 (forall k, (i * no <= k)%nat -> s.1 !! k = deltas !! k))
              (fun i s =>
                 act ← GVec_get upStreamActivation i;
                 for_upto (m_cols W)
                   (fun j s => e ← GVec_get err j;
                               GLayerLinear.add_at_cursor (e * act)%float s) s)
              (Z.of_nat nr - 1) (deltas, 0%nat))
    as ([d1 p1] & E1 & Hp1 & Hlen1 & Hin1 & Hout1).
  - simpl. split; [lia |]. split; [reflexivity |]. split; [intros; lia | auto].
  - intros i [d p] Hi (Hp & Hlen & Hin & Hout). simpl in Hp, Hlen, Hin, Hout.
    subst p.
    rewrite GVec_get_elt by lia. mstep.
    assert (Hroom : (i * no + no <= nr * no)%nat).
    { replace (i * no + no)%nat with ((i + 1) * no)%nat by lia.
      apply Nat.mul_le_mono_r. lia. }
    destruct (add_at_cursor_loop
                (fun e => (e * elt upStreamActivation i)%float)
                err d (i * no) (m_cols W))
      as (d' & E & Hlen' & Hin' & Hout'); [lia | fold no; lia |].
    cbv beta in E. rewrite E. fold no.
    eexists. split; [reflexivity |]. simpl.
    split; [lia |]. split; [lia |]. split.
    + intros i' j Hi' Hj. destruct (decide (i' = i)) as [-> | Hne].
      * rewrite Hin' by (fold no; lia).
        unfold elt at 1. rewrite Hout by lia. reflexivity.
      * assert ((i' + 1) * no <= i * no)%nat by (apply Nat.mul_le_mono_r; lia).
        rewrite Hout' by (fold no; lia). apply Hin; lia.
    + intros k Hk. rewrite Hout' by (fold no; lia). apply Hout. lia.
  - rewrite E1. mstep. simpl in Hp1, Hlen1, Hin1, Hout1. subst p1.
    replace (Z.to_nat (Z.of_nat nr - 1)) with (nr - 1)%nat in * by lia.
    (* the bias slots *)
    destruct (add_at_cursor_loop (fun e => e) err d1 ((nr - 1) * no) (m_cols W))
      as (d2 & E2 & Hlen2 & Hin2 & Hout2); [lia | fold no; nia |].
    cbv beta in E2. rewrite E2. mstep. fold no in Hin2, Hout2.
    exists d2, err. split; [reflexivity |]. split; [reflexivity |].
    split; [lia |]. split.
    + intros i j Hi Hj.
      assert ((i + 1) * no <= (nr - 1) * no)%nat by (apply Nat.mul_le_mono_r; lia).
      rewrite Hout2 by lia. apply Hin1; lia.
    + intros j Hj. rewrite Hin2 by lia.
      unfold elt at 1. rewrite Hout1 by lia. reflexivity.
Qed.

(** C1. A GLayerLinear with an [inputs x outputs] weight matrix [W] and bias
    row [b]: [feedForward] of an input of length [inputs()] sets
    [activation[j]] to [b[j] + input[0]*W[0][j] + ... ] (added in index
    order); [backPropError] then sets [upstreamError[i]] to the dot product of
    this layer's error with row [i] of the weights, for every upstream index
    [i]; and [updateDeltas] adds [upstreamActivation[i] * error[j]] into the
    delta slot [i*outputs + j] of weight [(i,j)] and [error[j]] into the slot
    [inputs*outputs + j] of bias [j], keeping what the slots held. *)
Theorem GLayerLinear_forward_backward_deltas
        (L : GLayerLinear.t) (input : GVec) (up : UpStream)
        (upStreamActivation deltas : GVec) :
  GLayerLinear.wf L ->
  GVec_size input = GLayerLinear.inputs L ->
  0 <= up_outputs up <= GLayerLinear.inputs L ->
  GVec_size (up_error up) = up_outputs up ->
  GVec_size upStreamActivation = GLayerLinear.inputs L ->
  GVec_size deltas = GLayerLinear.countWeights L ->
  exists L' a err up' deltas',
    let W := GLayerLinear.m_weights L in
    let n_in := Z.to_nat (GLayerLinear.inputs L) in
    let n_out := Z.to_nat (GLayerLinear.outputs L) in
    (* feedForward *)
    GLayerLinear.feedForward L input = Ok L' /\
    GLayerLinear.m_weights L' = W /\
    GLayerLinear.activation L' = Ok a /\
    GVec_size a = GLayerLinear.outputs L /\
    (forall j : nat, (j < n_out)%nat ->
       a !! j = Some (accumulate (fun i => (elt input i * entry W i j)%float)
                                 n_in (entry W n_in j))) /\
    (* backPropError *)
    GLayerLinear.error L' = Ok err /\
    GLayerLinear.backPropError L' up = Ok up' /\
    GVec_size (up_error up') = up_outputs up /\
    (forall i : nat, Z.of_nat i < up_outputs up ->
       exists w d, GMatrix_row W i = Ok w /\
                   GVec_dotProduct err w = Ok d /\
                   up_error up' !! i = Some d) /\
    (* updateDeltas *)
    GLayerLinear.updateDeltas L' upStreamActivation deltas = Ok deltas' /\
    length deltas' = length deltas /\
    (forall i j : nat, (i < n_in)%nat -> (j < n_out)%nat ->
       deltas' !! (i * n_out + j)%nat
       = Some (elt deltas (i * n_out + j)
               + elt upStreamActivation i * elt err j)%float) /\
    (forall j : nat, (j < n_out)%nat ->
       deltas' !! (n_in * n_out + j)%nat
       = Some (elt deltas (n_in * n_out + j) + elt err j)%float).
Proof.
  intros Hwf Hin Hup Huplen Hact Hdel.
  destruct (GLayerLinear_feedForward_spec L input Hwf Hin)
    as (L' & a & Eff & Hwf' & HW & Herr & Ha & Halen & Haval).
  assert (Hio : GLayerLinear.inputs L' = GLayerLinear.inputs L
                /\ GLayerLinear.outputs L' = GLayerLinear.outputs L).
  { unfold GLayerLinear.inputs, GLayerLinear.outputs. rewrite HW. auto. }
  destruct Hio as [Hi Ho].
  assert (Hcw : GLayerLinear.countWeights L' = GLayerLinear.countWeights L).
  { unfold GLayerLinear.countWeights. rewrite Hi, Ho. reflexivity. }
  destruct (GLayerLinear_backPropError_spec L' up Hwf')
    as (up' & src & Ebp & Esrc & _ & _ & Hulen & Huval);
    [rewrite Hi; exact Hup | exact Huplen |].
  destruct (GLayerLinear_updateDeltas_spec L' upStreamActivation deltas Hwf')
    as (deltas' & err & Eud & Eerr & Hdlen & Hdw & Hdb);
    [rewrite Hi; exact Hact | rewrite Hcw; exact Hdel |].
  assert (src = err) by congruence. subst src.
  pose proof (GMatrix_wf_cols_nonneg _ (proj1 Hwf)
                (proj1 (proj2 (proj2 Hwf)))) as Hc.
  pose proof (GLayerLinear_wf_inputs L Hwf) as Hinputs.
  destruct Hwf as (_ & _ & H1 & _).
  unfold GLayerLinear.outputs, GMatrix_cols in *.
  exists L', a, err, up', deltas'. cbv zeta.
  rewrite Hi, Ho, HW in *.
  repeat split; try assumption.
  - intros j Hj. apply Haval. lia.
  - intros i j Hi' Hj. rewrite (float_mul_comm (elt upStreamActivation i)).
    apply Hdw; lia.
  - intros j Hj. apply Hdb; lia.
Qed.

Lemma GLayerLinear_forward_backward_deltas_witness :
  exists L',
    GLayerLinear.feedForward linear_2x2 [10; 100]%float = Ok L' /\
    GLayerLinear.activation L' = Ok [310.5; 420.25]%float /\
    GLayerLinear.backPropError L' (mkUpStream 2 [10; 100]%float [0; 0]%float)
    = Ok (mkUpStream 2 [10; 100]%float [5; 11]%float) /\
    GLayerLinear.updateDeltas L' [10; 100]%float [0; 0; 0; 0; 0; 1]%float
    = Ok [10; 20; 100; 200; 1; 3]%float.
Proof.
  destruct (GLayerLinear_forward_backward_deltas
              linear_2x2 [10; 100]%float
              (mkUpStream 2 [10; 100]%float [0; 0]%float)
              [10; 100]%float [0; 0; 0; 0; 0; 1]%float)
    as (L' & a & err & up' & deltas' & Eff & _).
  - unfold GLayerLinear.wf, GMatrix_wf.
    repeat split; try (vm_compute; reflexivity); try (vm_compute; discriminate);
      repeat constructor.
  - reflexivity.
  - vm_compute. split; discriminate.
  - reflexivity.
  - reflexivity.
  - reflexivity.
  - exists L'. split; [exact Eff |].
    vm_compute in Eff. injection Eff as <-.
    repeat split; vm_compute; reflexivity.
Defined.

(** ** The pooling layers *)

Lemma land_1_odd (z : Z) : (Z.land z 1 =? 1) = Z.odd z.
Proof.
  change 1 with (Z.ones 1) at 1. rewrite Z.land_ones by lia.
  change (2 ^ 1) with 2. rewrite Zmod_odd.
  destruct (Z.odd z); reflexivity.
Qed.

Lemma GLayerProductPooling_new_even (junk : double) (inps : Z) :
  0 <= inps < size_modulus -> Z.odd inps = false ->
  exists L, GLayerProductPooling.new junk inps = Ok L /\
            GLayerProductPooling.outputs L = inps / 2.
Proof.
  intros Hr Hodd. unfold GLayerProductPooling.new, GLayerProductPooling.resize.
  rewrite land_1_odd, Hodd.
  pose proof (Zdiv2_odd_eqn inps) as Heq. rewrite Hodd, Z.div2_div in Heq.
  rewrite wrap_small by lia.
  replace (inps / 2 * 2 =? inps) with true by (symmetry; apply Z.eqb_eq; lia).
  cbn [negb].
  destruct (inps / 2 =? GLayerProductPooling.outputs GLayerProductPooling.init) eqn:E.
  - apply Z.eqb_eq in E. eexists. split; [reflexivity | congruence].
  - eexists. split; reflexivity.
Qed.

Lemma GLayerAdditionPooling_new_even (junk : double) (inps : Z) :
  0 <= inps < size_modulus -> Z.odd inps = false ->
  exists L, GLayerAdditionPooling.new junk inps = Ok L /\
            GLayerAdditionPooling.outputs L = inps / 2.
Proof.
  intros Hr Hodd. unfold GLayerAdditionPooling.new, GLayerAdditionPooling.resize.
  rewrite land_1_odd, Hodd.
  pose proof (Zdiv2_odd_eqn inps) as Heq. rewrite Hodd, Z.div2_div in Heq.
  rewrite wrap_small by lia.
  replace (inps / 2 * 2 =? inps) with true by (symmetry; apply Z.eqb_eq; lia).
  cbn [negb].
  destruct (inps / 2 =? GLayerAdditionPooling.outputs GLayerAdditionPooling.init) eqn:E.
  - apply Z.eqb_eq in E. eexists. split; [reflexivity | congruence].
  - eexists. split; reflexivity.
Qed.

(** C5. Constructing a GLayerProductPooling or a GLayerAdditionPooling with
    input size [2n] gives a layer with [outputs() = n]; constructing either
    with an input size [inps] throws if and only if [inps] is odd, and the
    exception is [Ex("inputCount must be divisible by 2")]. *)
Theorem pooling_shape_law (junk : double) (n inps : Z) :
  0 <= 2 * n < size_modulus ->
  0 <= inps < size_modulus ->
  (exists L, GLayerProductPooling.new junk (2 * n) = Ok L /\
             GLayerProductPooling.outputs L = n) /\
  (exists L, GLayerAdditionPooling.new junk (2 * n) = Ok L /\
             GLayerAdditionPooling.outputs L = n) /\
  ((exists e, GLayerProductPooling.new junk inps = Raise e) <-> Z.odd inps = true) /\
  ((exists e, GLayerAdditionPooling.new junk inps = Raise e) <-> Z.odd inps = true) /\
  (Z.odd inps = true ->
   GLayerProductPooling.new junk inps = Raise (Ex "inputCount must be divisible by 2") /\
   GLayerAdditionPooling.new junk inps = Raise (Ex "inputCount must be divisible by 2")).
Proof.
  intros Hn Hinps.
  assert (Hodd : Z.odd (2 * n) = false) by (rewrite Z.odd_mul; reflexivity).
  assert (Hdiv : 2 * n / 2 = n) by (rewrite Z.mul_comm; apply Z.div_mul; lia).
  assert (Hraise : Z.odd inps = true ->
     GLayerProductPooling.new junk inps = Raise (Ex "inputCount must be divisible by 2") /\
     GLayerAdditionPooling.new junk inps = Raise (Ex "inputCount must be divisible by 2")).
  { intros H. unfold GLayerProductPooling.new, GLayerAdditionPooling.new.
    rewrite land_1_odd, H. split; reflexivity. }
  split; [| split; [| split; [| split]]].
  - destruct (GLayerProductPooling_new_even junk (2 * n) Hn Hodd) as (L & E & Ho).
    exists L. split; [exact E | lia].
  - destruct (GLayerAdditionPooling_new_even junk (2 * n) Hn Hodd) as (L & E & Ho).
    exists L. split; [exact E | lia].
  - split.
    + intros [e He]. destruct (Z.odd inps) eqn:Ho; [reflexivity |].
      destruct (GLayerProductPooling_new_even junk inps Hinps Ho) as (L & E & _).
      congruence.
    + intros H. eexists. exact (proj1 (Hraise H)).
  - split.
    + intros [e He]. destruct (Z.odd inps) eqn:Ho; [reflexivity |].
      destruct (GLayerAdditionPooling_new_even junk inps Hinps Ho) as (L & E & _).
      congruence.
    + intros H. eexists. exact (proj2 (Hraise H)).
  - exact Hraise.
Qed.

Lemma pooling_shape_law_witness :
  (exists L, GLayerProductPooling.new 0%float 6 = Ok L /\
             GLayerProductPooling.outputs L = 3) /\
  (exists L, GLayerAdditionPooling.new 0%float 6 = Ok L /\
             GLayerAdditionPooling.outputs L = 3) /\
  GLayerProductPooling.new 0%float 7 = Raise (Ex "inputCount must be divisible by 2") /\
  GLayerAdditionPooling.new 0%float 7 = Raise (Ex "inputCount must be divisible by 2").
Proof.
  destruct (pooling_shape_law 0%float 3 7) as (H1 & H2 & _ & _ & H5).
  - vm_compute. split; [discriminate | reflexivity].
  - vm_compute. split; [discriminate | reflexivity].
  - split; [exact H1 |]. split; [exact H2 |]. apply H5. reflexivity.
Defined.

(** What [GLayerAdditionPooling::backPropError] computes, for every layer:
    each upstream error is this layer's error plus the activation of the
    other input of the pair. *)
Lemma GLayerAdditionPooling_backPropError_spec
      (L : GLayerAdditionPooling.t) (up : UpStream) (err : GVec) :
  GLayerAdditionPooling.error L = Ok err ->
  GVec_size err = GLayerAdditionPooling.outputs L ->
  GVec_size (up_activation up) = 2 * GLayerAdditionPooling.outputs L ->
  GVec_size (up_error up) = 2 * GLayerAdditionPooling.outputs L ->
  exists up',
    GLayerAdditionPooling.backPropError L up = Ok up' /\
    length (up_error up') = length (up_error up) /\
    forall i : nat, Z.of_nat i < GLayerAdditionPooling.outputs L ->
      up_error up' !! (2 * i)%nat
      = Some (elt err i + elt (up_activation up) (2 * i + 1))%float /\
      up_error up' !! (2 * i + 1)%nat
      = Some (elt err i + elt (up_activation up) (2 * i))%float.
Proof.
  intros Eerr Herr Hact Hue. unfold GVec_size in *.
  unfold GLayerAdditionPooling.backPropError. rewrite Eerr. mstep.
  set (n := GLayerAdditionPooling.outputs L) in *.
  destruct (for_upto_inv
              (fun i (ue : GVec) =>
                 length ue = length (up_error up) /\
                 forall k, (k < i)%nat ->
                   ue !! (2 * k)%nat
                   = Some (elt err k + elt (up_activation up) (2 * k + 1))%float /\
                   ue !! (2 * k + 1)%nat
                   = Some (elt err k + elt (up_activation up) (2 * k))%float)
              (fun i upStreamError =>
                 ei ← GVec_get err i;
                 a1 ← GVec_get (up_activation up) (2 * i + 1);
                 upStreamError ← GVec_set upStreamError (2 * i) (ei + a1)%float;
                 a0 ← GVec_get (up_activation up) (2 * i);
                 GVec_set upStreamError (2 * i + 1) (ei + a0)%float)
              n (up_error up))
    as (e & Ee & Hlen & Hval).
  - split; [reflexivity |]. intros k Hk. lia.
  - intros i ue Hi (Hlen & Hval).
    repeat (rewrite GVec_get_elt by lia). mstep.
    rewrite (GVec_set_Ok ue) by lia. mstep.
    rewrite GVec_set_Ok by (rewrite length_insert; lia).
    eexists. split; [reflexivity |]. split.
    + rewrite !length_insert. exact Hlen.
    + intros k Hk. destruct (decide (k = i)) as [-> | Hne].
      * split.
        -- rewrite list_lookup_insert_ne by lia.
           apply list_lookup_insert_eq. lia.
        -- apply list_lookup_insert_eq. rewrite length_insert. lia.
      * destruct (Hval k) as [H0 H1]; [lia |].
        rewrite !list_lookup_insert_ne by lia. split; assumption.
  - rewrite Ee. mstep. eexists. split; [reflexivity |]. simpl.
    split; [exact Hlen |]. intros i Hi. apply Hval. lia.
Qed.

(** C2 (the code departs from the specification).  An addition-pooling layer with one
    output whose error is [1], fed by an upstream layer whose activation is
    [2; 3]: [backPropError] stores [1 + 3] and [1 + 2] in the upstream error,
    not the error [1] itself, so the upstream activation does change what is
    propagated. *)
Theorem GLayerAdditionPooling_backPropError_adds_activation :
  GLayerAdditionPooling.backPropError
    addpool_2 (mkUpStream 2 [2; 3]%float [0; 0]%float)
  = Ok (mkUpStream 2 [2; 3]%float [4; 3]%float) /\
  GLayerAdditionPooling.backPropError
    addpool_2 (mkUpStream 2 [20; 30]%float [0; 0]%float)
  = Ok (mkUpStream 2 [20; 30]%float [31; 21]%float) /\
  GLayerAdditionPooling.error addpool_2 = Ok [1]%float.
Proof. repeat split; vm_compute; reflexivity. Qed.

(** ** GLayerMaxOut and the C library's random numbers *)

(** C3 (the code departs from the specification).  [GLayerMaxOut::feedForward] draws
    from the C library's [rand()], not from a generator handed to it: the
    same layer fed the same input gives activation [2] with winner 1 when the
    hidden state of [rand()] is 1, and activation [1] with winner 0 when it
    is 14 (the sample generator of the C standard). *)
Theorem GLayerMaxOut_feedForward_depends_on_hidden_rand :
  exists L1 L2 st1 st2,
    GLayerMaxOut.feedForward iso_c_rand maxout_2x1 [1; 2]%float 1 = Ok (L1, st1) /\
    GLayerMaxOut.feedForward iso_c_rand maxout_2x1 [1; 2]%float 14 = Ok (L2, st2) /\
    GLayerMaxOut.activation L1 = Ok [2]%float /\
    GLayerMaxOut.m_winners L1 = [1] /\
    GLayerMaxOut.activation L2 = Ok [1]%float /\
    GLayerMaxOut.m_winners L2 = [0].
Proof.
  do 4 eexists.
  split; [vm_compute; reflexivity |].
  split; [vm_compute; reflexivity |].
  repeat split.
Qed.

(** ** GLayerConvolutional1D *)

(** C6 (the code departs from the specification).  For the layer of
    [GLayerConvolutional1D(10, 1, 3, 1)] (one kernel of width 3),
    [countWeights()] is [(1 + 1) * 3 = 6], not [1 * 3 + 1 = 4];
    [weightsToVector] writes 4 doubles (the bias, then the kernel), leaves
    the rest of the buffer as it was, and returns 6. *)
Theorem GLayerConvolutional1D_countWeights_miscounts :
  let L := conv1d_10_1_3_1 1 2 3 0.5 (GMatrix_resize 0 2 8) in
  GLayerConvolutional1D.countWeights L = 6 /\
  GMatrix_rows (GLayerConvolutional1D.m_kernels L)
  * GMatrix_cols (GLayerConvolutional1D.m_kernels L)
  + GMatrix_rows (GLayerConvolutional1D.m_kernels L) = 4 /\
  GLayerConvolutional1D.weightsToVector L (replicate 6 9%float)
  = Ok ([0.5; 1; 2; 3; 9; 9]%float, 6) /\
  GLayerConvolutional1D.weightsToVector L (replicate 4 9%float)
  = Ok ([0.5; 1; 2; 3]%float, 6).
Proof. cbv zeta. repeat split; vm_compute; reflexivity. Qed.

(** ** GMaxPooling2D *)

(** C7 (the code departs from the specification).  On the 4x4 input of the scenario
    with region size 2, [feedForward] yields [2; 6; 10; 14]: every row of a
    block is scanned from [yStart], so only the first row of a block is
    read.  [backPropError], with the errors [1; 2; 3; 4], writes each error at
    the maximum of the first row of its block (indexes 1, 3, 9 and 11, not 5,
    7, 13 and 15) and never writes the second row of a block (the 9s of the
    upstream error buffer stay). *)
Theorem GMaxPooling2D_scans_first_row_only :
  (exists L, GMaxPooling2D.feedForward maxpool_4x4 input_4x4 = Ok L /\
             GMaxPooling2D.activation L = Ok [2; 6; 10; 14]%float) /\
  GMaxPooling2D.error maxpool_4x4 = Ok [1; 2; 3; 4]%float /\
  GMaxPooling2D.backPropError
    maxpool_4x4 (mkUpStream 16 input_4x4 (replicate 16 9%float))
  = Ok (mkUpStream 16 input_4x4
          [0; 1; 0; 2; 9; 9; 9; 9; 0; 3; 0; 4; 9; 9; 9; 9]%float).
Proof.
  split; [eexists; split; vm_compute; reflexivity |].
  split; vm_compute; reflexivity.
Qed.

(** The buffer invariant holds after the constructors and [resize] of
    GLayerLinear, and after its deserializing constructor. *)
Lemma GMatrix_resize_2_buffers (junk : double) (out : Z) :
  0 <= out ->
  buffers_match (GMatrix_row (GMatrix_resize junk 2 out) 0)
                (GMatrix_row (GMatrix_resize junk 2 out) 1) out.
Proof.
  intros Hout. unfold buffers_match, GMatrix_resize, GMatrix_row, GVec_size.
  change (Z.to_nat 2) with 2%nat. cbn [replicate m_rows].
  do 2 eexists. split; [reflexivity |]. split; [reflexivity |].
  rewrite length_replicate. lia.
Qed.

Lemma GLayerLinear_resize_buffers (junk : double) (L : GLayerLinear.t)
      (in_ out : Z) :
  0 <= out ->
  buffers_match (GLayerLinear.activation L) (GLayerLinear.error L)
                (GLayerLinear.outputs L) ->
  let L' := GLayerLinear.resize junk L in_ out in
  buffers_match (GLayerLinear.activation L') (GLayerLinear.error L')
                (GLayerLinear.outputs L').
Proof.
  intros Hout HL. cbv zeta. unfold GLayerLinear.resize.
  destruct ((in_ =? GLayerLinear.inputs L) && (out =? GLayerLinear.outputs L));
    [exact HL |].
  apply GMatrix_resize_2_buffers. exact Hout.
Qed.

Lemma GLayerLinear_new_buffers (junk : double) (in_ out : Z) :
  0 <= in_ < size_modulus - 1 -> 0 <= out ->
  let L := GLayerLinear.new junk in_ out in
  GLayerLinear.outputs L = out /\
  buffers_match (GLayerLinear.activation L) (GLayerLinear.error L)
                (GLayerLinear.outputs L).
Proof.
  intros Hin Hout. cbv zeta. unfold GLayerLinear.new, GLayerLinear.resize.
  change (GLayerLinear.inputs GLayerLinear.init) with (size_modulus - 1).
  replace (in_ =? size_modulus - 1) with false by (symmetry; apply Z.eqb_neq; lia).
  cbn [andb]. split; [reflexivity |].
  apply GMatrix_resize_2_buffers. exact Hout.
Qed.

Lemma GLayerLinear_new_from_dom_buffers (junk : double) (pNode : GDomNode)
      (L : GLayerLinear.t) :
  GLayerLinear.new_from_dom junk pNode = Ok L ->
  0 <= GLayerLinear.outputs L ->
  buffers_match (GLayerLinear.activation L) (GLayerLinear.error L)
                (GLayerLinear.outputs L).
Proof.
  unfold GLayerLinear.new_from_dom. intros E Hout.
  destruct (GDomNode_field pNode "weights") as [w |]; [| discriminate E].
  cbn [mbind result_bind bind] in E.
  destruct (GMatrix_deserialize w) as [weights |]; [| discriminate E].
  cbn [mbind result_bind bind] in E. injection E as <-.
  apply GMatrix_resize_2_buffers. exact Hout.
Qed.

(** C10 (the code departs from the specification).  The deserializing constructor
    of GMaxPooling2D, given the document [serialize] writes for a layer over
    a 4x4 input with region size 2, builds a layer with [outputs() = 4]
    whose activation matrix is empty: there is no activation row and no error
    row to read.  [GNeuralNetLayer::deserialize] rejects the same document. *)
Theorem GMaxPooling2D_new_from_dom_has_no_buffers :
  GMaxPooling2D.serialize maxpool_4x4 = Ok maxpool_4x4_document /\
  exists L,
    GMaxPooling2D.new_from_dom maxpool_4x4_document = Ok L /\
    GMaxPooling2D.outputs L = Ok 4 /\
    GMaxPooling2D.m_activation L = GMatrix_empty /\
    GMaxPooling2D.activation L = Raise Undefined /\
    GMaxPooling2D.error L = Raise Undefined /\
    ~ buffers_match (GMaxPooling2D.activation L) (GMaxPooling2D.error L) 4 /\
    deserialize 0%float maxpool_4x4_document
    = Raise (Ex "Unrecognized neural network layer type: 19").
Proof.
  split; [vm_compute; reflexivity |].
  eexists. split; [vm_compute; reflexivity |].
  split; [vm_compute; reflexivity |].
  split; [reflexivity |].
  split; [reflexivity |].
  split; [reflexivity |].
  split; [| vm_compute; reflexivity].
  intros (a & e & Ea & _). discriminate Ea.
Qed.

(** C8. [GLayerConvolutional1D(10, 1, 3, 1)] builds a layer with
    [outputs() = 8]; once its kernel is [w0 w1 w2] and its bias [b],
    [feedForward] of any 10 input values leaves in [activation()[0]] the dot
    product of the kernel with the first 3 input values plus the bias. *)
Theorem GLayerConvolutional1D_scenario
        (junk w0 w1 w2 b : double) (input : GVec) :
  length input = 10%nat ->
  exists L0 L' a d,
    GLayerConvolutional1D.new junk 10 1 3 1 = Ok L0 /\
    GLayerConvolutional1D.outputs L0 = 8 /\
    GLayerConvolutional1D.feedForward
      (GLayerConvolutional1D.set_weights L0 (mkGMatrix [[w0; w1; w2]] 3) [b])
      input = Ok L' /\
    GLayerConvolutional1D.outputs L' = 8 /\
    GLayerConvolutional1D.activation L' = Ok a /\
    GVec_size a = 8 /\
    GVec_dotProduct [w0; w1; w2] (take 3 input) = Ok d /\
    a !! 0%nat = Some (d + b)%float.
Proof.
  intros Hlen.
  do 10 (destruct input as [|? input]; [discriminate Hlen |]).
  destruct input; [| discriminate Hlen].
  do 4 eexists.
  split; [vm_compute; reflexivity |].
  split; [vm_compute; reflexivity |].
  split; [vm_compute; reflexivity |].
  split; [vm_compute; reflexivity |].
  split; [vm_compute; reflexivity |].
  split; [vm_compute; reflexivity |].
  split; [vm_compute; reflexivity |].
  (* the code adds the dot product to the bias already in the buffer *)
  rewrite float_add_comm. vm_compute. reflexivity.
Qed.

Lemma GLayerConvolutional1D_scenario_witness :
  exists L',
    GLayerConvolutional1D.feedForward
      (conv1d_10_1_3_1 1 2 3 0.5 (GMatrix_resize 0 2 8))
      [1; 2; 3; 4; 5; 6; 7; 8; 9; 10]%float = Ok L' /\
    exists a, GLayerConvolutional1D.activation L' = Ok a /\
              a !! 0%nat = Some ((0 + 1 * 1 + 2 * 2 + 3 * 3) + 0.5)%float.
Proof.
  destruct (GLayerConvolutional1D_scenario
              0 1 2 3 0.5 [1; 2; 3; 4; 5; 6; 7; 8; 9; 10]%float)
    as (L0 & L' & a & d & E0 & _ & Eff & _ & Ea & _ & Ed & Ha).
  - reflexivity.
  - vm_compute in E0. injection E0 as <-.
    vm_compute in Ed. injection Ed as <-.
    exists L'. split; [exact Eff |]. exists a. split; [exact Ea | exact Ha].
Defined.

(** ** GLayerLogistic *)




(** ** Weight buffers *)

Lemma store_Ok (buf : list double) (off : nat) (data : list double) :
  (off + length data <= length buf)%nat ->
  store buf off data
  = Ok (take off buf ++ data ++ drop (off + length data) buf).
Proof. intros H. unfold store. rewrite decide_True by exact H. reflexivity. Qed.

Lemma store_length (buf buf' : list double) (off : nat) (data : list double) :
  store buf off data = Ok buf' -> length buf' = length buf.
Proof.
  unfold store. destruct (decide _) as [H | H]; [| discriminate].
  intros E. injection E as <-.
  rewrite !length_app, length_take, length_drop. lia.
Qed.

(** Reading back what was stored. *)
Lemma load_store (buf buf' : list double) (off : nat) (data : list double) :
  store buf off data = Ok buf' -> load buf' off (length data) = Ok data.
Proof.
  intros E. pose proof (store_length _ _ _ _ E) as Hlen.
  unfold store in E. destruct (decide _) as [H | H]; [| discriminate].
  injection E as <-.
  unfold load. rewrite decide_True by lia. f_equal.
  rewrite drop_app_length' by (rewrite length_take; lia).
  rewrite take_app_length. reflexivity.
Qed.

(** A store leaves what lies before it. *)
Lemma load_store_before (buf buf' : list double) (off off' n : nat)
      (data : list double) :
  store buf off data = Ok buf' -> (off' + n <= off)%nat ->
  load buf' off' n = load buf off' n.
Proof.
  intros E Hb. pose proof (store_length _ _ _ _ E) as Hlen.
  unfold store in E. destruct (decide _) as [H | H]; [| discriminate].
  injection E as <-.
  unfold load. rewrite Hlen.
  destruct (decide (off' + n <= length buf)%nat) as [H' | H']; [| reflexivity].
  f_equal. rewrite drop_app_le by (rewrite length_take; lia).
  rewrite take_app_le by (rewrite length_drop, length_take; lia).
  rewrite take_drop_commute, take_take.
  replace ((off' + n) `min` off)%nat with (off' + n)%nat by lia.
  rewrite <- take_drop_commute. reflexivity.
Qed.

Lemma load_all (v : list double) : load v 0 (length v) = Ok v.
Proof.
  unfold load. rewrite decide_True by (simpl; lia).
  rewrite drop_0, firstn_all. reflexivity.
Qed.

Lemma store_same (v : list double) : store v 0 v = Ok v.
Proof.
  rewrite store_Ok by (simpl; lia). simpl.
  rewrite drop_all, app_nil_r. reflexivity.
Qed.

Lemma concat_length_uniform (rows : list (list double)) (n : nat) :
  Forall (fun r => length r = n) rows ->
  length (concat rows) = (length rows * n)%nat.
Proof.
  induction 1 as [|r rows Hr _ IH]; simpl; [reflexivity |].
  rewrite length_app, IH, Hr. reflexivity.
Qed.

Lemma chunks_concat (rows : list (list double)) (n : nat) :
  Forall (fun r => length r = n) rows ->
  chunks n (length rows) (concat rows) = rows.
Proof.
  induction 1 as [|r rows Hr _ IH]; simpl; [reflexivity |].
  rewrite take_app_length' by (symmetry; exact Hr).
  rewrite drop_app_length' by (symmetry; exact Hr).
  rewrite IH. reflexivity.
Qed.

Lemma GMatrix_wf_nat (m : GMatrix) :
  GMatrix_wf m ->
  Forall (fun r => length r = Z.to_nat (m_cols m)) (m_rows m).
Proof.
  unfold GMatrix_wf. intros H.
  eapply Forall_impl; [exact H |]. intros r Hr. simpl in Hr. lia.
Qed.

(** [fromVector] reads back the matrix that [toVector] wrote. *)
Lemma GMatrix_fromVector_toVector (m : GMatrix) (buf buf' : list double)
      (off : nat) :
  GMatrix_wf m ->
  GMatrix_toVector m buf off = Ok buf' ->
  GMatrix_fromVector m buf' off (GMatrix_rows m) = Ok m.
Proof.
  intros Hwf E. apply GMatrix_wf_nat in Hwf.
  unfold GMatrix_toVector in E. unfold GMatrix_fromVector, GMatrix_rows.
  rewrite Nat2Z.id.
  rewrite <- (concat_length_uniform _ _ Hwf).
  rewrite (load_store _ _ _ _ E). mstep.
  rewrite (chunks_concat _ _ Hwf). destruct m; reflexivity.
Qed.

(** ** Serialized documents *)

Lemma wrap_to_int64 (z : Z) : in_size_t z -> wrap (to_int64 z) = z.
Proof.
  unfold in_size_t, to_int64, wrap, size_modulus. intros H.
  destruct (z <? 2 ^ 63) eqn:E.
  - apply Z.mod_small. lia.
  - apply Z.ltb_ge in E. symmetry.
    apply (Z.mod_unique_pos _ _ (-1) z); lia.
Qed.

Lemma asSize_newInt (z : Z) :
  in_size_t z -> GDomNode_asSize (DomInt (to_int64 z)) = Ok z.
Proof.
  intros H. unfold GDomNode_asSize.
  rewrite wrap_to_int64 by exact H. reflexivity.
Qed.

Lemma GVec_deserialize_serialize (v : GVec) :
  GVec_deserialize (GVec_serialize v) = Ok v.
Proof.
  unfold GVec_deserialize, GVec_serialize.
  induction v as [|x v IH]; simpl; [reflexivity |].
  rewrite IH. reflexivity.
Qed.

Lemma mapM_GVec_deserialize (rows : list GVec) :
  mapM GVec_deserialize (map GVec_serialize rows) = Ok rows.
Proof.
  induction rows as [|r rows IH]; cbn [map mapM]; [reflexivity |].
  rewrite GVec_deserialize_serialize. mstep. rewrite IH. reflexivity.
Qed.

Lemma GDomNode_field_Ok (fields : list (string * GDomNode)) (name : string)
      (v : GDomNode) :
  assoc fields name = Some v -> GDomNode_field (DomObj fields) name = Ok v.
Proof. intros H. unfold GDomNode_field. rewrite H. reflexivity. Qed.

(** Look the fields up in a document whose field names are literals. *)
Ltac read_field :=
  unfold baseDomNode, GDom_newObj, GDom_newInt, GDom_newBool;
  cbn [GDomNode_addField app];
  repeat (erewrite GDomNode_field_Ok by reflexivity); mstep.

Lemma GMatrix_deserialize_serialize (m : GMatrix) :
  in_size_t (m_cols m) -> GMatrix_deserialize (GMatrix_serialize m) = Ok m.
Proof.
  intros H. unfold GMatrix_deserialize, GMatrix_serialize.
  read_field. rewrite asSize_newInt by exact H. mstep.
  rewrite mapM_GVec_deserialize. mstep.
  destruct m; reflexivity.
Qed.

Lemma GMatrix_fromVector_of_load (m : GMatrix) (buf : list double) (off : nat) :
  GMatrix_wf m ->
  load buf off (length (concat (m_rows m))) = Ok (concat (m_rows m)) ->
  GMatrix_fromVector m buf off (GMatrix_rows m) = Ok m.
Proof.
  intros Hwf E. apply GMatrix_wf_nat in Hwf.
  unfold GMatrix_fromVector, GMatrix_rows. rewrite Nat2Z.id.
  rewrite <- (concat_length_uniform _ _ Hwf), E. mstep.
  rewrite (chunks_concat _ _ Hwf). destruct m; reflexivity.
Qed.

Lemma GMatrix_stored_length (m : GMatrix) :
  GMatrix_wf m ->
  Z.of_nat (length (concat (m_rows m))) = GMatrix_rows m * m_cols m.
Proof.
  intros Hwf. unfold GMatrix_rows.
  destruct (m_rows m) as [|r rows] eqn:E; [reflexivity |].
  assert (Hc : 0 <= m_cols m).
  { apply GMatrix_wf_cols_nonneg; [exact Hwf |].
    unfold GMatrix_rows. rewrite E. simpl. lia. }
  rewrite <- E. apply GMatrix_wf_nat in Hwf.
  rewrite (concat_length_uniform _ _ Hwf). lia.
Qed.

(** ** Round trips of the weights, layer kind by layer kind *)

Lemma GLayerLinear_vector_round_trip (L : GLayerLinear.t) (buf : list double) :
  GLayerLinear.wf L ->
  stored_weights (PLinear L) <= Z.of_nat (length buf) ->
  exists buf' n,
    GLayerLinear.weightsToVector L buf = Ok (buf', n) /\
    GLayerLinear.vectorToWeights L buf' = Ok (L, n).
Proof.
  intros Hwf Hroom.
  pose proof (GLayerLinear_wf_inputs L Hwf) as Hinputs.
  destruct Hwf as (Hw & _ & H1 & Hfit & _).
  pose proof (GMatrix_wf_cols_nonneg _ Hw H1) as Hc.
  pose proof (GMatrix_stored_length _ Hw) as Hlen.
  cbn [stored_weights] in Hroom.
  unfold GLayerLinear.weightsToVector, GLayerLinear.vectorToWeights.
  assert (E : exists buf', GMatrix_toVector (GLayerLinear.m_weights L) buf 0 = Ok buf').
  { unfold GMatrix_toVector. rewrite store_Ok by lia. eexists. reflexivity. }
  destruct E as [buf' E]. rewrite E. mstep.
  exists buf'. eexists. split; [reflexivity |].
  rewrite Hinputs.
  replace (wrap (GMatrix_rows (GLayerLinear.m_weights L) - 1 + 1))
    with (GMatrix_rows (GLayerLinear.m_weights L))
    by (rewrite wrap_small by nia; lia).
  rewrite (GMatrix_fromVector_toVector _ _ _ _ Hw E). mstep.
  destruct L; reflexivity.
Qed.

Lemma GLayerConvolutional1D_vector_round_trip
      (L : GLayerConvolutional1D.t) (buf : list double) :
  shaped (PConvolutional1D L) ->
  stored_weights (PConvolutional1D L) <= Z.of_nat (length buf) ->
  exists buf' n,
    GLayerConvolutional1D.weightsToVector L buf = Ok (buf', n) /\
    GLayerConvolutional1D.vectorToWeights L buf' = Ok (L, n).
Proof.
  intros (_ & _ & _ & _ & Hk & Hkc & _ & Hb) Hroom.
  pose proof (GMatrix_stored_length _ Hk) as Hlen.
  cbn [stored_weights] in Hroom.
  unfold GLayerConvolutional1D.weightsToVector,
    GLayerConvolutional1D.vectorToWeights, GLayerConvolutional1D.bias.
  unfold GVec_size in Hb. destruct Hkc as [Hkc _].
  set (K := GLayerConvolutional1D.m_kernels L) in *.
  set (b := GLayerConvolutional1D.m_bias L) in *.
  rewrite <- Hb, Nat2Z.id. rewrite load_all. mstep.
  assert (E1 : exists buf1, store buf 0 b = Ok buf1).
  { rewrite store_Ok by (simpl; nia). eexists. reflexivity. }
  destruct E1 as [buf1 E1]. rewrite E1. mstep.
  pose proof (store_length _ _ _ _ E1) as Hlen1.
  assert (E2 : exists buf2, GMatrix_toVector K buf1 (length b) = Ok buf2).
  { unfold GMatrix_toVector. rewrite store_Ok by nia. eexists. reflexivity. }
  destruct E2 as [buf2 E2]. rewrite E2. mstep.
  exists buf2. eexists. split; [reflexivity |].
  rewrite (load_store_before buf1 buf2 (length b) 0 (length b) _ E2) by lia.
  rewrite (load_store _ _ _ _ E1). mstep.
  rewrite store_same. mstep.
  rewrite Hb.
  rewrite (GMatrix_fromVector_toVector K buf1 buf2 _ Hk).
  - mstep. destruct L; reflexivity.
  - exact E2.
Qed.

Lemma GMatrix_set_row_same (m : GMatrix) (i : nat) (r : GVec) :
  m_rows m !! i = Some r -> GMatrix_set_row m i r = Ok m.
Proof.
  intros H. unfold GMatrix_set_row.
  rewrite decide_True by (eapply lookup_lt_Some; exact H).
  rewrite list_insert_id by exact H. destruct m; reflexivity.
Qed.

Lemma GLayerMaxOut_vector_round_trip (L : GLayerMaxOut.t) (buf : list double) :
  shaped (PMaxOut L) ->
  stored_weights (PMaxOut L) <= Z.of_nat (length buf) ->
  exists buf' n,
    GLayerMaxOut.weightsToVector L buf = Ok (buf', n) /\
    GLayerMaxOut.vectorToWeights L buf' = Ok (L, n).
Proof.
  intros (Hw & Hbw & Hb1 & Hbc) Hroom.
  pose proof (GMatrix_stored_length _ Hw) as Hlen.
  cbn [stored_weights] in Hroom.
  unfold GLayerMaxOut.weightsToVector, GLayerMaxOut.vectorToWeights,
    GLayerMaxOut.bias, GLayerMaxOut.inputs, GLayerMaxOut.outputs.
  set (W := GLayerMaxOut.m_weights L) in *.
  set (B := GLayerMaxOut.m_bias L) in *.
  assert (Hb : exists b, m_rows B !! 0%nat = Some b).
  { apply lookup_lt_is_Some_2. unfold GMatrix_rows in Hb1. lia. }
  destruct Hb as [b Hb].
  pose proof (GMatrix_wf_row B _ _ Hbw Hb) as Hblen. rewrite Hbc in Hblen.
  rewrite (GMatrix_row_lookup B 0 b Hb). mstep.
  rewrite <- Hblen, Nat2Z.id in *. rewrite load_all. mstep.
  assert (E1 : exists buf1, store buf 0 b = Ok buf1).
  { rewrite store_Ok by (simpl; nia). eexists. reflexivity. }
  destruct E1 as [buf1 E1]. rewrite E1. mstep.
  pose proof (store_length _ _ _ _ E1) as Hlen1.
  assert (E2 : exists buf2, GMatrix_toVector W buf1 (length b) = Ok buf2).
  { unfold GMatrix_toVector. rewrite store_Ok by nia. eexists. reflexivity. }
  destruct E2 as [buf2 E2]. rewrite E2. mstep.
  exists buf2. eexists. split; [reflexivity |].
  rewrite (load_store_before buf1 buf2 (length b) 0 (length b) _ E2) by lia.
  rewrite (load_store _ _ _ _ E1). mstep.
  rewrite (GMatrix_set_row_same B 0 b Hb). mstep.
  rewrite Hblen.
  rewrite (GMatrix_fromVector_toVector W buf1 buf2 _ Hw E2). mstep.
  destruct L; reflexivity.
Qed.

Lemma GLayerConvolutional2D_vector_round_trip
      (L : GLayerConvolutional2D.t) (buf : list double) :
  shaped (PConvolutional2D L) ->
  stored_weights (PConvolutional2D L) <= Z.of_nat (length buf) ->
  exists buf' n,
    GLayerConvolutional2D.weightsToVector L buf = Ok (buf', n) /\
    GLayerConvolutional2D.vectorToWeights L buf' = Ok (L, n).
Proof.
  intros (_ & _ & _ & _ & _ & Hk & Hkc & Hfit & Hb) Hroom.
  pose proof (GMatrix_stored_length _ Hk) as Hlen.
  cbn [stored_weights] in Hroom.
  unfold GLayerConvolutional2D.weightsToVector,
    GLayerConvolutional2D.vectorToWeights, GMatrix_cols.
  unfold GVec_size in Hb. destruct Hkc as [Hkc _].
  set (K := GLayerConvolutional2D.m_kernels L) in *.
  set (b := GLayerConvolutional2D.m_bias L) in *.
  assert (E1 : exists buf1, GMatrix_toVector K buf 0 = Ok buf1).
  { unfold GMatrix_toVector. rewrite store_Ok by nia. eexists. reflexivity. }
  destruct E1 as [buf1 E1]. rewrite E1. mstep.
  assert (Hlen1 : length buf1 = length buf).
  { unfold GMatrix_toVector in E1. exact (store_length _ _ _ _ E1). }
  rewrite (wrap_small _ Hfit).
  assert (E2 : exists buf2,
             store buf1 (Z.to_nat (GMatrix_rows K * m_cols K)) b = Ok buf2).
  { rewrite store_Ok by nia. eexists. reflexivity. }
  destruct E2 as [buf2 E2]. rewrite E2. mstep.
  exists buf2. eexists. split; [reflexivity |].
  assert (E3 : GMatrix_fromVector K buf2 0 (GMatrix_rows K) = Ok K).
  { apply GMatrix_fromVector_of_load; [exact Hk |].
    rewrite (load_store_before buf1 buf2 _ 0 _ _ E2) by lia.
    unfold GMatrix_toVector in E1. exact (load_store _ _ _ _ E1). }
  rewrite E3. mstep.
  rewrite (wrap_small _ Hfit).
  replace (Z.to_nat (GMatrix_rows K)) with (length b) by lia.
  rewrite (load_store _ _ _ _ E2). mstep.
  rewrite store_same. mstep.
  destruct L; reflexivity.
Qed.

Lemma GLayerLinear_dom_round_trip (junk : double) (L : GLayerLinear.t) :
  GLayerLinear.wf L -> reproduces junk (Linear L).
Proof.
  intros (Hw & _ & H1 & Hfit & _).
  pose proof (GMatrix_wf_cols_nonneg _ Hw H1) as Hc.
  assert (Hcols : in_size_t (m_cols (GLayerLinear.m_weights L))).
  { unfold in_size_t. nia. }
  unfold reproduces. cbn [serialize]. unfold GLayerLinear.serialize.
  eexists. eexists. split; [reflexivity |].
  unfold deserialize. read_field.
  cbn [GDomNode_asInt]. mstep.
  change (LayerType_of_int (to_int64 (LayerType_to_int layer_linear)))
    with (Some layer_linear). cbv iota.
  unfold GLayerLinear.new_from_dom. read_field.
  rewrite (GMatrix_deserialize_serialize _ Hcols). mstep.
  split; [reflexivity |]. repeat split.
Qed.

Lemma GLayerRestrictedBoltzmannMachine_dom_round_trip
      (junk : double) (L : GLayerRestrictedBoltzmannMachine.t) :
  shaped (PRestrictedBoltzmannMachine L) ->
  reproduces junk (RestrictedBoltzmannMachine L).
Proof.
  intros (Hcols & Hb1 & Hr1).
  unfold reproduces. cbn [serialize weight_values inputs outputs].
  unfold GLayerRestrictedBoltzmannMachine.serialize,
    GLayerRestrictedBoltzmannMachine.bias,
    GLayerRestrictedBoltzmannMachine.biasReverse.
  set (W := GLayerRestrictedBoltzmannMachine.m_weights L) in *.
  assert (Hb : exists b, m_rows (GLayerRestrictedBoltzmannMachine.m_bias L) !! 0%nat
                         = Some b).
  { apply lookup_lt_is_Some_2. unfold GMatrix_rows in Hb1. lia. }
  assert (Hr : exists br,
             m_rows (GLayerRestrictedBoltzmannMachine.m_biasReverse L) !! 0%nat
             = Some br).
  { apply lookup_lt_is_Some_2. unfold GMatrix_rows in Hr1. lia. }
  destruct Hb as [b Hb]. destruct Hr as [br Hr].
  rewrite (GMatrix_row_lookup _ 0 b Hb), (GMatrix_row_lookup _ 0 br Hr). mstep.
  eexists. eexists. split; [reflexivity |].
  unfold deserialize. read_field.
  cbn [GDomNode_asInt]. mstep.
  change (LayerType_of_int
            (to_int64 (LayerType_to_int layer_restrictedboltzmannmachine)))
    with (Some layer_restrictedboltzmannmachine). cbv iota.
  unfold GLayerRestrictedBoltzmannMachine.new_from_dom. read_field.
  rewrite (GMatrix_deserialize_serialize _ Hcols). mstep.
  rewrite !GVec_deserialize_serialize. mstep.
  unfold GMatrix_set_row, GMatrix_resize.
  change (Z.to_nat 3) with 3%nat. cbn [replicate m_rows length].
  rewrite !decide_True by lia. mstep.
  split; [reflexivity |]. repeat split.
Qed.

Lemma GLayerConvolutional1D_dom_round_trip
      (junk : double) (L : GLayerConvolutional1D.t) :
  shaped (PConvolutional1D L) ->
  exists node,
    serialize (Convolutional1D L) = Ok node /\
    deserialize junk node = Ok (Convolutional1D L).
Proof.
  intros (H1 & H2 & H3 & H4 & Hk & Hkc & Hac & Hb).
  cbn [serialize]. unfold GLayerConvolutional1D.serialize. cbv zeta.
  eexists. split; [reflexivity |].
  unfold deserialize. read_field.
  cbn [GDomNode_asInt]. mstep.
  change (LayerType_of_int (to_int64 (LayerType_to_int layer_convolutional1d)))
    with (Some layer_convolutional1d). cbv iota.
  unfold GLayerConvolutional1D.new_from_dom. read_field.
  rewrite !asSize_newInt by assumption. mstep.
  rewrite !GMatrix_deserialize_serialize by assumption. mstep.
  rewrite GVec_deserialize_serialize. mstep.
  destruct L; reflexivity.
Qed.

Lemma GLayerConvolutional2D_dom_round_trip
      (junk : double) (L : GLayerConvolutional2D.t) :
  shaped (PConvolutional2D L) -> reproduces junk (Convolutional2D L).
Proof.
  intros (H1 & H2 & H3 & H4 & H5 & Hk & Hkc & Hfit & Hb).
  unfold reproduces. cbn [serialize].
  unfold GLayerConvolutional2D.serialize. cbv zeta.
  eexists. eexists. split; [reflexivity |].
  unfold deserialize. read_field.
  cbn [GDomNode_asInt]. mstep.
  change (LayerType_of_int (to_int64 (LayerType_to_int layer_convolutional2d)))
    with (Some layer_convolutional2d). cbv iota.
  unfold GLayerConvolutional2D.new_from_dom. read_field.
  rewrite (asSize_newInt _ H1), (asSize_newInt _ H2), (asSize_newInt _ H3),
    (asSize_newInt _ H4), (asSize_newInt _ H5).
  cbn [GDomNode_asSize GDomNode_asBool]. mstep.
  rewrite GVec_deserialize_serialize. mstep.
  rewrite (GMatrix_deserialize_serialize _ Hkc). mstep.
  split; [reflexivity |]. repeat split.
Qed.

Lemma GLayerMaxOut_serialize_raises (L : GLayerMaxOut.t) :
  serialize (MaxOut L) = Raise (Ex "Sorry, not implemented yet").
Proof. reflexivity. Qed.

(** C4, as the code has it.  For a shaped layer of a kind with weights and a
    buffer with room for its weights: unless the layer is a restricted
    Boltzmann machine, [vectorToWeights] of what [weightsToVector] wrote
    leaves the layer identical (and both return the same count); unless the
    layer is a maxout layer, [deserialize(serialize(layer))] succeeds with a
    layer that has the same [inputs()], [outputs()] and weight values; the
    [serialize] of a maxout layer throws "Sorry, not implemented yet". *)
Theorem parameterized_layer_round_trips
        (junk : double) (P : GParameterizedLayer) (buf : list double) :
  shaped P ->
  stored_weights P <= Z.of_nat (length buf) ->
  (is_rbm P = false ->
   exists buf' n,
     weightsToVector P buf = Ok (buf', n) /\
     vectorToWeights P buf' = Ok (P, n)) /\
  (is_maxout P = false ->
   exists node layer',
     serialize (as_layer P) = Ok node /\
     deserialize junk node = Ok layer' /\
     inputs layer' = inputs (as_layer P) /\
     outputs layer' = outputs (as_layer P) /\
     weight_values layer' = weight_values (as_layer P)) /\
  (is_maxout P = true ->
   serialize (as_layer P) = Raise (Ex "Sorry, not implemented yet")).
Proof.
  intros Hshape Hroom.
  destruct P as [L | L | L | L | L]; cbn [is_rbm is_maxout as_layer].
  - split; [| split]; [intros _ | intros _ | discriminate].
    + destruct (GLayerLinear_vector_round_trip L buf Hshape Hroom)
        as (buf' & n & E1 & E2).
      exists buf', n. cbn [weightsToVector vectorToWeights].
      rewrite E1, E2. split; reflexivity.
    + exact (GLayerLinear_dom_round_trip junk L Hshape).
  - split; [| split]; [intros _ | discriminate | intros _].
    + destruct (GLayerMaxOut_vector_round_trip L buf Hshape Hroom)
        as (buf' & n & E1 & E2).
      exists buf', n. cbn [weightsToVector vectorToWeights].
      rewrite E1, E2. split; reflexivity.
    + apply GLayerMaxOut_serialize_raises.
  - split; [| split]; [discriminate | intros _ | discriminate].
    exact (GLayerRestrictedBoltzmannMachine_dom_round_trip junk L Hshape).
  - split; [| split]; [intros _ | intros _ | discriminate].
    + destruct (GLayerConvolutional1D_vector_round_trip L buf Hshape Hroom)
        as (buf' & n & E1 & E2).
      exists buf', n. cbn [weightsToVector vectorToWeights].
      rewrite E1, E2. split; reflexivity.
    + destruct (GLayerConvolutional1D_dom_round_trip junk L Hshape)
        as (node & E1 & E2).
      exists node, (Convolutional1D L). repeat split; assumption.
  - split; [| split]; [intros _ | intros _ | discriminate].
    + destruct (GLayerConvolutional2D_vector_round_trip L buf Hshape Hroom)
        as (buf' & n & E1 & E2).
      exists buf', n. cbn [weightsToVector vectorToWeights].
      rewrite E1, E2. split; reflexivity.
    + exact (GLayerConvolutional2D_dom_round_trip junk L Hshape).
Qed.

Lemma parameterized_layer_round_trips_witness :
  (exists buf' n,
      weightsToVector (PLinear linear_2x2) (replicate 6 0%float) = Ok (buf', n) /\
      vectorToWeights (PLinear linear_2x2) buf' = Ok (PLinear linear_2x2, n)) /\
  (exists node layer',
      serialize (Linear linear_2x2) = Ok node /\
      deserialize 0%float node = Ok layer' /\
      weight_values layer' = weight_values (Linear linear_2x2)).
Proof.
  destruct (parameterized_layer_round_trips
              0%float (PLinear linear_2x2) (replicate 6 0%float))
    as (Hvec & Hdom & _).
  - cbn [shaped]. unfold GLayerLinear.wf, GMatrix_wf.
    repeat split; try (vm_compute; reflexivity); try (vm_compute; discriminate);
      repeat constructor.
  - vm_compute. discriminate.
  - split; [exact (Hvec eq_refl) |].
    destruct (Hdom eq_refl) as (node & layer' & E1 & E2 & _ & _ & E3).
    exists node, layer'. repeat split; assumption.
Defined.

(** C4 as the specification states it fails for the maxout layer, a layer kind with weights:
    [serialize] throws, so [deserialize(serialize(L))] does not succeed. *)
Lemma GLayerMaxOut_has_no_serialized_form :
  shaped (PMaxOut maxout_2x1) /\
  serialize (as_layer (PMaxOut maxout_2x1))
  = Raise (Ex "Sorry, not implemented yet") /\
  ~ (exists node layer',
        serialize (as_layer (PMaxOut maxout_2x1)) = Ok node /\
        deserialize 0%float node = Ok layer').
Proof.
  split; [| split].
  - cbn [shaped]. unfold GMatrix_wf.
    repeat split; try (vm_compute; reflexivity); try (vm_compute; discriminate);
      repeat constructor.
  - reflexivity.
  - intros (node & layer' & E & _). discriminate E.
Qed.

(** The restricted Boltzmann machine is left out of the first part of C4:
    its [vectorToWeights] hands [inputs()] to [fromVector] as the row count
    of a matrix of [outputs()] rows.  With 2 inputs and 1 output, reading
    back the 3 doubles [weightsToVector] wrote runs past them, and in a
    longer buffer the layer comes back with 2 rows of weights. *)
Lemma GLayerRestrictedBoltzmannMachine_vectorToWeights_row_count :
  GLayerRestrictedBoltzmannMachine.weightsToVector rbm_2x1 (replicate 3 9%float)
  = Ok ([0.5; 1; 2]%float, 3) /\
  GLayerRestrictedBoltzmannMachine.vectorToWeights rbm_2x1 [0.5; 1; 2]%float
  = Raise Undefined /\
  exists L',
    GLayerRestrictedBoltzmannMachine.vectorToWeights
      rbm_2x1 [0.5; 1; 2; 9; 9]%float = Ok (L', 6) /\
    GLayerRestrictedBoltzmannMachine.outputs L' = 2 /\
    GLayerRestrictedBoltzmannMachine.outputs rbm_2x1 = 1.
Proof.
  split; [vm_compute; reflexivity |].
  split; [vm_compute; reflexivity |].
  eexists. split; [vm_compute; reflexivity |].
  split; reflexivity.
Qed.

(** * Further properties of the layers *)

(** ** GLayerLinear: construction *)

Lemma GMatrix_resize_wf (junk : double) (rowCount colCount : Z) :
  0 <= colCount -> GMatrix_wf (GMatrix_resize junk rowCount colCount).
Proof.
  intros H. unfold GMatrix_wf, GMatrix_resize. cbn [m_rows m_cols].
  apply Forall_replicate. rewrite length_replicate. lia.
Qed.

Lemma GMatrix_resize_rows (junk : double) (rowCount colCount : Z) :
  0 <= rowCount -> GMatrix_rows (GMatrix_resize junk rowCount colCount) = rowCount.
Proof.
  intros H. unfold GMatrix_rows, GMatrix_resize. cbn [m_rows].
  rewrite length_replicate. lia.
Qed.

(** X1. [GLayerLinear(in, out)] builds a layer with [inputs() = in],
    [outputs() = out] and [countWeights() = (in + 1) * out], whose weight
    matrix is [(in + 1) x out] and whose activation and error buffers have
    [out] elements. *)
Theorem GLayerLinear_new_shape (junk : double) (in_ out : Z) :
  0 <= in_ -> 0 <= out -> (in_ + 1) * (out + 1) < size_modulus ->
  let L := GLayerLinear.new junk in_ out in
  GLayerLinear.inputs L = in_ /\
  GLayerLinear.outputs L = out /\
  GLayerLinear.countWeights L = (in_ + 1) * out /\
  GLayerLinear.wf L /\
  buffers_match (GLayerLinear.activation L) (GLayerLinear.error L) out.
Proof.
  intros Hin Hout Hfit. cbv zeta.
  assert (Hin' : in_ < size_modulus - 1) by nia.
  unfold GLayerLinear.new, GLayerLinear.resize.
  change (GLayerLinear.inputs GLayerLinear.init) with (size_modulus - 1).
  replace (in_ =? size_modulus - 1) with false by (symmetry; apply Z.eqb_neq; lia).
  cbn [andb].
  assert (Hw : wrap (in_ + 1) = in_ + 1) by (apply wrap_small; lia).
  rewrite Hw.
  assert (Hi : GLayerLinear.inputs
                 (GLayerLinear.mk (GMatrix_resize junk (in_ + 1) out)
                                  (GMatrix_resize junk 2 out)) = in_).
  { unfold GLayerLinear.inputs. cbn [GLayerLinear.m_weights].
    rewrite GMatrix_resize_rows by lia.
    replace (in_ + 1 - 1) with in_ by lia. apply wrap_small. lia. }
  split; [exact Hi |]. split; [reflexivity |]. split.
  { unfold GLayerLinear.countWeights. rewrite Hi, Hw.
    apply wrap_small. unfold GLayerLinear.outputs, GMatrix_cols. simpl. nia. }
  split.
  { unfold GLayerLinear.wf. cbn [GLayerLinear.m_weights GLayerLinear.m_activation].
    rewrite !GMatrix_resize_rows by lia.
    repeat split; try (apply GMatrix_resize_wf; lia); simpl; lia. }
  apply GMatrix_resize_2_buffers. exact Hout.
Qed.

Lemma GLayerLinear_new_shape_witness :
  GLayerLinear.inputs (GLayerLinear.new 0%float 4 3) = 4 /\
  GLayerLinear.outputs (GLayerLinear.new 0%float 4 3) = 3 /\
  GLayerLinear.countWeights (GLayerLinear.new 0%float 4 3) = 15.
Proof.
  destruct (GLayerLinear_new_shape 0%float 4 3) as (H1 & H2 & H3 & _).
  - lia.
  - lia.
  - vm_compute. reflexivity.
  - split; [exact H1 |]. split; [exact H2 | exact H3].
Defined.

(** ** GLayerLinear: applyDeltas *)

Lemma flat_index_inj (n i j i' j' : nat) :
  (j < n)%nat -> (j' < n)%nat -> (i * n + j = i' * n + j')%nat ->
  i = i' /\ j = j'.
Proof.
  intros Hj Hj' E.
  destruct (lt_eq_lt_dec i i') as [[Hlt | ->] | Hgt].
  - assert ((i + 1) * n <= i' * n)%nat by (apply Nat.mul_le_mono_r; lia). lia.
  - split; [reflexivity | lia].
  - assert ((i' + 1) * n <= i * n)%nat by (apply Nat.mul_le_mono_r; lia). lia.
Qed.

(** The weights after the first [t] slots of [deltas] were applied to the
    matrix [W], walked row by row. *)
Definition deltas_applied (W : GMatrix) (lr : double) (deltas : GVec)
           (n : nat) (t : nat) (s : GMatrix * nat) : Prop :=
  s.2 = t /\ m_cols s.1 = m_cols W /\
  length (m_rows s.1) = length (m_rows W) /\
  forall i r, m_rows W !! i = Some r ->
    exists r', m_rows s.1 !! i = Some r' /\ length r' = length r /\
      forall j, (j < length r)%nat ->
        r' !! j = Some (if decide (i * n + j < t)%nat
                        then (elt r j + lr * elt deltas (i * n + j))%float
                        else elt r j).

Lemma applyDeltas_row (W : GMatrix) (lr : double) (deltas : GVec) (i : nat)
      (s : GMatrix * nat) :
  GMatrix_wf W -> 0 <= m_cols W ->
  let n := Z.to_nat (m_cols W) in
  (i < length (m_rows W))%nat ->
  length deltas = (length (m_rows W) * n)%nat ->
  deltas_applied W lr deltas n (i * n) s ->
  exists s',
    for_upto (m_cols W)
      (fun j '(w, p) =>
         d ← GVec_get deltas p;
         w ← GMatrix_add_at w i j (lr * d)%float;
         Ok (w, Datatypes.S p)) s = Ok s' /\
    deltas_applied W lr deltas n ((i + 1) * n) s'.
Proof.
  intros Hwf Hc n Hi Hlen Hinv.
  assert (Hroom : ((i + 1) * n <= length (m_rows W) * n)%nat)
    by (apply Nat.mul_le_mono_r; lia).
  destruct (for_upto_inv
              (fun j s => deltas_applied W lr deltas n (i * n + j) s)
              (fun j '(w, p) =>
                 d ← GVec_get deltas p;
                 w ← GMatrix_add_at w i j (lr * d)%float;
                 Ok (w, Datatypes.S p))
              (m_cols W) s) as (s' & E & Hs').
  - rewrite Nat.add_0_r. exact Hinv.
  - intros j [w p] Hj (Hp & Hcols & Hrows & Hval). fold n in Hj.
    cbn [fst snd] in Hp, Hcols, Hrows, Hval. subst p.
    rewrite GVec_get_elt by lia. mstep.
    assert (Hr : exists r, m_rows W !! i = Some r)
      by (apply lookup_lt_is_Some_2; exact Hi).
    destruct Hr as [r Hr].
    assert (Hrlen : length r = n).
    { pose proof (GMatrix_wf_row W i r Hwf Hr). lia. }
    destruct (Hval i r Hr) as (r' & Hr' & Hlen' & Hr'val).
    unfold GMatrix_add_at.
    rewrite (GMatrix_row_lookup w i r' Hr'). mstep.
    rewrite GVec_get_elt by lia. mstep.
    rewrite GVec_set_Ok by lia. mstep.
    unfold GMatrix_set_row.
    rewrite decide_True by (eapply lookup_lt_Some; exact Hr'). mstep.
    eexists. split; [reflexivity |].
    unfold deltas_applied. cbn [fst snd m_rows m_cols].
    split; [lia |]. split; [exact Hcols |].
    split; [rewrite length_insert; exact Hrows |].
    intros i' r0 Hr0.
    assert (Hr0len : length r0 = n).
    { pose proof (GMatrix_wf_row W i' r0 Hwf Hr0). lia. }
    destruct (decide (i' = i)) as [-> | Hne].
    + assert (r0 = r) by congruence. subst r0.
      eexists. split.
      { apply list_lookup_insert_eq. eapply lookup_lt_Some. exact Hr'. }
      split; [rewrite length_insert; exact Hlen' |].
      intros j' Hj'. destruct (decide (j' = j)) as [-> | Hnej].
      * rewrite list_lookup_insert_eq by lia.
        rewrite decide_True by lia.
        unfold elt at 1. rewrite (Hr'val j) by lia.
        rewrite decide_False by lia. reflexivity.
      * rewrite list_lookup_insert_ne by congruence.
        rewrite (Hr'val j') by lia.
        destruct (decide (i * n + j' < i * n + j)%nat);
          destruct (decide (i * n + j' < i * n + Datatypes.S j)%nat);
          try reflexivity; lia.
    + destruct (Hval i' r0 Hr0) as (r0' & Hr0' & Hlen0 & Hr0val).
      exists r0'. split; [rewrite list_lookup_insert_ne by congruence; exact Hr0' |].
      split; [exact Hlen0 |].
      intros j' Hj'. rewrite (Hr0val j' Hj').
      assert (i' * n + j' <> i * n + j)%nat.
      { intros Heq. destruct (flat_index_inj n i' j' i j) as [? ?]; lia. }
      destruct (decide (i' * n + j' < i * n + j)%nat);
        destruct (decide (i' * n + j' < i * n + Datatypes.S j)%nat);
        try reflexivity; lia.
  - exists s'. split; [exact E |].
    replace ((i + 1) * n)%nat with (i * n + Z.to_nat (m_cols W))%nat
      by (fold n; lia).
    exact Hs'.
Qed.

(** X2. [GLayerLinear::applyDeltas] on a layer of the shape [resize] gives,
    with a gradient vector of [countWeights()] slots: it succeeds, keeps the
    shape and the activation buffers, and adds [learningRate * deltas[i *
    outputs + j]] to the entry [(i, j)] of the weight matrix, the bias row
    being row [inputs]. *)
Theorem GLayerLinear_applyDeltas_spec (L : GLayerLinear.t)
        (learningRate : double) (deltas : GVec) :
  GLayerLinear.wf L ->
  GVec_size deltas = GLayerLinear.countWeights L ->
  exists L',
    GLayerLinear.applyDeltas L learningRate deltas = Ok L' /\
    GLayerLinear.wf L' /\
    GLayerLinear.m_activation L' = GLayerLinear.m_activation L /\
    GLayerLinear.inputs L' = GLayerLinear.inputs L /\
    GLayerLinear.outputs L' = GLayerLinear.outputs L /\
    forall i j : nat,
      Z.of_nat i <= GLayerLinear.inputs L ->
      Z.of_nat j < GLayerLinear.outputs L ->
      entry (GLayerLinear.m_weights L') i j
      = (entry (GLayerLinear.m_weights L) i j
         + learningRate
           * elt deltas (i * Z.to_nat (GLayerLinear.outputs L) + j))%float.
Proof.
  intros Hwf Hdel.
  pose proof (GLayerLinear_wf_inputs L Hwf) as Hinputs.
  destruct Hwf as (Hw & Ha & H1 & Hfit & Har & Hac).
  pose proof (GMatrix_wf_cols_nonneg _ Hw H1) as Hc.
  unfold GLayerLinear.applyDeltas, GLayerLinear.countWeights in *.
  rewrite Hinputs in *.
  destruct L as [W A].
  unfold GLayerLinear.bias, GLayerLinear.outputs, GMatrix_back, GMatrix_rows,
    GMatrix_cols, GVec_size in *.
  cbn [GLayerLinear.m_weights GLayerLinear.m_activation] in *.
  set (nr := length (m_rows W)) in *.
  set (no := Z.to_nat (m_cols W)) in *.
  assert (Hdlen : length deltas = (nr * no)%nat).
  { rewrite (wrap_small (Z.of_nat nr - 1 + 1)) in Hdel by nia.
    rewrite wrap_small in Hdel by nia. nia. }
  assert (Hlast : exists b, last (m_rows W) = Some b).
  { rewrite last_lookup. apply lookup_lt_is_Some_2. fold nr. lia. }
  destruct Hlast as [b Hb]. rewrite Hb. cbn [of_option]. mstep.
  destruct (for_upto_inv
              (fun i s => deltas_applied W learningRate deltas no (i * no) s)
              (fun i s =>
                 for_upto (m_cols W)
                   (fun j '(w, p) =>
                      d ← GVec_get deltas p;
                      w ← GMatrix_add_at w i j (learningRate * d)%float;
                      Ok (w, Datatypes.S p)) s)
              (Z.of_nat nr - 1) (W, 0%nat)) as (s1 & E1 & Hs1).
  - unfold deltas_applied. cbn [fst snd].
    split; [lia |]. split; [reflexivity |]. split; [reflexivity |].
    intros i r Hr. exists r. split; [exact Hr |]. split; [reflexivity |].
    intros j Hj. rewrite decide_False by lia. apply elt_lookup. exact Hj.
  - intros i s0 Hi Hs0.
    destruct (applyDeltas_row W learningRate deltas i s0 Hw Hc) as (s' & E & Hs').
    + fold nr. lia.
    + exact Hdlen.
    + exact Hs0.
    + exists s'. split; [exact E |].
      replace (Datatypes.S i) with (i + 1)%nat by lia. exact Hs'.
  - rewrite E1. mstep.
    destruct (applyDeltas_row W learningRate deltas (nr - 1)%nat s1 Hw Hc)
      as (s2 & E2 & Hs2).
    + fold nr. lia.
    + exact Hdlen.
    + replace (nr - 1)%nat with (Z.to_nat (Z.of_nat nr - 1)) by lia. exact Hs1.
    + rewrite E2. mstep.
      destruct s2 as [W2 p2].
      destruct Hs2 as (_ & Hcols & Hrows & Hval). cbn [fst snd] in *.
      replace (nr - 1 + 1)%nat with nr in Hval by lia.
      assert (Hw2 : GMatrix_wf W2).
      { unfold GMatrix_wf. rewrite Forall_lookup. intros i r2 Hr2.
        assert (Hi : (i < length (m_rows W))%nat)
          by (rewrite <- Hrows; eapply lookup_lt_Some; exact Hr2).
        destruct (lookup_lt_is_Some_2 _ _ Hi) as [r Hr].
        destruct (Hval i r Hr) as (r' & Hr' & Hlen' & _).
        assert (r' = r2) by congruence. subst r'.
        rewrite Hlen', Hcols. exact (GMatrix_wf_row W i r Hw Hr). }
      eexists. split; [reflexivity |].
      unfold GLayerLinear.wf, GLayerLinear.inputs, GMatrix_rows.
      cbn [GLayerLinear.m_weights GLayerLinear.m_activation].
      rewrite Hrows, Hcols. fold nr.
      split; [ repeat split; assumption |].
      split; [reflexivity |].
      split; [apply wrap_small; nia |]. split; [reflexivity |].
      intros i j Hi Hj.
      assert (Hi' : (i < length (m_rows W))%nat) by (fold nr; lia).
      destruct (lookup_lt_is_Some_2 _ _ Hi') as [r Hr].
      pose proof (GMatrix_wf_row W i r Hw Hr) as Hrlen.
      destruct (Hval i r Hr) as (r' & Hr' & Hlen' & Hr'val).
      rewrite (entry_lookup W2 i j r' Hr'), (entry_lookup W i j r Hr).
      unfold elt at 1. rewrite (Hr'val j) by lia.
      assert ((i + 1) * no <= nr * no)%nat by (apply Nat.mul_le_mono_r; lia).
      rewrite decide_True by lia. reflexivity.
Qed.

Lemma GLayerLinear_applyDeltas_spec_witness :
  exists L',
    GLayerLinear.applyDeltas linear_2x2 0.5%float [1; 2; 3; 4; 5; 6]%float
    = Ok L' /\
    GLayerLinear.m_weights L'
    = mkGMatrix [[1.5; 3]; [4.5; 6]; [3; 3.25]]%float 2.
Proof.
  destruct (GLayerLinear_applyDeltas_spec
              linear_2x2 0.5%float [1; 2; 3; 4; 5; 6]%float)
    as (L' & E & _).
  - unfold GLayerLinear.wf, GMatrix_wf.
    repeat split; try (vm_compute; reflexivity); try (vm_compute; discriminate);
      repeat constructor.
  - reflexivity.
  - exists L'. split; [exact E |].
    vm_compute in E. injection E as <-. vm_compute. reflexivity.
Defined.

(** ** Loops that fill a vector slot by slot *)

Lemma for_upto_set (body : nat -> GVec -> result GVec) (g : nat -> double)
      (n : Z) (a0 : GVec) :
  (Z.to_nat n <= length a0)%nat ->
  (forall i a, (i < Z.to_nat n)%nat -> length a = length a0 ->
               body i a = GVec_set a i (g i)) ->
  exists a',
    for_upto n body a0 = Ok a' /\ length a' = length a0 /\
    (forall i, (i < Z.to_nat n)%nat -> a' !! i = Some (g i)) /\
    (forall i, (Z.to_nat n <= i)%nat -> a' !! i = a0 !! i).
Proof.
  intros Hn Hbody.
  destruct (for_upto_inv
              (fun i (a : GVec) =>
                 length a = length a0 /\
                 (forall k, (k < i)%nat -> a !! k = Some (g k)) /\
                 (forall k, (i <= k)%nat -> a !! k = a0 !! k))
              body n a0) as (a' & E & Hlen & Hlo & Hhi).
  - split; [reflexivity |]. split; [intros; lia | reflexivity].
  - intros i a Hi (Hlen & Hlo & Hhi).
    rewrite (Hbody i a Hi Hlen), GVec_set_Ok by lia.
    eexists. split; [reflexivity |].
    split; [rewrite length_insert; exact Hlen |]. split.
    + intros k Hk. destruct (decide (k = i)) as [-> | Hne].
      * apply list_lookup_insert_eq. lia.
      * rewrite list_lookup_insert_ne by congruence. apply Hlo. lia.
    + intros k Hk. rewrite list_lookup_insert_ne by lia. apply Hhi. lia.
  - exists a'. repeat split; assumption.
Qed.

Lemma lookup_all_map (f : double -> double) (v a : GVec) :
  length a = length v ->
  (forall i, (i < length v)%nat -> a !! i = Some (f (elt v i))) ->
  a = map f v.
Proof.
  intros Hlen H. apply list_eq. intros i.
  destruct (decide (i < length v)%nat) as [Hi | Hi].
  - rewrite (H i Hi), list_lookup_fmap.
    unfold elt. destruct (lookup_lt_is_Some_2 v i Hi) as [x ->]. reflexivity.
  - rewrite !lookup_ge_None_2; [reflexivity | rewrite length_map; lia | lia].
Qed.

Lemma two_rows (m : GMatrix) :
  GMatrix_wf m -> GMatrix_rows m = 2 ->
  exists a e, m = mkGMatrix [a; e] (m_cols m) /\
              Z.of_nat (length a) = m_cols m /\ Z.of_nat (length e) = m_cols m.
Proof.
  destruct m as [rows c]. unfold GMatrix_rows. cbn [m_rows m_cols].
  intros Hwf Hr. destruct rows as [|a [|e [|]]]; simpl in Hr; try lia.
  exists a, e. split; [reflexivity |].
  split.
  - exact (GMatrix_wf_row (mkGMatrix [a; e] c) 0 a Hwf eq_refl).
  - exact (GMatrix_wf_row (mkGMatrix [a; e] c) 1 e Hwf eq_refl).
Qed.

(** ** GLayerActivation *)

(** X3. [GLayerActivation::feedForward], for any [eval] of the subclass, on
    a layer with a [2 x n] activation matrix and an input of [n] elements:
    the activation becomes [eval] of each input element, and the error
    buffer and the kind of the layer are untouched. *)
Theorem GLayerActivation_feedForward_spec (eval : double -> double)
        (L : GLayerActivation.t) (input : GVec) :
  GMatrix_wf (GLayerActivation.m_activation L) ->
  GMatrix_rows (GLayerActivation.m_activation L) = 2 ->
  GVec_size input = GLayerActivation.inputs L ->
  exists L',
    GLayerActivation.feedForward eval L input = Ok L' /\
    GLayerActivation.type L' = GLayerActivation.type L /\
    GLayerActivation.outputs L' = GLayerActivation.outputs L /\
    GLayerActivation.activation L' = Ok (map eval input) /\
    GLayerActivation.error L' = GLayerActivation.error L.
Proof.
  intros Hwf Hrows Hin.
  destruct (two_rows _ Hwf Hrows) as (a & e & Em & Ha & He).
  destruct L as [kind A]. cbn [GLayerActivation.m_activation] in *.
  unfold GLayerActivation.feedForward, GLayerActivation.activation,
    GLayerActivation.error, GLayerActivation.inputs, GLayerActivation.outputs,
    GMatrix_cols, GVec_size in *.
  cbn [GLayerActivation.m_activation GLayerActivation.type] in *.
  rewrite Em. cbn [m_cols]. unfold GMatrix_row. cbn [m_rows lookup list_lookup of_option].
  mstep.
  destruct (for_upto_set
              (fun i a => x ← GVec_get input i; GVec_set a i (eval x))
              (fun i => eval (elt input i)) (m_cols A) a)
    as (a' & E & Hlen & Hlo & _).
  - lia.
  - intros i b Hi Hb. rewrite GVec_get_elt by lia. reflexivity.
  - rewrite E. mstep. unfold GMatrix_set_row. cbn [m_rows length].
    rewrite decide_True by lia. mstep.
    eexists. split; [reflexivity |].
    cbn [GLayerActivation.m_activation GLayerActivation.type m_rows m_cols
         insert list_insert lookup list_lookup of_option].
    repeat split.
    f_equal. apply lookup_all_map; [lia |].
    intros i Hi. apply Hlo. lia.
Qed.

Lemma GLayerActivation_feedForward_spec_witness :
  exists L',
    GLayerActivation.feedForward GLayerActivation.rectifier_eval
      (GLayerActivation.mk layer_rectifier
         (mkGMatrix [[9; 9; 9]; [7; 7; 7]]%float 3))
      [-1; 0; 2.5]%float = Ok L' /\
    GLayerActivation.activation L' = Ok [0; 0; 2.5]%float.
Proof.
  destruct (GLayerActivation_feedForward_spec
              GLayerActivation.rectifier_eval
              (GLayerActivation.mk layer_rectifier
                 (mkGMatrix [[9; 9; 9]; [7; 7; 7]]%float 3))
              [-1; 0; 2.5]%float)
    as (L' & E & _ & _ & Ea & _).
  - unfold GMatrix_wf. repeat constructor.
  - reflexivity.
  - reflexivity.
  - exists L'. split; [exact E |]. rewrite Ea. vm_compute. reflexivity.
Defined.

(** X4. [GLayerActivation::backPropError], for any [derivative] of the
    subclass: the first [outputs()] slots of the upstream error become
    [error[i] * derivative(n[i], a[i])], with [n] the upstream activation and
    [a] the activation of this layer; the slots after them and the upstream
    activation are untouched. *)
Theorem GLayerActivation_backPropError_spec
        (derivative : double -> double -> double)
        (L : GLayerActivation.t) (up : UpStream) (a err : GVec) :
  GLayerActivation.activation L = Ok a ->
  GLayerActivation.error L = Ok err ->
  (Z.to_nat (up_outputs up) <= length a)%nat ->
  (Z.to_nat (up_outputs up) <= length err)%nat ->
  (Z.to_nat (up_outputs up) <= length (up_activation up))%nat ->
  (Z.to_nat (up_outputs up) <= length (up_error up))%nat ->
  exists e,
    GLayerActivation.backPropError derivative L up
    = Ok (mkUpStream (up_outputs up) (up_activation up) e) /\
    length e = length (up_error up) /\
    (forall i, (i < Z.to_nat (up_outputs up))%nat ->
       e !! i = Some (elt err i
                      * derivative (elt (up_activation up) i) (elt a i))%float) /\
    (forall i, (Z.to_nat (up_outputs up) <= i)%nat -> e !! i = up_error up !! i).
Proof.
  intros Ea Ee Ha He Hn Hue.
  unfold GLayerActivation.backPropError. rewrite Ee, Ea. mstep.
  destruct (for_upto_set
              (fun i upStreamError =>
                 s ← GVec_get err i;
                 ni ← GVec_get (up_activation up) i;
                 ai ← GVec_get a i;
                 GVec_set upStreamError i (s * derivative ni ai)%float)
              (fun i => (elt err i
                         * derivative (elt (up_activation up) i) (elt a i))%float)
              (up_outputs up) (up_error up))
    as (e & E & Hlen & Hlo & Hhi).
  - exact Hue.
  - intros i b Hi Hb. rewrite !GVec_get_elt by lia. reflexivity.
  - rewrite E. mstep. exists e. repeat split; assumption.
Qed.

Lemma GLayerActivation_backPropError_spec_witness :
  GLayerActivation.backPropError GLayerActivation.rectifier_derivative
    (GLayerActivation.mk layer_rectifier
       (mkGMatrix [[0; 2.5]; [7; 8]]%float 2))
    (mkUpStream 2 [-1; 2.5]%float [9; 9; 9]%float)
  = Ok (mkUpStream 2 [-1; 2.5]%float [0; 8; 9]%float).
Proof.
  destruct (GLayerActivation_backPropError_spec
              GLayerActivation.rectifier_derivative
              (GLayerActivation.mk layer_rectifier
                 (mkGMatrix [[0; 2.5]; [7; 8]]%float 2))
              (mkUpStream 2 [-1; 2.5]%float [9; 9; 9]%float)
              [0; 2.5]%float [7; 8]%float)
    as (e & E & _).
  - reflexivity.
  - reflexivity.
  - vm_compute. lia.
  - vm_compute. lia.
  - vm_compute. lia.
  - vm_compute. lia.
  - rewrite E. vm_compute in E. injection E as <-. reflexivity.
Defined.

(** X5. [GLayerActivation::resize] throws exactly when the two sizes differ;
    otherwise the layer keeps its kind, has [out] inputs and outputs, and
    activation and error buffers of [out] elements. *)
Theorem GLayerActivation_resize_spec (junk : double) (L : GLayerActivation.t)
        (in_ out : Z) :
  0 <= out ->
  (in_ <> out ->
   GLayerActivation.resize junk L in_ out
   = Raise (Ex "GLayerActivation must have the same number of inputs as outputs.")) /\
  (in_ = out ->
   exists L',
     GLayerActivation.resize junk L in_ out = Ok L' /\
     GLayerActivation.type L' = GLayerActivation.type L /\
     GLayerActivation.inputs L' = out /\
     GLayerActivation.outputs L' = out /\
     buffers_match (GLayerActivation.activation L')
                   (GLayerActivation.error L') out).
Proof.
  intros Hout. unfold GLayerActivation.resize. split.
  - intros Hne. apply Z.eqb_neq in Hne. rewrite Hne. reflexivity.
  - intros ->. rewrite Z.eqb_refl. cbn [negb].
    eexists. split; [reflexivity |]. repeat split.
    apply GMatrix_resize_2_buffers. exact Hout.
Qed.

Lemma GLayerActivation_resize_spec_witness :
  GLayerActivation.resize 0%float (GLayerActivation.new 0%float layer_tanh) 3 4
  = Raise (Ex "GLayerActivation must have the same number of inputs as outputs.")
  /\
  exists L',
    GLayerActivation.resize 0%float (GLayerActivation.new 0%float layer_tanh) 4 4
    = Ok L' /\
    GLayerActivation.activation L' = Ok [0; 0; 0; 0]%float.
Proof.
  split.
  - apply (GLayerActivation_resize_spec
             0%float (GLayerActivation.new 0%float layer_tanh) 3 4); lia.
  - destruct (proj2 (GLayerActivation_resize_spec
                       0%float (GLayerActivation.new 0%float layer_tanh) 4 4
                       ltac:(lia)) eq_refl) as (L' & E & _).
    exists L'. split; [exact E |].
    vm_compute in E. injection E as <-. reflexivity.
Defined.

(** X6. A serialized activation layer of one of the ten kinds from
    [layer_tanh] to [layer_softplus] is read back by
    [GNeuralNetLayer::deserialize] as a layer of the same kind and size,
    with freshly allocated buffers. *)
Theorem GLayerActivation_dom_round_trip (junk : double) (L : GLayerActivation.t) :
  LayerType_to_int (GLayerActivation.type L) <= 9 ->
  in_size_t (GLayerActivation.outputs L) ->
  exists node,
    serialize (Activation L) = Ok node /\
    deserialize junk node
    = Ok (Activation
            (GLayerActivation.mk (GLayerActivation.type L)
               (GMatrix_resize junk 2 (GLayerActivation.outputs L)))).
Proof.
  intros Hkind Hsize. destruct L as [kind A].
  unfold GLayerActivation.outputs, GMatrix_cols in *.
  cbn [GLayerActivation.type GLayerActivation.m_activation] in *.
  cbn [serialize]. unfold GLayerActivation.serialize.
  cbn [GLayerActivation.type GLayerActivation.m_activation].
  eexists. split; [reflexivity |].
  unfold deserialize, GLayerActivation.new_from_dom, GMatrix_cols.
  destruct kind; cbn [LayerType_to_int] in Hkind; try lia;
    read_field; cbn [GDomNode_asInt]; mstep;
    rewrite (asSize_newInt _ Hsize); reflexivity.
Qed.

Lemma GLayerActivation_dom_round_trip_witness :
  exists node,
    serialize (Activation (GLayerActivation.mk layer_logistic
                             (mkGMatrix [[1; 2; 3]; [4; 5; 6]]%float 3)))
    = Ok node /\
    deserialize 0%float node
    = Ok (Activation (GLayerActivation.mk layer_logistic
                        (mkGMatrix [[0; 0; 0]; [0; 0; 0]]%float 3))).
Proof.
  apply (GLayerActivation_dom_round_trip 0%float
           (GLayerActivation.mk layer_logistic
              (mkGMatrix [[1; 2; 3]; [4; 5; 6]]%float 3))).
  - vm_compute. discriminate.
  - vm_compute. split; [discriminate | reflexivity].
Defined.

(** ** GNeuralNetLayer::deserialize *)




(** X8. Whatever layer [GMaxPooling2D::serialize] writes,
    [GNeuralNetLayer::deserialize] throws on the document: it carries the
    type 19, for which the [switch] has no case. *)
Theorem GMaxPooling2D_document_is_rejected (junk : double) (L : GMaxPooling2D.t) :
  exists node,
    serialize (MaxPooling2D L) = Ok node /\
    deserialize junk node
    = Raise (Ex "Unrecognized neural network layer type: 19").
Proof.
  cbn [serialize]. unfold GMaxPooling2D.serialize. cbv zeta.
  eexists. split; [reflexivity |].
  unfold deserialize. read_field. reflexivity.
Qed.

(** ** The pooling layers: resize, feedForward, backPropError *)

(** X9. [GLayerProductPooling::feedForward] throws "Unexpected number of
    inputs" when the input has not [2 * outputs()] elements; otherwise it
    stores [in[2i] * in[2i+1]] in slot [i] of the activation and leaves the
    error buffer untouched. *)
Theorem GLayerProductPooling_feedForward_spec
        (L : GLayerProductPooling.t) (input : GVec) :
  GMatrix_wf (GLayerProductPooling.m_activation L) ->
  GMatrix_rows (GLayerProductPooling.m_activation L) = 2 ->
  GLayerProductPooling.outputs L * 2 < size_modulus ->
  (GVec_size input <> GLayerProductPooling.inputs L ->
   GLayerProductPooling.feedForward L input
   = Raise (Ex "Unexpected number of inputs")) /\
  (GVec_size input = GLayerProductPooling.inputs L ->
   exists L' a,
     GLayerProductPooling.feedForward L input = Ok L' /\
     GLayerProductPooling.activation L' = Ok a /\
     GLayerProductPooling.error L' = GLayerProductPooling.error L /\
     GLayerProductPooling.outputs L' = GLayerProductPooling.outputs L /\
     GVec_size a = GLayerProductPooling.outputs L /\
     forall i : nat, Z.of_nat i < GLayerProductPooling.outputs L ->
       a !! i = Some (elt input (2 * i) * elt input (2 * i + 1))%float).
Proof.
  intros Hwf Hrows Hfit. destruct L as [A].
  cbn [GLayerProductPooling.m_activation] in *.
  destruct (two_rows _ Hwf Hrows) as (a & e & Em & Ha & He).
  unfold GLayerProductPooling.feedForward, GLayerProductPooling.activation,
    GLayerProductPooling.error, GLayerProductPooling.inputs,
    GLayerProductPooling.outputs, GMatrix_cols, GVec_size in *.
  cbn [GLayerProductPooling.m_activation] in *.
  rewrite (wrap_small (m_cols A * 2)) by lia.
  split.
  - intros Hne. apply Z.eqb_neq in Hne. rewrite Hne. reflexivity.
  - intros Heq. rewrite Heq, Z.eqb_refl. cbn [negb].
    rewrite Em. cbn [m_cols]. unfold GMatrix_row.
    cbn [m_rows lookup list_lookup of_option]. mstep.
    destruct (for_upto_set
                (fun i a =>
                   x ← GVec_get input (2 * i);
                   y ← GVec_get input (2 * i + 1);
                   GVec_set a i (x * y)%float)
                (fun i => (elt input (2 * i) * elt input (2 * i + 1))%float)
                (m_cols A) a)
      as (a' & E & Hlen & Hlo & _).
    + lia.
    + intros i b Hi Hb. rewrite !GVec_get_elt by lia. reflexivity.
    + rewrite E. mstep. unfold GMatrix_set_row. cbn [m_rows length].
      rewrite decide_True by lia. mstep.
      eexists. exists a'. split; [reflexivity |].
      cbn [GLayerProductPooling.m_activation m_rows m_cols
           insert list_insert lookup list_lookup of_option].
      repeat split; [lia |]. intros i Hi. apply Hlo. lia.
Qed.

Lemma GLayerProductPooling_feedForward_spec_witness :
  GLayerProductPooling.feedForward
    (GLayerProductPooling.mk (mkGMatrix [[9; 9]; [7; 7]]%float 2))
    [1; 2; 3]%float
  = Raise (Ex "Unexpected number of inputs") /\
  exists L',
    GLayerProductPooling.feedForward
      (GLayerProductPooling.mk (mkGMatrix [[9; 9]; [7; 7]]%float 2))
      [2; 3; 4; 5]%float = Ok L' /\
    GLayerProductPooling.activation L' = Ok [6; 20]%float.
Proof.
  destruct (GLayerProductPooling_feedForward_spec
              (GLayerProductPooling.mk (mkGMatrix [[9; 9]; [7; 7]]%float 2))
              [1; 2; 3]%float) as [Hraise _].
  - unfold GMatrix_wf. repeat constructor.
  - reflexivity.
  - reflexivity.
  - split; [apply Hraise; vm_compute; discriminate |].
    destruct (GLayerProductPooling_feedForward_spec
                (GLayerProductPooling.mk (mkGMatrix [[9; 9]; [7; 7]]%float 2))
                [2; 3; 4; 5]%float) as [_ Hok].
    + unfold GMatrix_wf. repeat constructor.
    + reflexivity.
    + reflexivity.
    + destruct (Hok eq_refl) as (L' & a & E & _).
      exists L'. split; [exact E |].
      vm_compute in E. injection E as <-. reflexivity.
Defined.

(** X10. [GLayerAdditionPooling::feedForward] throws "Unexpected number of
    inputs" when the input has not [2 * outputs()] elements; otherwise it
    stores [in[2i] + in[2i+1]] in slot [i] of the activation and leaves the
    error buffer untouched. *)
Theorem GLayerAdditionPooling_feedForward_spec
        (L : GLayerAdditionPooling.t) (input : GVec) :
  GMatrix_wf (GLayerAdditionPooling.m_activation L) ->
  GMatrix_rows (GLayerAdditionPooling.m_activation L) = 2 ->
  GLayerAdditionPooling.outputs L * 2 < size_modulus ->
  (GVec_size input <> GLayerAdditionPooling.inputs L ->
   GLayerAdditionPooling.feedForward L input
   = Raise (Ex "Unexpected number of inputs")) /\
  (GVec_size input = GLayerAdditionPooling.inputs L ->
   exists L' a,
     GLayerAdditionPooling.feedForward L input = Ok L' /\
     GLayerAdditionPooling.activation L' = Ok a /\
     GLayerAdditionPooling.error L' = GLayerAdditionPooling.error L /\
     GLayerAdditionPooling.outputs L' = GLayerAdditionPooling.outputs L /\
     GVec_size a = GLayerAdditionPooling.outputs L /\
     forall i : nat, Z.of_nat i < GLayerAdditionPooling.outputs L ->
       a !! i = Some (elt input (2 * i) + elt input (2 * i + 1))%float).
Proof.
  intros Hwf Hrows Hfit. destruct L as [A].
  cbn [GLayerAdditionPooling.m_activation] in *.
  destruct (two_rows _ Hwf Hrows) as (a & e & Em & Ha & He).
  unfold GLayerAdditionPooling.feedForward, GLayerAdditionPooling.activation,
    GLayerAdditionPooling.error, GLayerAdditionPooling.inputs,
    GLayerAdditionPooling.outputs, GMatrix_cols, GVec_size in *.
  cbn [GLayerAdditionPooling.m_activation] in *.
  rewrite (wrap_small (m_cols A * 2)) by lia.
  split.
  - intros Hne. apply Z.eqb_neq in Hne. rewrite Hne. reflexivity.
  - intros Heq. rewrite Heq, Z.eqb_refl. cbn [negb].
    rewrite Em. cbn [m_cols]. unfold GMatrix_row.
    cbn [m_rows lookup list_lookup of_option]. mstep.
    destruct (for_upto_set
                (fun i a =>
                   x ← GVec_get input (2 * i);
                   y ← GVec_get input (2 * i + 1);
                   GVec_set a i (x + y)%float)
                (fun i => (elt input (2 * i) + elt input (2 * i + 1))%float)
                (m_cols A) a)
      as (a' & E & Hlen & Hlo & _).
    + lia.
    + intros i b Hi Hb. rewrite !GVec_get_elt by lia. reflexivity.
    + rewrite E. mstep. unfold GMatrix_set_row. cbn [m_rows length].
      rewrite decide_True by lia. mstep.
      eexists. exists a'. split; [reflexivity |].
      cbn [GLayerAdditionPooling.m_activation m_rows m_cols
           insert list_insert lookup list_lookup of_option].
      repeat split; [lia |]. intros i Hi. apply Hlo. lia.
Qed.

Lemma GLayerAdditionPooling_feedForward_spec_witness :
  GLayerAdditionPooling.feedForward
    (GLayerAdditionPooling.mk (mkGMatrix [[9; 9]; [7; 7]]%float 2))
    [1; 2; 3]%float
  = Raise (Ex "Unexpected number of inputs") /\
  exists L',
    GLayerAdditionPooling.feedForward
      (GLayerAdditionPooling.mk (mkGMatrix [[9; 9]; [7; 7]]%float 2))
      [2; 3; 4; 5]%float = Ok L' /\
    GLayerAdditionPooling.activation L' = Ok [5; 9]%float.
Proof.
  destruct (GLayerAdditionPooling_feedForward_spec
              (GLayerAdditionPooling.mk (mkGMatrix [[9; 9]; [7; 7]]%float 2))
              [1; 2; 3]%float) as [Hraise _].
  - unfold GMatrix_wf. repeat constructor.
  - reflexivity.
  - reflexivity.
  - split; [apply Hraise; vm_compute; discriminate |].
    destruct (GLayerAdditionPooling_feedForward_spec
                (GLayerAdditionPooling.mk (mkGMatrix [[9; 9]; [7; 7]]%float 2))
                [2; 3; 4; 5]%float) as [_ Hok].
    + unfold GMatrix_wf. repeat constructor.
    + reflexivity.
    + reflexivity.
    + destruct (Hok eq_refl) as (L' & a & E & _).
      exists L'. split; [exact E |].
      vm_compute in E. injection E as <-. reflexivity.
Defined.

(** X11. [GLayerProductPooling::backPropError] is the product rule: the
    upstream error of the two inputs of output [i] becomes the error of
    [i] times the activation of the other input. *)
Theorem GLayerProductPooling_backPropError_spec
        (L : GLayerProductPooling.t) (up : UpStream) (err : GVec) :
  GLayerProductPooling.error L = Ok err ->
  GVec_size err = GLayerProductPooling.outputs L ->
  GVec_size (up_activation up) = 2 * GLayerProductPooling.outputs L ->
  GVec_size (up_error up) = 2 * GLayerProductPooling.outputs L ->
  exists up',
    GLayerProductPooling.backPropError L up = Ok up' /\
    up_activation up' = up_activation up /\
    length (up_error up') = length (up_error up) /\
    forall i : nat, Z.of_nat i < GLayerProductPooling.outputs L ->
      up_error up' !! (2 * i)%nat
      = Some (elt err i * elt (up_activation up) (2 * i + 1))%float /\
      up_error up' !! (2 * i + 1)%nat
      = Some (elt err i * elt (up_activation up) (2 * i))%float.
Proof.
  intros Eerr Herr Hact Hue. unfold GVec_size in *.
  unfold GLayerProductPooling.backPropError. rewrite Eerr. mstep.
  set (n := GLayerProductPooling.outputs L) in *.
  destruct (for_upto_inv
              (fun i (ue : GVec) =>
                 length ue = length (up_error up) /\
                 forall k, (k < i)%nat ->
                   ue !! (2 * k)%nat
                   = Some (elt err k * elt (up_activation up) (2 * k + 1))%float /\
                   ue !! (2 * k + 1)%nat
                   = Some (elt err k * elt (up_activation up) (2 * k))%float)
              (fun i upStreamError =>
                 ei ← GVec_get err i;
                 a1 ← GVec_get (up_activation up) (2 * i + 1);
                 upStreamError ← GVec_set upStreamError (2 * i) (ei * a1)%float;
                 a0 ← GVec_get (up_activation up) (2 * i);
                 GVec_set upStreamError (2 * i + 1) (ei * a0)%float)
              n (up_error up))
    as (e & Ee & Hlen & Hval).
  - split; [reflexivity |]. intros k Hk. lia.
  - intros i ue Hi (Hlen & Hval).
    repeat (rewrite GVec_get_elt by lia). mstep.
    rewrite (GVec_set_Ok ue) by lia. mstep.
    rewrite GVec_set_Ok by (rewrite length_insert; lia).
    eexists. split; [reflexivity |]. split.
    + rewrite !length_insert. exact Hlen.
    + intros k Hk. destruct (decide (k = i)) as [-> | Hne].
      * split.
        -- rewrite list_lookup_insert_ne by lia.
           apply list_lookup_insert_eq. lia.
        -- apply list_lookup_insert_eq. rewrite length_insert. lia.
      * destruct (Hval k) as [H0 H1]; [lia |].
        rewrite !list_lookup_insert_ne by lia. split; assumption.
  - rewrite Ee. mstep. eexists. split; [reflexivity |]. simpl.
    split; [reflexivity |].
    split; [exact Hlen |]. intros i Hi. apply Hval. lia.
Qed.

Lemma GLayerProductPooling_backPropError_spec_witness :
  GLayerProductPooling.backPropError
    (GLayerProductPooling.mk (mkGMatrix [[6; 20]; [10; 100]]%float 2))
    (mkUpStream 4 [2; 3; 4; 5]%float [0; 0; 0; 0]%float)
  = Ok (mkUpStream 4 [2; 3; 4; 5]%float [30; 20; 500; 400]%float).
Proof.
  destruct (GLayerProductPooling_backPropError_spec
              (GLayerProductPooling.mk (mkGMatrix [[6; 20]; [10; 100]]%float 2))
              (mkUpStream 4 [2; 3; 4; 5]%float [0; 0; 0; 0]%float)
              [10; 100]%float)
    as (up' & E & _).
  - reflexivity.
  - reflexivity.
  - reflexivity.
  - reflexivity.
  - rewrite E. vm_compute in E. injection E as <-. reflexivity.
Defined.

(** X12. [resize] of the two pooling layers throws "inputCount must be
    2*outputCount" exactly when [outputCount * 2] (in [size_t] arithmetic)
    differs from [inputCount]; otherwise the layer has [outputCount] outputs
    afterwards: it is left as it was when it had that many already, and gets
    new activation and error buffers of [outputCount] elements when not. *)
Theorem pooling_resize_spec (junk : double) (inputCount outputCount : Z)
        (P : GLayerProductPooling.t) (A : GLayerAdditionPooling.t) :
  0 <= outputCount ->
  (wrap (outputCount * 2) <> inputCount ->
   GLayerProductPooling.resize junk P inputCount outputCount
   = Raise (Ex "inputCount must be 2*outputCount") /\
   GLayerAdditionPooling.resize junk A inputCount outputCount
   = Raise (Ex "inputCount must be 2*outputCount")) /\
  (wrap (outputCount * 2) = inputCount ->
   exists P' A',
     GLayerProductPooling.resize junk P inputCount outputCount = Ok P' /\
     GLayerAdditionPooling.resize junk A inputCount outputCount = Ok A' /\
     GLayerProductPooling.outputs P' = outputCount /\
     GLayerAdditionPooling.outputs A' = outputCount /\
     (outputCount = GLayerProductPooling.outputs P -> P' = P) /\
     (outputCount = GLayerAdditionPooling.outputs A -> A' = A) /\
     (outputCount <> GLayerProductPooling.outputs P ->
      buffers_match (GLayerProductPooling.activation P')
                    (GLayerProductPooling.error P') outputCount) /\
     (outputCount <> GLayerAdditionPooling.outputs A ->
      buffers_match (GLayerAdditionPooling.activation A')
                    (GLayerAdditionPooling.error A') outputCount)).
Proof.
  intros Hout.
  unfold GLayerProductPooling.resize, GLayerAdditionPooling.resize. split.
  - intros Hne. apply Z.eqb_neq in Hne. rewrite Hne. split; reflexivity.
  - intros Heq. apply Z.eqb_eq in Heq. rewrite Heq. cbn [negb].
    destruct (outputCount =? GLayerProductPooling.outputs P) eqn:EP;
      destruct (outputCount =? GLayerAdditionPooling.outputs A) eqn:EA;
      [apply Z.eqb_eq in EP | apply Z.eqb_eq in EP
       | apply Z.eqb_neq in EP | apply Z.eqb_neq in EP];
      [apply Z.eqb_eq in EA | apply Z.eqb_neq in EA
       | apply Z.eqb_eq in EA | apply Z.eqb_neq in EA];
      do 2 eexists;
      (split; [reflexivity |]); (split; [reflexivity |]);
      repeat split; try congruence; try reflexivity;
      intros _; apply GMatrix_resize_2_buffers; exact Hout.
Qed.

Lemma pooling_resize_spec_witness :
  GLayerProductPooling.resize 0%float GLayerProductPooling.init 5 2
  = Raise (Ex "inputCount must be 2*outputCount") /\
  exists P',
    GLayerProductPooling.resize 0%float GLayerProductPooling.init 4 2 = Ok P' /\
    GLayerProductPooling.activation P' = Ok [0; 0]%float.
Proof.
  destruct (pooling_resize_spec 0%float 5 2
              GLayerProductPooling.init GLayerAdditionPooling.init) as [Hraise _];
    [lia |].
  split; [apply Hraise; vm_compute; discriminate |].
  destruct (pooling_resize_spec 0%float 4 2
              GLayerProductPooling.init GLayerAdditionPooling.init) as [_ Hok];
    [lia |].
  destruct (Hok eq_refl) as (P' & A' & E & _).
  exists P'. split; [exact E |].
  vm_compute in E. injection E as <-. reflexivity.
Defined.

(** X13. The pooling constructors, given an even input count: with a
    positive count the activation and error buffers have [inps / 2]
    elements; with the count 0, [resize] returns at once, the activation
    matrix stays the default-constructed one, and there is no activation row
    and no error row to read. *)
Theorem pooling_new_buffers (junk : double) (inps : Z) :
  0 <= inps < size_modulus -> Z.odd inps = false ->
  exists P A,
    GLayerProductPooling.new junk inps = Ok P /\
    GLayerAdditionPooling.new junk inps = Ok A /\
    (0 < inps ->
     buffers_match (GLayerProductPooling.activation P)
                   (GLayerProductPooling.error P) (inps / 2) /\
     buffers_match (GLayerAdditionPooling.activation A)
                   (GLayerAdditionPooling.error A) (inps / 2)) /\
    (inps = 0 ->
     GLayerProductPooling.activation P = Raise Undefined /\
     GLayerProductPooling.error P = Raise Undefined /\
     GLayerAdditionPooling.activation A = Raise Undefined /\
     GLayerAdditionPooling.error A = Raise Undefined).
Proof.
  intros Hr Hodd.
  unfold GLayerProductPooling.new, GLayerProductPooling.resize,
    GLayerAdditionPooling.new, GLayerAdditionPooling.resize.
  rewrite land_1_odd, Hodd.
  pose proof (Zdiv2_odd_eqn inps) as Heq. rewrite Hodd, Z.div2_div in Heq.
  rewrite wrap_small by lia.
  replace (inps / 2 * 2 =? inps) with true by (symmetry; apply Z.eqb_eq; lia).
  cbn [negb].
  change (GLayerProductPooling.outputs GLayerProductPooling.init) with 0.
  change (GLayerAdditionPooling.outputs GLayerAdditionPooling.init) with 0.
  destruct (inps / 2 =? 0) eqn:E.
  - apply Z.eqb_eq in E. do 2 eexists.
    split; [reflexivity |]. split; [reflexivity |].
    split; [intros; lia |]. intros _. repeat split.
  - apply Z.eqb_neq in E. do 2 eexists.
    split; [reflexivity |]. split; [reflexivity |].
    split; [| intros; lia].
    intros _. split; apply GMatrix_resize_2_buffers; lia.
Qed.

Lemma pooling_new_buffers_witness :
  (exists P, GLayerProductPooling.new 0%float 6 = Ok P /\
             GLayerProductPooling.activation P = Ok [0; 0; 0]%float) /\
  (exists A, GLayerAdditionPooling.new 0%float 0 = Ok A /\
             GLayerAdditionPooling.activation A = Raise Undefined).
Proof.
  split.
  - destruct (pooling_new_buffers 0%float 6) as (P & A & EP & _).
    + vm_compute. split; [discriminate | reflexivity].
    + reflexivity.
    + exists P. split; [exact EP |].
      vm_compute in EP. injection EP as <-. reflexivity.
  - destruct (pooling_new_buffers 0%float 0) as (P & A & _ & EA & _ & H0).
    + vm_compute. split; [discriminate | reflexivity].
    + reflexivity.
    + exists A. split; [exact EA |]. apply H0. reflexivity.
Defined.

(** ** GLayerMaxOut: backPropError and the winners *)

Lemma accumulate_where_S (sel : nat -> bool) (f : nat -> double) (n : nat)
      (init : double) :
  accumulate_where sel f (Datatypes.S n) init
  = (if sel n then (accumulate_where sel f n init + f n)%float
     else accumulate_where sel f n init).
Proof.
  unfold accumulate_where. rewrite seq_S, fold_left_app. reflexivity.
Qed.

(** X14. [GLayerMaxOut::backPropError] clears the upstream error and then
    routes the error of every output to its recorded winner only: slot [u]
    of the upstream error ends as the sum, in index order, of
    [m_weights[u][i] * error[i]] over the outputs [i] whose winner is [u]. *)
Theorem GLayerMaxOut_backPropError_routes_to_winners
        (L : GLayerMaxOut.t) (up : UpStream) (source : GVec) :
  GLayerMaxOut.error L = Ok source ->
  GMatrix_wf (GLayerMaxOut.m_weights L) ->
  GVec_size source = GLayerMaxOut.outputs L ->
  Z.of_nat (length (GLayerMaxOut.m_winners L)) = GLayerMaxOut.outputs L ->
  Forall (fun w => 0 <= w < Z.of_nat (length (up_error up)) /\
                   w < GLayerMaxOut.inputs L) (GLayerMaxOut.m_winners L) ->
  exists e,
    GLayerMaxOut.backPropError L up
    = Ok (mkUpStream (up_outputs up) (up_activation up) e) /\
    length e = length (up_error up) /\
    forall u : nat, (u < length (up_error up))%nat ->
      e !! u
      = Some (accumulate_where
                (fun i => bool_decide
                            (GLayerMaxOut.m_winners L !! i = Some (Z.of_nat u)))
                (fun i => (entry (GLayerMaxOut.m_weights L) u i
                           * elt source i)%float)
                (Z.to_nat (GLayerMaxOut.outputs L)) 0%float).
Proof.
  intros Eerr Hwf Hsrc Hwin Hall.
  unfold GLayerMaxOut.backPropError. rewrite Eerr. mstep.
  unfold GLayerMaxOut.outputs, GLayerMaxOut.inputs, GMatrix_cols, GMatrix_rows,
    GVec_size in *.
  set (W := GLayerMaxOut.m_weights L) in *.
  set (winners := GLayerMaxOut.m_winners L) in *.
  set (len := length (up_error up)) in *.
  destruct (for_upto_inv
              (fun i (ue : GVec) =>
                 length ue = len /\
                 forall u, (u < len)%nat ->
                   ue !! u
                   = Some (accumulate_where
                             (fun i => bool_decide (winners !! i = Some (Z.of_nat u)))
                             (fun i => (entry W u i * elt source i)%float)
                             i 0%float))
              (fun i upStreamError =>
                 win ← of_option (winners !! i);
                 w ← GMatrix_row W (Z.to_nat win);
                 wi ← GVec_get w i;
                 s ← GVec_get source i;
                 old ← GVec_get upStreamError (Z.to_nat win);
                 GVec_set upStreamError (Z.to_nat win) (old + wi * s)%float)
              (m_cols W) (replicate len 0%float))
    as (e & Ee & Hlen & Hval).
  - split; [apply length_replicate |].
    intros u Hu. apply lookup_replicate_2. exact Hu.
  - intros i ue Hi (Hlen & Hval).
    destruct (lookup_lt_is_Some_2 winners i ltac:(lia)) as [win Ewin].
    rewrite Ewin. cbn [of_option]. mstep.
    rewrite Forall_lookup in Hall. destruct (Hall i win Ewin) as [Hw1 Hw2].
    destruct (lookup_lt_is_Some_2 (m_rows W) (Z.to_nat win) ltac:(lia))
      as [w Ew].
    rewrite (GMatrix_row_lookup W _ w Ew). mstep.
    pose proof (GMatrix_wf_row W _ w Hwf Ew) as Hwlen.
    rewrite !GVec_get_elt by lia. mstep.
    rewrite GVec_set_Ok by lia.
    eexists. split; [reflexivity |].
    split; [rewrite length_insert; exact Hlen |].
    intros u Hu. rewrite accumulate_where_S.
    destruct (decide (u = Z.to_nat win)) as [-> | Hne].
    + rewrite list_lookup_insert_eq by lia.
      rewrite bool_decide_eq_true_2 by (rewrite Ewin; f_equal; lia).
      unfold elt at 1. rewrite (Hval (Z.to_nat win)) by lia.
      rewrite (entry_lookup W _ i w Ew). reflexivity.
    + rewrite list_lookup_insert_ne by congruence.
      rewrite bool_decide_eq_false_2
        by (rewrite Ewin; intros [= ->]; apply Hne; lia).
      apply Hval. exact Hu.
  - rewrite Ee. mstep. exists e. split; [reflexivity |].
    split; [exact Hlen | exact Hval].
Qed.

Lemma GLayerMaxOut_backPropError_routes_to_winners_witness :
  GLayerMaxOut.backPropError
    (GLayerMaxOut.mk (mkGMatrix [[1; 2]; [3; 4]]%float 2)
                     (mkGMatrix [[0; 0]; [0; 0]]%float 2)
                     (mkGMatrix [[0; 0]; [10; 100]]%float 2) [1; 1])
    (mkUpStream 2 [5; 6]%float [9; 9]%float)
  = Ok (mkUpStream 2 [5; 6]%float [0; 430]%float).
Proof.
  destruct (GLayerMaxOut_backPropError_routes_to_winners
              (GLayerMaxOut.mk (mkGMatrix [[1; 2]; [3; 4]]%float 2)
                               (mkGMatrix [[0; 0]; [0; 0]]%float 2)
                               (mkGMatrix [[0; 0]; [10; 100]]%float 2) [1; 1])
              (mkUpStream 2 [5; 6]%float [9; 9]%float)
              [10; 100]%float)
    as (e & E & _).
  - reflexivity.
  - unfold GMatrix_wf. repeat constructor.
  - reflexivity.
  - reflexivity.
  - repeat constructor; vm_compute; congruence.
  - rewrite E. vm_compute in E. injection E as <-. reflexivity.
Defined.

Tactic Notation "loop_inv" constr(P) "as" simple_intropattern(pat) :=
  match goal with
  | |- context [for_upto ?n ?body ?s] =>
      destruct (for_upto_inv P body n s) as pat
  end.




(** ** GLayerRestrictedBoltzmannMachine: feedForward *)

(** X16. [GLayerRestrictedBoltzmannMachine::feedForward], on a layer whose
    bias matrix is [3 x outputs] and an input of [inputs()] elements, sets
    activation [i] to [bias[i] + in.dotProduct(m_weights[i])] and leaves the
    weights, the bias and the error buffer untouched. *)
Theorem GLayerRestrictedBoltzmannMachine_feedForward_spec
        (L : GLayerRestrictedBoltzmannMachine.t) (input : GVec) :
  GMatrix_wf (GLayerRestrictedBoltzmannMachine.m_weights L) ->
  GMatrix_wf (GLayerRestrictedBoltzmannMachine.m_bias L) ->
  GMatrix_rows (GLayerRestrictedBoltzmannMachine.m_bias L) = 3 ->
  m_cols (GLayerRestrictedBoltzmannMachine.m_bias L)
  = GLayerRestrictedBoltzmannMachine.outputs L ->
  GVec_size input = GLayerRestrictedBoltzmannMachine.inputs L ->
  exists L' a b,
    GLayerRestrictedBoltzmannMachine.feedForward L input = Ok L' /\
    GLayerRestrictedBoltzmannMachine.m_weights L'
    = GLayerRestrictedBoltzmannMachine.m_weights L /\
    GLayerRestrictedBoltzmannMachine.bias L = Ok b /\
    GLayerRestrictedBoltzmannMachine.bias L' = Ok b /\
    GLayerRestrictedBoltzmannMachine.error L'
    = GLayerRestrictedBoltzmannMachine.error L /\
    GLayerRestrictedBoltzmannMachine.activation L' = Ok a /\
    GVec_size a = GLayerRestrictedBoltzmannMachine.outputs L /\
    forall i : nat, Z.of_nat i < GLayerRestrictedBoltzmannMachine.outputs L ->
      exists w d,
        GMatrix_row (GLayerRestrictedBoltzmannMachine.m_weights L) i = Ok w /\
        GVec_dotProduct input w = Ok d /\
        a !! i = Some (elt b i + d)%float.
Proof.
  intros Hwf HwfB HrowsB HcolsB Hin. destruct L as [W B R].
  unfold GLayerRestrictedBoltzmannMachine.feedForward,
    GLayerRestrictedBoltzmannMachine.set_activation,
    GLayerRestrictedBoltzmannMachine.activation,
    GLayerRestrictedBoltzmannMachine.bias,
    GLayerRestrictedBoltzmannMachine.error,
    GLayerRestrictedBoltzmannMachine.outputs,
    GLayerRestrictedBoltzmannMachine.inputs,
    GMatrix_rows, GMatrix_cols, GVec_size in *.
  cbn [GLayerRestrictedBoltzmannMachine.m_weights
       GLayerRestrictedBoltzmannMachine.m_bias
       GLayerRestrictedBoltzmannMachine.m_biasReverse] in *.
  destruct B as [rb cb]. cbn [m_rows m_cols] in *.
  destruct rb as [|b [|a0 [|e0 [|]]]]; simpl in HrowsB; try lia.
  assert (Hb : Z.of_nat (length b) = cb)
    by exact (GMatrix_wf_row (mkGMatrix [b; a0; e0] cb) 0 b HwfB eq_refl).
  rewrite (GMatrix_row_lookup (mkGMatrix [b; a0; e0] cb) 1 a0 eq_refl),
    (GMatrix_row_lookup (mkGMatrix [b; a0; e0] cb) 0 b eq_refl).
  mstep.
  loop_inv (fun i (a : GVec) =>
              length a = length b /\
              (forall k, (k < i)%nat ->
                 exists w d, m_rows W !! k = Some w /\
                             GVec_dotProduct input w = Ok d /\
                             a !! k = Some (elt b k + d)%float) /\
              (forall k, (i <= k)%nat -> a !! k = b !! k))
    as (a & E & Hlen & Hlo & _).
  - split; [reflexivity |]. split; [intros; lia | reflexivity].
  - intros i a Hi (Hlen & Hlo & Hhi).
    destruct (lookup_lt_is_Some_2 (m_rows W) i ltac:(lia)) as [w Ew].
    rewrite (GMatrix_row_lookup W i w Ew). mstep.
    pose proof (GMatrix_wf_row W i w Hwf Ew) as Hwlen.
    assert (Hd : exists d, GVec_dotProduct input w = Ok d).
    { unfold GVec_dotProduct. rewrite decide_True by lia. eexists. reflexivity. }
    destruct Hd as [d Ed]. rewrite Ed. mstep.
    rewrite GVec_get_elt by lia. mstep.
    rewrite GVec_set_Ok by lia.
    eexists. split; [reflexivity |].
    split; [rewrite length_insert; exact Hlen |]. split.
    + intros k Hk. destruct (decide (k = i)) as [-> | Hne].
      * exists w, d. split; [exact Ew |]. split; [exact Ed |].
        rewrite list_lookup_insert_eq by lia.
        unfold elt. rewrite (Hhi i) by lia. reflexivity.
      * rewrite list_lookup_insert_ne by congruence. apply Hlo. lia.
    + intros k Hk. rewrite list_lookup_insert_ne by lia. apply Hhi. lia.
  - rewrite E. mstep. unfold GMatrix_set_row. cbn [m_rows length].
    rewrite decide_True by lia. mstep.
    exists (GLayerRestrictedBoltzmannMachine.mk
              W (mkGMatrix [b; a; e0] cb) R), a, b.
    cbn [GLayerRestrictedBoltzmannMachine.m_weights
         GLayerRestrictedBoltzmannMachine.m_bias m_rows m_cols
         insert list_insert].
    unfold GMatrix_row.
    cbn [m_rows insert list_insert lookup list_lookup of_option].
    repeat split; try reflexivity; try lia.
    intros i Hi. destruct (Hlo i) as (w & d & Ew & Ed & Ha); [lia |].
    exists w, d. rewrite Ew. repeat split; assumption.
Qed.

Lemma GLayerRestrictedBoltzmannMachine_feedForward_spec_witness :
  exists L',
    GLayerRestrictedBoltzmannMachine.feedForward rbm_2x1 [10; 100]%float
    = Ok L' /\
    GLayerRestrictedBoltzmannMachine.activation L' = Ok [210.5]%float.
Proof.
  destruct (GLayerRestrictedBoltzmannMachine_feedForward_spec
              rbm_2x1 [10; 100]%float)
    as (L' & a & b & E & _).
  - unfold GMatrix_wf. repeat constructor.
  - unfold GMatrix_wf. repeat constructor.
  - reflexivity.
  - reflexivity.
  - reflexivity.
  - exists L'. split; [exact E |].
    vm_compute in E. injection E as <-. vm_compute. reflexivity.
Defined.

(** ** GLayerConvolutional1D: construction, resize, feedForward *)

Lemma wrap_mul_l (a b : Z) : wrap (wrap a * b) = wrap (a * b).
Proof. unfold wrap. apply Z.mul_mod_idemp_l. discriminate. Qed.

Lemma wrap_nonneg_small (z : Z) : 0 <= z -> z < size_modulus -> wrap z = z.
Proof. intros H0 H1. apply wrap_small. lia. Qed.

(** X17. [GLayerConvolutional1D(inputSamples, inputChannels, kernelSize,
    kernelsPerChannel)] throws "kernelSize must be <= inputSamples" when the
    kernel is longer than the input; otherwise the layer has
    [inputSamples - kernelSize + 1] output samples,
    [inputSamples * inputChannels] inputs, a kernel matrix of
    [inputChannels * kernelsPerChannel] rows and [kernelSize] columns, a bias
    of one element per kernel, and activation and error buffers of
    [outputs()] elements. *)
Theorem GLayerConvolutional1D_new_spec
        (junk : double) (inputSamples inputChannels kernelSize kernelsPerChannel : Z) :
  0 <= inputSamples -> 0 <= inputChannels -> 0 <= kernelSize ->
  0 <= kernelsPerChannel ->
  (inputSamples + 1) * inputChannels * (kernelsPerChannel + 1) < size_modulus ->
  inputSamples + 1 < size_modulus ->
  (inputSamples < kernelSize ->
   GLayerConvolutional1D.new junk inputSamples inputChannels kernelSize
                             kernelsPerChannel
   = Raise (Ex "kernelSize must be <= inputSamples")) /\
  (kernelSize <= inputSamples ->
   exists L,
     GLayerConvolutional1D.new junk inputSamples inputChannels kernelSize
                               kernelsPerChannel = Ok L /\
     GLayerConvolutional1D.m_outputSamples L = inputSamples - kernelSize + 1 /\
     GLayerConvolutional1D.inputs L = inputSamples * inputChannels /\
     GLayerConvolutional1D.outputs L
     = (inputSamples - kernelSize + 1) * inputChannels * kernelsPerChannel /\
     GMatrix_wf (GLayerConvolutional1D.m_kernels L) /\
     GMatrix_rows (GLayerConvolutional1D.m_kernels L)
     = inputChannels * kernelsPerChannel /\
     GMatrix_cols (GLayerConvolutional1D.m_kernels L) = kernelSize /\
     GVec_size (GLayerConvolutional1D.bias L)
     = inputChannels * kernelsPerChannel /\
     buffers_match (GLayerConvolutional1D.activation L)
                   (GLayerConvolutional1D.error L)
                   (GLayerConvolutional1D.outputs L)).
Proof.
  intros HS HC Hks HK Hfit HS1. unfold GLayerConvolutional1D.new. cbv zeta.
  split.
  - intros Hlt. apply Z.ltb_lt in Hlt. rewrite Hlt. reflexivity.
  - intros Hle. replace (inputSamples <? kernelSize) with false
      by (symmetry; apply Z.ltb_ge; exact Hle).
    set (O := inputSamples - kernelSize + 1).
    assert (HO : 0 <= O <= inputSamples + 1) by (subst O; lia).
    assert (HCK : 0 <= inputChannels * kernelsPerChannel) by nia.
    assert (H1 : inputChannels * kernelsPerChannel
                 <= (inputSamples + 1) * inputChannels * (kernelsPerChannel + 1))
      by nia.
    assert (H2 : inputChannels * kernelsPerChannel * O
                 <= (inputSamples + 1) * inputChannels * (kernelsPerChannel + 1))
      by nia.
    assert (H3 : 0 <= inputChannels * kernelsPerChannel * O) by nia.
    assert (H4 : O * inputChannels
                 <= (inputSamples + 1) * inputChannels * (kernelsPerChannel + 1))
      by nia.
    assert (H5 : 0 <= O * inputChannels) by nia.
    assert (H6 : inputSamples * inputChannels
                 <= (inputSamples + 1) * inputChannels * (kernelsPerChannel + 1))
      by nia.
    assert (H7 : 0 <= inputSamples * inputChannels) by nia.
    rewrite (wrap_nonneg_small (inputSamples - kernelSize)) by lia.
    fold O. rewrite (wrap_nonneg_small O) by lia.
    rewrite (wrap_nonneg_small (inputChannels * kernelsPerChannel)) by lia.
    rewrite (wrap_nonneg_small (inputChannels * kernelsPerChannel * O)) by lia.
    eexists. split; [reflexivity |].
    unfold GLayerConvolutional1D.inputs, GLayerConvolutional1D.outputs,
      GLayerConvolutional1D.activation, GLayerConvolutional1D.error,
      GLayerConvolutional1D.bias, GVec_size, GMatrix_cols.
    cbn [GLayerConvolutional1D.m_inputSamples GLayerConvolutional1D.m_inputChannels
         GLayerConvolutional1D.m_outputSamples
         GLayerConvolutional1D.m_kernelsPerChannel
         GLayerConvolutional1D.m_kernels GLayerConvolutional1D.m_activation
         GLayerConvolutional1D.m_bias].
    rewrite (wrap_nonneg_small (inputSamples * inputChannels)) by lia.
    rewrite (wrap_nonneg_small (O * inputChannels)) by lia.
    assert (H8 : 0 <= O * inputChannels * kernelsPerChannel) by nia.
    rewrite (wrap_nonneg_small (O * inputChannels * kernelsPerChannel)) by nia.
    split; [reflexivity |]. split; [reflexivity |]. split; [reflexivity |].
    split; [apply GMatrix_resize_wf; exact Hks |].
    split; [apply GMatrix_resize_rows; exact HCK |].
    split; [reflexivity |].
    split; [rewrite length_replicate; lia |].
    replace (inputChannels * kernelsPerChannel * O)
      with (O * inputChannels * kernelsPerChannel) by lia.
    apply GMatrix_resize_2_buffers. exact H8.
Qed.

Lemma GLayerConvolutional1D_new_spec_witness :
  GLayerConvolutional1D.new 0%float 2 1 3 1
  = Raise (Ex "kernelSize must be <= inputSamples") /\
  exists L,
    GLayerConvolutional1D.new 0%float 10 2 3 4 = Ok L /\
    GLayerConvolutional1D.outputs L = 64.
Proof.
  split.
  - apply (GLayerConvolutional1D_new_spec 0%float 2 1 3 1).
    + lia.
    + lia.
    + lia.
    + lia.
    + vm_compute. reflexivity.
    + vm_compute. reflexivity.
    + lia.
  - destruct (GLayerConvolutional1D_new_spec 0%float 10 2 3 4) as [_ Hok].
    + lia.
    + lia.
    + lia.
    + lia.
    + vm_compute. reflexivity.
    + vm_compute. reflexivity.
    + destruct (Hok ltac:(lia)) as (L & E & _ & _ & Hout & _).
      exists L. split; [exact E | exact Hout].
Defined.

(** X18. [GLayerConvolutional1D::resize] never changes the layer: it
    returns normally exactly when asked for the sizes the layer already has,
    and throws "Changing the size of GLayerConvolutional1D is not supported"
    for any other pair of sizes. *)
Theorem GLayerConvolutional1D_resize_spec
        (L : GLayerConvolutional1D.t) (inputSize outputSize : Z) :
  (inputSize = GLayerConvolutional1D.inputs L /\
   outputSize = GLayerConvolutional1D.outputs L ->
   GLayerConvolutional1D.resize L inputSize outputSize = Ok L) /\
  (~ (inputSize = GLayerConvolutional1D.inputs L /\
      outputSize = GLayerConvolutional1D.outputs L) ->
   GLayerConvolutional1D.resize L inputSize outputSize
   = Raise (Ex "Changing the size of GLayerConvolutional1D is not supported")).
Proof.
  unfold GLayerConvolutional1D.resize, GLayerConvolutional1D.inputs,
    GLayerConvolutional1D.outputs.
  assert (Hout : wrap (wrap (GLayerConvolutional1D.m_inputChannels L
                             * GLayerConvolutional1D.m_kernelsPerChannel L)
                       * GLayerConvolutional1D.m_outputSamples L)
                 = wrap (wrap (GLayerConvolutional1D.m_outputSamples L
                               * GLayerConvolutional1D.m_inputChannels L)
                         * GLayerConvolutional1D.m_kernelsPerChannel L)).
  { rewrite !wrap_mul_l. f_equal. lia. }
  rewrite Hout. split.
  - intros [-> ->]. rewrite !Z.eqb_refl. reflexivity.
  - intros Hne.
    destruct (inputSize =? _) eqn:E1; [| reflexivity]. cbn [negb].
    destruct (outputSize =? _) eqn:E2; [| reflexivity].
    apply Z.eqb_eq in E1, E2. exfalso. apply Hne. split; assumption.
Qed.

Lemma GLayerConvolutional1D_resize_spec_witness :
  let L := conv1d_10_1_3_1 1 2 3 0.5 (GMatrix_resize 0 2 8) in
  GLayerConvolutional1D.resize L 10 8 = Ok L /\
  GLayerConvolutional1D.resize L 10 9
  = Raise (Ex "Changing the size of GLayerConvolutional1D is not supported").
Proof.
  cbv zeta. split.
  - apply (GLayerConvolutional1D_resize_spec
             (conv1d_10_1_3_1 1 2 3 0.5 (GMatrix_resize 0 2 8)) 10 8).
    split; reflexivity.
  - apply (GLayerConvolutional1D_resize_spec
             (conv1d_10_1_3_1 1 2 3 0.5 (GMatrix_resize 0 2 8)) 10 9).
    intros [_ H]. vm_compute in H. discriminate H.
Defined.

Lemma for_upto_accumulate (body : nat -> double -> result double)
      (f : nat -> double) (n : Z) (init : double) :
  (forall l d, (l < Z.to_nat n)%nat -> body l d = Ok (d + f l)%float) ->
  for_upto n body init = Ok (accumulate f (Z.to_nat n) init).
Proof.
  intros Hbody.
  destruct (for_upto_inv (fun l d => d = accumulate f l init) body n init)
    as (d & E & Hd).
  - reflexivity.
  - intros l d Hl ->. rewrite (Hbody l _ Hl).
    eexists. split; [reflexivity |]. rewrite accumulate_S. reflexivity.
  - rewrite E, Hd. reflexivity.
Qed.

Lemma accumulate_ext (f g : nat -> double) (n : nat) (init : double) :
  (forall l, (l < n)%nat -> f l = g l) ->
  accumulate f n init = accumulate g n init.
Proof.
  intros H. induction n as [|n IH]; [reflexivity |].
  rewrite !accumulate_S, IH, (H n) by (intros; try apply H; lia). reflexivity.
Qed.

Lemma store_lookup_in (buf data : list double) (off m : nat) :
  (off + length data <= length buf)%nat -> (m < length data)%nat ->
  (take off buf ++ data ++ drop (off + length data) buf) !! (off + m)%nat
  = data !! m.
Proof.
  intros Hfit Hm.
  rewrite lookup_app_r by (rewrite length_take; lia).
  rewrite length_take, Nat.min_l by lia.
  replace (off + m - off)%nat with m by lia.
  apply lookup_app_l. exact Hm.
Qed.

Lemma store_lookup_before (buf data : list double) (off p : nat) :
  (off + length data <= length buf)%nat -> (p < off)%nat ->
  (take off buf ++ data ++ drop (off + length data) buf) !! p = buf !! p.
Proof.
  intros Hfit Hp.
  rewrite lookup_app_l by (rewrite length_take; lia).
  apply lookup_take_lt. exact Hp.
Qed.

Lemma GLayerConvolutional1D_bias_copy (bias a0 : GVec) (O : Z) :
  length a0 = (Z.to_nat O * length bias)%nat ->
  exists a,
    for_upto O (fun i a => store a (length bias * i) bias) a0 = Ok a /\
    length a = length a0 /\
    forall i m, (i < Z.to_nat O)%nat -> (m < length bias)%nat ->
      a !! (i * length bias + m)%nat = Some (elt bias m).
Proof.
  intros Hlen.
  destruct (for_upto_inv
              (fun i (a : GVec) =>
                 length a = length a0 /\
                 forall i' m, (i' < i)%nat -> (m < length bias)%nat ->
                   a !! (i' * length bias + m)%nat = Some (elt bias m))
              (fun i a => store a (length bias * i) bias) O a0)
    as (a & E & Hl & Hv).
  - split; [reflexivity |]. intros; lia.
  - intros i a Hi (Hl & Hv).
    assert (Hroom : ((i + 1) * length bias <= Z.to_nat O * length bias)%nat)
      by (apply Nat.mul_le_mono_r; lia).
    assert (Hfit : (length bias * i + length bias <= length a)%nat) by lia.
    rewrite store_Ok by exact Hfit.
    eexists. split; [reflexivity |]. split.
    + rewrite !length_app, length_take, length_drop. lia.
    + intros i' m Hi' Hm. destruct (decide (i' = i)) as [-> | Hne].
      * replace (i * length bias + m)%nat with (length bias * i + m)%nat by lia.
        rewrite store_lookup_in by assumption. apply elt_lookup. exact Hm.
      * assert ((i' + 1) * length bias <= i * length bias)%nat
          by (apply Nat.mul_le_mono_r; lia).
        rewrite store_lookup_before by lia. apply Hv; lia.
  - exists a. split; [exact E |]. split; [exact Hl |].
    intros i m Hi Hm. apply Hv; assumption.
Qed.

(** X19. [GLayerConvolutional1D::feedForward] is the valid convolution of
    every channel with each of its kernels: with [C] input channels, [K]
    kernels per channel and kernels of [ks] weights, the activation of output
    sample [i], channel [j], kernel [k] sits at [(i * C + j) * K + k] and is
    [bias[j * K + k]] plus the sum over [l < ks], in index order, of
    [kernels[j * K + k][l] * in[(i + l) * C + j]].  The kernels, the bias
    and the error buffer are left as they were. *)
Theorem GLayerConvolutional1D_feedForward_spec
        (L : GLayerConvolutional1D.t) (input : GVec) :
  let O := Z.to_nat (GLayerConvolutional1D.m_outputSamples L) in
  let C := Z.to_nat (GLayerConvolutional1D.m_inputChannels L) in
  let K := Z.to_nat (GLayerConvolutional1D.m_kernelsPerChannel L) in
  let ks := Z.to_nat (GMatrix_cols (GLayerConvolutional1D.m_kernels L)) in
  GMatrix_wf (GLayerConvolutional1D.m_kernels L) ->
  length (m_rows (GLayerConvolutional1D.m_kernels L)) = (C * K)%nat ->
  length (GLayerConvolutional1D.bias L) = (C * K)%nat ->
  GMatrix_wf (GLayerConvolutional1D.m_activation L) ->
  GMatrix_rows (GLayerConvolutional1D.m_activation L) = 2 ->
  Z.to_nat (m_cols (GLayerConvolutional1D.m_activation L)) = (O * (C * K))%nat ->
  ((O + ks - 1) * C <= length input)%nat ->
  exists L' a,
    GLayerConvolutional1D.feedForward L input = Ok L' /\
    GLayerConvolutional1D.m_kernels L' = GLayerConvolutional1D.m_kernels L /\
    GLayerConvolutional1D.bias L' = GLayerConvolutional1D.bias L /\
    GLayerConvolutional1D.error L' = GLayerConvolutional1D.error L /\
    GLayerConvolutional1D.activation L' = Ok a /\
    length a = (O * (C * K))%nat /\
    forall i j k : nat, (i < O)%nat -> (j < C)%nat -> (k < K)%nat ->
      a !! ((i * C + j) * K + k)%nat
      = Some (elt (GLayerConvolutional1D.bias L) (j * K + k)
              + accumulate
                  (fun l => (entry (GLayerConvolutional1D.m_kernels L) (j * K + k) l
                             * elt input (i * C + j + l * C))%float)
                  ks 0)%float.
Proof.
  intros O C K ks Hwf Hrows Hbias HwfA HrowsA HcolsA Hinput.
  destruct (two_rows _ HwfA HrowsA) as (a0 & e0 & EA & Ha0 & He0).
  unfold GLayerConvolutional1D.feedForward, GLayerConvolutional1D.activation,
    GLayerConvolutional1D.error.
  rewrite EA.
  rewrite (GMatrix_row_lookup
             (mkGMatrix [a0; e0] (m_cols (GLayerConvolutional1D.m_activation L)))
             0 a0 eq_refl).
  mstep.
  set (bias := GLayerConvolutional1D.bias L) in *.
  set (W := GLayerConvolutional1D.m_kernels L) in *.
  assert (Hla0 : length a0 = (O * (C * K))%nat) by lia.
  (* the bias goes to every output sample *)
  destruct (GLayerConvolutional1D_bias_copy
              bias a0 (GLayerConvolutional1D.m_outputSamples L))
    as (a1 & E1 & Hla1 & Ha1).
  { fold O. rewrite Hbias. exact Hla0. }
  rewrite E1. mstep. fold O in Ha1.
  set (conv := fun i j k : nat =>
                 accumulate (fun l => (entry W (j * K + k) l
                                       * elt input (i * C + j + l * C))%float)
                            ks 0%float).
  set (Inv := fun (t : nat) (s : GLayerConvolutional1D.ff_state) =>
                GLayerConvolutional1D.ff_netPos s = t /\
                length (GLayerConvolutional1D.ff_n s) = (O * (C * K))%nat /\
                forall i j k, (i < O)%nat -> (j < C)%nat -> (k < K)%nat ->
                  GLayerConvolutional1D.ff_n s !! ((i * C + j) * K + k)%nat
                  = Some (if decide ((i * C + j) * K + k < t)%nat
                          then (elt bias (j * K + k) + conv i j k)%float
                          else elt bias (j * K + k))).
  loop_inv (fun i s => Inv (i * C * K)%nat s /\
                       GLayerConvolutional1D.ff_inPos s = (i * C)%nat)
    as (s & E & (Hpos & Hlen & Hval) & _).
  - split; [| reflexivity]. unfold Inv.
    cbn [GLayerConvolutional1D.ff_netPos GLayerConvolutional1D.ff_n].
    split; [lia |]. split; [lia |].
    intros i j k Hi Hj Hk. rewrite decide_False by lia.
    replace ((i * C + j) * K + k)%nat with (i * length bias + (j * K + k))%nat
      by (rewrite Hbias; lia).
    apply Ha1; [exact Hi |].
    rewrite Hbias.
    assert ((j + 1) * K <= C * K)%nat by (apply Nat.mul_le_mono_r; lia). lia.
  - intros i s0 Hi [HInv HinPos]. fold O in Hi.
    loop_inv (fun j s => Inv ((i * C + j) * K)%nat s /\
                         GLayerConvolutional1D.ff_inPos s = (i * C + j)%nat /\
                         GLayerConvolutional1D.ff_kern s = (j * K)%nat)
      as (s1 & E1' & HInv1 & HinPos1 & _).
    + cbn [GLayerConvolutional1D.ff_netPos GLayerConvolutional1D.ff_n
           GLayerConvolutional1D.ff_inPos GLayerConvolutional1D.ff_kern].
      split; [| split; lia].
      destruct HInv as (Hp & Hl & Hv). unfold Inv.
      cbn [GLayerConvolutional1D.ff_netPos GLayerConvolutional1D.ff_n].
      split; [lia |]. split; [exact Hl |].
      replace ((i * C + 0) * K)%nat with (i * C * K)%nat by lia. exact Hv.
    + intros j s2 Hj (HInv2 & HinPos2 & Hkern2). fold C in Hj.
      loop_inv (fun k s => Inv ((i * C + j) * K + k)%nat s /\
                           GLayerConvolutional1D.ff_inPos s = (i * C + j)%nat /\
                           GLayerConvolutional1D.ff_kern s = (j * K + k)%nat)
        as (s3 & E3 & HInv3 & HinPos3 & Hkern3).
      * split; [| split; lia].
        replace ((i * C + j) * K + 0)%nat with ((i * C + j) * K)%nat by lia.
        exact HInv2.
      * intros k s4 Hk ((Hp4 & Hl4 & Hv4) & HinPos4 & Hkern4). fold K in Hk.
        assert (HjK : (j * K + k < C * K)%nat).
        { assert ((j + 1) * K <= C * K)%nat by (apply Nat.mul_le_mono_r; lia).
          lia. }
        assert (HiCK : ((i * C + j) * K + k < O * (C * K))%nat).
        { assert ((i * C + j + 1) * K <= O * C * K)%nat.
          { apply Nat.mul_le_mono_r.
            assert ((i + 1) * C <= O * C)%nat by (apply Nat.mul_le_mono_r; lia).
            lia. }
          lia. }
        rewrite Hkern4.
        destruct (lookup_lt_is_Some_2 (m_rows W) (j * K + k)%nat ltac:(lia))
          as [w Ew].
        rewrite (GMatrix_row_lookup W _ w Ew). mstep.
        pose proof (GMatrix_wf_row W _ w Hwf Ew) as Hwlen.
        rewrite (for_upto_accumulate _
                   (fun l => (elt w l * elt input (i * C + j + l * C))%float)).
        2:{ intros l d Hl. fold ks in Hl. unfold GMatrix_cols in ks.
            rewrite HinPos4. fold C.
            assert (i * C + j + l * C < (O + ks - 1) * C)%nat.
            { assert ((i + l + 1) * C <= (O + ks - 1) * C)%nat
                by (apply Nat.mul_le_mono_r; lia).
              lia. }
            rewrite !GVec_get_elt by (subst ks; lia). reflexivity. }
        mstep. rewrite Hp4.
        rewrite GVec_get_elt by lia. mstep.
        rewrite GVec_set_Ok by lia. mstep.
        eexists. split; [reflexivity |].
        cbn [GLayerConvolutional1D.ff_netPos GLayerConvolutional1D.ff_n
             GLayerConvolutional1D.ff_inPos GLayerConvolutional1D.ff_kern].
        split; [| split; lia].
        unfold Inv.
        cbn [GLayerConvolutional1D.ff_netPos GLayerConvolutional1D.ff_n].
        split; [lia |]. split; [rewrite length_insert; exact Hl4 |].
        intros i' j' k' Hi' Hj' Hk'.
        destruct (decide ((i' * C + j') * K + k' = (i * C + j) * K + k)%nat)
          as [Heq | Hne].
        -- destruct (flat_index_inj K (i' * C + j') k' (i * C + j) k Hk' Hk Heq)
             as [Hij ->].
           destruct (flat_index_inj C i' j' i j Hj' Hj Hij) as [-> ->].
           rewrite list_lookup_insert_eq by lia.
           rewrite decide_True by lia.
           unfold elt at 1. rewrite (Hv4 i j k) by lia.
           rewrite decide_False by lia. cbn [default].
           unfold conv, GMatrix_cols. fold W. fold ks.
           do 2 f_equal. apply accumulate_ext. intros l _.
           rewrite (entry_lookup W _ l w Ew). reflexivity.
        -- rewrite list_lookup_insert_ne by congruence.
           rewrite (Hv4 i' j' k') by assumption.
           destruct (decide ((i' * C + j') * K + k' < (i * C + j) * K + k)%nat);
             destruct (decide ((i' * C + j') * K + k'
                               < (i * C + j) * K + Datatypes.S k)%nat);
             try reflexivity; lia.
      * rewrite E3. mstep. eexists. split; [reflexivity |].
        cbn [GLayerConvolutional1D.ff_netPos GLayerConvolutional1D.ff_n
             GLayerConvolutional1D.ff_inPos GLayerConvolutional1D.ff_kern].
        fold K in HInv3, Hkern3.
        split; [| split; lia].
        destruct HInv3 as (Hp & Hl & Hv). unfold Inv.
        cbn [GLayerConvolutional1D.ff_netPos GLayerConvolutional1D.ff_n].
        split; [lia |]. split; [exact Hl |].
        replace ((i * C + Datatypes.S j) * K)%nat
          with ((i * C + j) * K + K)%nat by lia.
        exact Hv.
    + rewrite E1'. mstep. eexists. split; [reflexivity |].
      fold C in HInv1, HinPos1.
      split; [| lia].
      replace (Datatypes.S i * C * K)%nat with ((i * C + C) * K)%nat by lia.
      exact HInv1.
  - rewrite E. mstep. unfold GMatrix_set_row.
    cbn [m_rows length]. rewrite decide_True by lia. mstep.
    eexists. exists (GLayerConvolutional1D.ff_n s).
    split; [reflexivity |].
    cbn [GLayerConvolutional1D.m_kernels GLayerConvolutional1D.m_activation
         GLayerConvolutional1D.m_bias].
    unfold GLayerConvolutional1D.bias.
    cbn [GLayerConvolutional1D.m_bias].
    unfold GMatrix_row.
    cbn [m_rows insert list_insert lookup list_lookup of_option].
    split; [reflexivity |]. split; [reflexivity |]. split; [reflexivity |].
    split; [reflexivity |]. split; [exact Hlen |].
    intros i j k Hi Hj Hk. rewrite (Hval i j k Hi Hj Hk).
    fold O in Hpos.
    assert ((i * C + j) * K + k < O * C * K)%nat.
    { assert ((i * C + j + 1) * K <= O * C * K)%nat.
      { apply Nat.mul_le_mono_r.
        assert ((i + 1) * C <= O * C)%nat by (apply Nat.mul_le_mono_r; lia).
        lia. }
      lia. }
    rewrite decide_True by lia. reflexivity.
Qed.

Lemma GLayerConvolutional1D_feedForward_spec_witness :
  exists L',
    GLayerConvolutional1D.feedForward
      (GLayerConvolutional1D.mk 3 2 2 1
         (mkGMatrix [[1; 2]; [3; 4]]%float 2)
         (mkGMatrix [[9; 9; 9; 9]; [0; 0; 0; 0]]%float 4)
         [0.5; 0.25]%float)
      [1; 2; 3; 4; 5; 6]%float = Ok L' /\
    GLayerConvolutional1D.activation L'
    = Ok [7.5; 22.25; 13.5; 36.25]%float.
Proof.
  pose proof (GLayerConvolutional1D_feedForward_spec
                (GLayerConvolutional1D.mk 3 2 2 1
                   (mkGMatrix [[1; 2]; [3; 4]]%float 2)
                   (mkGMatrix [[9; 9; 9; 9]; [0; 0; 0; 0]]%float 4)
                   [0.5; 0.25]%float)
                [1; 2; 3; 4; 5; 6]%float) as H.
  cbv zeta in H.
  destruct H as (L' & a & E & _).
  - unfold GMatrix_wf. repeat constructor.
  - reflexivity.
  - reflexivity.
  - unfold GMatrix_wf. repeat constructor.
  - reflexivity.
  - reflexivity.
  - vm_compute. lia.
  - exists L'. split; [exact E |].
    vm_compute in E. injection E as <-. vm_compute. reflexivity.
Defined.

(** ** GLayerConvolutional2D::Image *)

Section ImageAccess.

Import GLayerConvolutional2D.

Lemma wrap_range (z : Z) : 0 <= wrap z < size_modulus.
Proof. unfold wrap. apply Z.mod_pos_bound. reflexivity. Qed.

Lemma Image_index_in_bounds (w h c z' x y : Z) :
  0 <= x < w -> 0 <= y < h -> 0 <= z' < c ->
  let n := w * h * c in
  (0 <= y * w < n /\ 0 <= y * w + x < n /\ 0 <= (y * w + x) * c < n /\
   0 <= (y * w + x) * c + z' < n) /\
  (0 <= z' * h < n /\ 0 <= z' * h + y < n /\ 0 <= (z' * h + y) * w < n /\
   0 <= (z' * h + y) * w + x < n).
Proof.
  intros Hx Hy Hz n. subst n.
  assert (H1 : 0 <= y * w) by nia.
  assert (H2 : y * w + w <= h * w) by nia.
  assert (H3 : 0 <= z' * h) by nia.
  assert (H4 : z' * h + h <= c * h) by nia.
  assert (H5 : (y * w + x + 1) * c <= h * w * c)
    by (apply Z.mul_le_mono_nonneg_r; lia).
  assert (H6 : (z' * h + y + 1) * w <= c * h * w)
    by (apply Z.mul_le_mono_nonneg_r; lia).
  assert (H7 : 0 <= (y * w + x) * c) by (apply Z.mul_nonneg_nonneg; lia).
  assert (H8 : 0 <= (z' * h + y) * w) by (apply Z.mul_nonneg_nonneg; lia).
  assert (H9 : (y * w + x) * 1 <= (y * w + x) * c)
    by (apply Z.mul_le_mono_nonneg_l; lia).
  assert (H10 : (z' * h + y) * 1 <= (z' * h + y) * w)
    by (apply Z.mul_le_mono_nonneg_l; lia).
  repeat split; lia.
Qed.

Lemma Image_index_bounds (im : Image) (x y z : Z) :
  width im * height im * channels im < size_modulus ->
  0 <= z -> 0 <= dz im -> z + dz im < channels im ->
  (invertStride im = true -> sx im <> 0 /\ sy im <> 0) ->
  exists i,
    Image_index im x y z = Ok i /\
    (i = npos \/ 0 <= i < width im * height im * channels im).
Proof.
  intros Hfit Hz Hdz Hzc Hstride.
  assert (Htail : forall x0 y0 : Z,
            0 <= x0 -> 0 <= y0 ->
            exists i,
              (if (width im <=? x0) || (height im <=? y0) then Ok npos
               else if interlaced im
               then Ok (wrap (wrap (wrap (wrap (y0 * width im) + x0)
                                    * channels im) + wrap (z + dz im)))
               else Ok (wrap (wrap (wrap (wrap (wrap (z + dz im) * height im)
                                          + y0) * width im) + x0)))
              = Ok i /\
              (i = npos \/ 0 <= i < width im * height im * channels im)).
  { intros x0 y0 Hx0 Hy0.
    destruct (width im <=? x0) eqn:Ex; [eexists; split; [reflexivity | left; reflexivity] |].
    destruct (height im <=? y0) eqn:Ey; [eexists; split; [reflexivity | left; reflexivity] |].
    apply Z.leb_gt in Ex, Ey. cbn [orb].
    destruct (Image_index_in_bounds (width im) (height im) (channels im)
                (z + dz im) x0 y0) as [(B1 & B2 & B3 & B4) (B5 & B6 & B7 & B8)];
      try lia.
    rewrite (wrap_small (z + dz im)) by lia.
    destruct (interlaced im).
    - rewrite (wrap_small (y0 * width im)) by lia.
      rewrite (wrap_small (y0 * width im + x0)) by lia.
      rewrite (wrap_small ((y0 * width im + x0) * channels im)) by lia.
      rewrite wrap_small by lia.
      eexists. split; [reflexivity | right; lia].
    - rewrite (wrap_small ((z + dz im) * height im)) by lia.
      rewrite (wrap_small ((z + dz im) * height im + y0)) by lia.
      rewrite (wrap_small (((z + dz im) * height im + y0) * width im)) by lia.
      rewrite wrap_small by lia.
      eexists. split; [reflexivity | right; lia]. }
  assert (Hflip : forall x0 y0 : Z,
            0 <= x0 -> 0 <= y0 ->
            exists i,
              (let '(x1, y1) :=
                 if flip im
                 then (wrap (wrap (width im - x0) - 1),
                       wrap (wrap (height im - y0) - 1))
                 else (x0, y0) in
               if (width im <=? x1) || (height im <=? y1) then Ok npos
               else if interlaced im
               then Ok (wrap (wrap (wrap (wrap (y1 * width im) + x1)
                                    * channels im) + wrap (z + dz im)))
               else Ok (wrap (wrap (wrap (wrap (wrap (z + dz im) * height im)
                                          + y1) * width im) + x1)))
              = Ok i /\
              (i = npos \/ 0 <= i < width im * height im * channels im)).
  { intros x0 y0 Hx0 Hy0. destruct (flip im).
    - apply Htail; apply wrap_range.
    - apply Htail; assumption. }
  unfold Image_index. cbv zeta.
  destruct (invertStride im) eqn:Einv.
  - destruct (Hstride eq_refl) as [Hsx Hsy].
    apply Z.eqb_neq in Hsx, Hsy. rewrite Hsx.
    destruct (0 <? wrap (x + dx im) `mod` sx im);
      [eexists; split; [reflexivity | left; reflexivity] |].
    rewrite Hsy.
    destruct (0 <? wrap (y + dy im) `mod` sy im);
      [eexists; split; [reflexivity | left; reflexivity] |].
    mstep. apply Hflip; apply wrap_range.
  - mstep. apply Hflip; apply wrap_range.
Qed.

(** X20. [Image::index] never leaves the data: for an image whose
    [width * height * channels] elements fit a [size_t], a channel inside
    the image and non-zero strides, it returns either [npos] or a position
    below the size of the data, whatever [x] and [y] are and with any
    offset, padding, stride and flip.  Accordingly [Image::read] returns 0.0
    or an element of the data, and [Image::at] throws "tried to access
    invalid image location!" or returns that same element. *)
Theorem Image_access_in_bounds (im : Image) (d : GVec) (x y z : Z) :
  width im * height im * channels im < size_modulus ->
  GVec_size d = width im * height im * channels im ->
  0 <= z -> 0 <= dz im -> z + dz im < channels im ->
  (invertStride im = true -> sx im <> 0 /\ sy im <> 0) ->
  exists i,
    Image_index im x y z = Ok i /\
    ((i = npos /\
      Image_read im d x y z = Ok 0%float /\
      Image_at im d x y z = Raise (Ex "tried to access invalid image location!"))
     \/
     (0 <= i < GVec_size d /\
      Image_read im d x y z = Ok (elt d (Z.to_nat i)) /\
      Image_at im d x y z = Ok (elt d (Z.to_nat i)))).
Proof.
  intros Hfit Hd Hz Hdz Hzc Hstride.
  destruct (Image_index_bounds im x y z Hfit Hz Hdz Hzc Hstride)
    as (i & Ei & Hi).
  exists i. split; [exact Ei |].
  unfold Image_read, Image_at. rewrite Ei. mstep.
  destruct Hi as [-> | Hi].
  - left. rewrite Z.eqb_refl. repeat split.
  - right. rewrite Hd.
    replace (i =? npos) with false
      by (symmetry; apply Z.eqb_neq; unfold npos; lia).
    unfold GVec_size in Hd.
    rewrite GVec_get_elt by lia. repeat split; lia.
Qed.

Lemma Image_access_in_bounds_witness :
  Image_read (Image_new ActivationData 2 2 1) [1; 2; 3; 4]%float 1 1 0
  = Ok 4%float /\
  Image_read (Image_new ActivationData 2 2 1) [1; 2; 3; 4]%float 2 1 0
  = Ok 0%float.
Proof.
  split.
  - destruct (Image_access_in_bounds
                (Image_new ActivationData 2 2 1) [1; 2; 3; 4]%float 1 1 0)
      as (i & Ei & [(-> & _) | (_ & Er & _)]).
    + reflexivity.
    + reflexivity.
    + lia.
    + cbn. lia.
    + cbn. lia.
    + intros H. discriminate H.
    + vm_compute in Ei. discriminate Ei.
    + rewrite Er. vm_compute in Ei. injection Ei as <-. reflexivity.
  - destruct (Image_access_in_bounds
                (Image_new ActivationData 2 2 1) [1; 2; 3; 4]%float 2 1 0)
      as (i & Ei & [(_ & Er & _) | (Hi & _)]).
    + reflexivity.
    + reflexivity.
    + lia.
    + cbn. lia.
    + cbn. lia.
    + intros H. discriminate H.
    + exact Er.
    + vm_compute in Ei. injection Ei as <-. vm_compute in Hi.
      destruct Hi as [_ Hi]. discriminate Hi.
Defined.

Lemma wrap_flip (n x : Z) :
  wrap (wrap (n - wrap x) - 1) = wrap (wrap (n - 1 - x)).
Proof.
  unfold wrap.
  rewrite Zminus_mod_idemp_l, Z.mod_mod by discriminate.
  replace (n - x mod size_modulus - 1) with ((n - 1) - x mod size_modulus) by lia.
  rewrite Zminus_mod_idemp_r. reflexivity.
Qed.

(** X21. On an image without offset and padding, [flip] is the rotation
    by 180 degrees: the flipped image has at [(x, y, z)] what the unflipped
    one has at [(width - 1 - x, height - 1 - y, z)], in [size_t] arithmetic
    and also outside the image. *)
Theorem Image_index_flip (im : Image) (x y z : Z) :
  invertStride im = false ->
  dx im = 0 -> dy im = 0 -> px im = 0 -> py im = 0 ->
  Image_index (Image_set_flip im true) x y z
  = Image_index (Image_set_flip im false)
                (wrap (width im - 1 - x)) (wrap (height im - 1 - y)) z.
Proof.
  intros Hinv Hdx Hdy Hpx Hpy.
  unfold Image_index, Image_set_flip.
  cbn [invertStride flip dx dy dz px py sx sy width height channels interlaced].
  rewrite Hinv, Hdx, Hdy, Hpx, Hpy. mstep.
  change (wrap (wrap (0 * sx im) - 0)) with 0.
  change (wrap (wrap (0 * sy im) - 0)) with 0.
  rewrite !Z.add_0_r.
  assert (Hx : wrap (wrap (width im - wrap x) - 1)
               = wrap (wrap (width im - 1 - x))).
  { apply wrap_flip. }
  assert (Hy : wrap (wrap (height im - wrap y) - 1)
               = wrap (wrap (height im - 1 - y))).
  { apply wrap_flip. }
  rewrite Hx, Hy. reflexivity.
Qed.

Lemma Image_index_flip_witness :
  Image_index (Image_set_flip (Image_new ActivationData 3 2 1) true) 0 0 0
  = Ok 5 /\
  Image_index (Image_new ActivationData 3 2 1) 2 1 0 = Ok 5.
Proof.
  pose proof (Image_index_flip (Image_new ActivationData 3 2 1) 0 0 0
                eq_refl eq_refl eq_refl eq_refl eq_refl) as H.
  split.
  - rewrite H. reflexivity.
  - reflexivity.
Defined.

End ImageAccess.

(** ** GLayerLogistic: range, monotonicity, derivative *)

Section Logistic.

Local Open Scope R_scope.

Lemma logistic_pos (x : R) : 0 < exp (- x) + 1.
Proof. pose proof (exp_pos (- x)). lra. Qed.








End Logistic.

(** ** GLayerRectifier *)

Lemma SFcompare_finite_refl (s : bool) (m : positive) (e : Z) :
  SpecFloat.SFcompare (SpecFloat.S754_finite s m e) (SpecFloat.S754_finite s m e)
  = Some Eq.
Proof.
  cbn [SpecFloat.SFcompare]. rewrite Z.compare_refl.
  destruct s; rewrite ?Pos.compare_cont_refl; cbn; rewrite ?Pos.compare_cont_refl; reflexivity.
Qed.

(** X24. [GLayerRectifier::eval] is [std::max(0.0, x)], that is
    [(0.0 < x) ? x : 0.0]: its result is never a NaN and never below zero,
    and a NaN input gives 0.0.  [GLayerRectifier::derivative] is 1.0 or 0.0. *)
Theorem GLayerRectifier_eval_never_negative (x f_x : double) :
  is_nan (GLayerActivation.rectifier_eval x) = false /\
  (GLayerActivation.rectifier_eval x <? 0)%float = false /\
  (is_nan x = true -> GLayerActivation.rectifier_eval x = 0%float) /\
  (GLayerActivation.rectifier_derivative x f_x = 1%float \/
   GLayerActivation.rectifier_derivative x f_x = 0%float).
Proof.
  unfold GLayerActivation.rectifier_eval, GLayerActivation.rectifier_derivative.
  split; [| split; [| split]].
  - destruct (0 <? x)%float eqn:E; [| reflexivity].
    unfold is_nan. rewrite FloatAxioms.eqb_spec. rewrite FloatAxioms.ltb_spec in E.
    change (Prim2SF 0) with (SpecFloat.S754_zero false) in E.
    unfold SpecFloat.SFltb, SpecFloat.SFeqb in *.
    destruct (Prim2SF x) as [s | s | | s m e].
    + reflexivity.
    + destruct s; reflexivity.
    + discriminate E.
    + rewrite SFcompare_finite_refl. reflexivity.
  - destruct (0 <? x)%float eqn:E; [| reflexivity].
    rewrite FloatAxioms.ltb_spec in *.
    change (Prim2SF 0) with (SpecFloat.S754_zero false) in *.
    unfold SpecFloat.SFltb in *.
    destruct (Prim2SF x) as [s | s | | s m e]; cbn in *;
      try discriminate E; try reflexivity;
      destruct s; try discriminate E; reflexivity.
  - intros Hnan. destruct (0 <? x)%float eqn:E; [| reflexivity].
    exfalso. unfold is_nan in Hnan. rewrite FloatAxioms.eqb_spec in Hnan.
    rewrite FloatAxioms.ltb_spec in E.
    change (Prim2SF 0) with (SpecFloat.S754_zero false) in E.
    unfold SpecFloat.SFltb, SpecFloat.SFeqb in *.
    destruct (Prim2SF x) as [s | s | | s m e].
    + discriminate Hnan.
    + destruct s; discriminate Hnan.
    + discriminate E.
    + rewrite SFcompare_finite_refl in Hnan. discriminate Hnan.
  - destruct (0 <=? x)%float; [left | right]; reflexivity.
Qed.

Lemma GLayerRectifier_eval_never_negative_witness :
  GLayerActivation.rectifier_eval nan = 0%float.
Proof.
  apply (GLayerRectifier_eval_never_negative nan 0%float). reflexivity.
Defined.

(** ** GLayerLinear: scaleWeights *)

(** X25. [GLayerLinear::scaleWeights] multiplies every element of the
    [inputs()] weight rows by [factor]; the bias row is multiplied too when
    [scaleBiases] is set and is left exactly as it was when not.  The shape
    and the activation buffers do not change. *)
Theorem GLayerLinear_scaleWeights_spec (L : GLayerLinear.t) (factor : double)
        (scaleBiases : bool) :
  GLayerLinear.wf L ->
  exists L',
    GLayerLinear.scaleWeights L factor scaleBiases = Ok L' /\
    GLayerLinear.m_activation L' = GLayerLinear.m_activation L /\
    GLayerLinear.inputs L' = GLayerLinear.inputs L /\
    GLayerLinear.outputs L' = GLayerLinear.outputs L /\
    forall (i : nat) (r : GVec),
      m_rows (GLayerLinear.m_weights L) !! i = Some r ->
      m_rows (GLayerLinear.m_weights L') !! i
      = Some (if (Z.of_nat i <? GLayerLinear.inputs L) || scaleBiases
              then GVec_scale r factor else r).
Proof.
  intros Hwf.
  pose proof (GLayerLinear_wf_inputs L Hwf) as Hinputs.
  destruct Hwf as (Hw & Ha & H1 & Hfit & Har & Hac).
  unfold GLayerLinear.scaleWeights. rewrite Hinputs.
  destruct L as [W A].
  unfold GLayerLinear.inputs, GLayerLinear.outputs, GMatrix_rows, GMatrix_cols in *.
  cbn [GLayerLinear.m_weights GLayerLinear.m_activation] in *.
  set (nr := length (m_rows W)) in *.
  loop_inv (fun i (w : GMatrix) =>
              length (m_rows w) = nr /\ m_cols w = m_cols W /\
              forall k r, m_rows W !! k = Some r ->
                m_rows w !! k
                = Some (if decide (k < i)%nat then GVec_scale r factor else r))
    as (w & E & Hlen & Hcols & Hval).
  - split; [reflexivity |]. split; [reflexivity |].
    intros k r Hr. rewrite decide_False by lia. exact Hr.
  - intros i w Hi (Hlen & Hcols & Hval).
    destruct (lookup_lt_is_Some_2 (m_rows W) i ltac:(fold nr; lia)) as [r Er].
    pose proof (Hval i r Er) as Hwi. rewrite decide_False in Hwi by lia.
    rewrite (GMatrix_row_lookup w i r Hwi). mstep.
    unfold GMatrix_set_row. rewrite decide_True by lia.
    eexists. split; [reflexivity |]. cbn [m_rows m_cols].
    split; [rewrite length_insert; exact Hlen |]. split; [exact Hcols |].
    intros k r' Hr'. destruct (decide (k = i)) as [-> | Hne].
    + rewrite list_lookup_insert_eq by lia.
      rewrite decide_True by lia. congruence.
    + rewrite list_lookup_insert_ne by congruence.
      rewrite (Hval k r' Hr').
      destruct (decide (k < i)%nat); destruct (decide (k < Datatypes.S i)%nat);
        try reflexivity; lia.
  - rewrite E. mstep.
    destruct (lookup_lt_is_Some_2 (m_rows W) (nr - 1)%nat ltac:(fold nr; lia))
      as [b Eb].
    pose proof (Hval _ b Eb) as Hwb. rewrite decide_False in Hwb by lia.
    destruct scaleBiases.
    + unfold GMatrix_back. rewrite last_lookup, Hlen.
      replace (Nat.pred nr) with (nr - 1)%nat by lia.
      rewrite Hwb. cbn [of_option]. mstep.
      unfold GMatrix_set_row. rewrite Hlen, decide_True by lia. mstep.
      eexists. split; [reflexivity |].
      cbn [GLayerLinear.m_weights GLayerLinear.m_activation m_rows m_cols].
      rewrite length_insert, Hlen.
      split; [reflexivity |]. split; [exact Hinputs |]. split; [exact Hcols |].
      intros i r Er. rewrite orb_true_r.
      destruct (decide (i = nr - 1)%nat) as [-> | Hne].
      * rewrite list_lookup_insert_eq by lia. congruence.
      * rewrite list_lookup_insert_ne by congruence.
        rewrite (Hval i r Er).
        pose proof (lookup_lt_Some _ _ _ Er). fold nr in H.
        rewrite decide_True by lia. reflexivity.
    + mstep. eexists. split; [reflexivity |].
      cbn [GLayerLinear.m_weights GLayerLinear.m_activation].
      rewrite Hlen.
      split; [reflexivity |]. split; [exact Hinputs |]. split; [exact Hcols |].
      intros i r Er. rewrite orb_false_r. rewrite (Hval i r Er).
      destruct (decide (i < Z.to_nat (Z.of_nat nr - 1))%nat);
        destruct (Z.of_nat i <? Z.of_nat nr - 1) eqn:Elt;
        try reflexivity;
        [apply Z.ltb_ge in Elt | apply Z.ltb_lt in Elt]; lia.
Qed.

Lemma GLayerLinear_scaleWeights_spec_witness :
  exists L',
    GLayerLinear.scaleWeights linear_2x2 2%float false = Ok L' /\
    GLayerLinear.m_weights L'
    = mkGMatrix [[2; 4]; [6; 8]; [0.5; 0.25]]%float 2.
Proof.
  destruct (GLayerLinear_scaleWeights_spec linear_2x2 2%float false)
    as (L' & E & _).
  - unfold GLayerLinear.wf, GMatrix_wf.
    repeat split; try (vm_compute; reflexivity); try (vm_compute; discriminate);
      repeat constructor.
  - exists L'. split; [exact E |].
    vm_compute in E. injection E as <-. vm_compute. reflexivity.
Defined.

(** ** GLayerConvolutional2D: construction, stride, addKernel *)

Section Conv2D.

Import GLayerConvolutional2D.

Lemma mul_le_4 (a a' b b' : Z) :
  0 <= a <= a' -> 0 <= b <= b' -> 0 <= a * b <= a' * b'.
Proof. intros Ha Hb. split; [nia |]. apply Z.mul_le_mono_nonneg; lia. Qed.

(** X26. [GLayerConvolutional2D(width, height, channels, kWidth, kHeight,
    kCount)] with kernels no larger than the image: [inputs()] is
    [width * height * channels], [outputs()] is
    [(width - kWidth + 1) * (height - kHeight + 1) * kCount], [countWeights()]
    is [kCount * (kWidth * kHeight * channels + 1)], there is a kernel row of
    [kWidth * kHeight * channels] weights and a bias element per kernel, and
    the activation and error buffers have [outputs()] elements. *)
Theorem GLayerConvolutional2D_new_shape
        (junk : double) (w h c kw kh k : Z) :
  0 <= kw <= w -> 0 <= kh <= h -> 0 <= c -> 0 <= k ->
  (w + 1) * (h + 1) * (c + 1) * (k + 1) < size_modulus ->
  let L := new junk w h c kw kh k in
  inputs L = w * h * c /\
  outputs L = (w - kw + 1) * (h - kh + 1) * k /\
  countWeights L = k * (kw * kh * c + 1) /\
  GMatrix_wf (m_kernels L) /\
  GMatrix_rows (m_kernels L) = k /\
  GMatrix_cols (m_kernels L) = kw * kh * c /\
  GVec_size (m_bias L) = k /\
  buffers_match (activation L) (error L) (outputs L).
Proof.
  intros Hkw Hkh Hc Hk Hfit. cbv zeta.
  set (ow := w - kw + 1). set (oh := h - kh + 1).
  pose proof (mul_le_4 w (w + 1) h (h + 1) ltac:(lia) ltac:(lia)) as Hwh.
  pose proof (mul_le_4 (w * h) ((w + 1) * (h + 1)) c (c + 1)
                ltac:(lia) ltac:(lia)) as Hwhc.
  pose proof (mul_le_4 ((w + 1) * (h + 1) * (c + 1))
                ((w + 1) * (h + 1) * (c + 1)) 1 (k + 1)
                ltac:(lia) ltac:(lia)) as Hbig1.
  pose proof (mul_le_4 kw w kh h ltac:(lia) ltac:(lia)) as Hk2.
  pose proof (mul_le_4 (kw * kh) (w * h) c c ltac:(lia) ltac:(lia)) as Hk3.
  pose proof (mul_le_4 ow (w + 1) oh (h + 1) ltac:(lia) ltac:(lia)) as Ho2.
  pose proof (mul_le_4 (ow * oh) ((w + 1) * (h + 1)) k (k + 1)
                ltac:(lia) ltac:(lia)) as Ho3.
  pose proof (mul_le_4 ((w + 1) * (h + 1)) ((w + 1) * (h + 1)) 1 (c + 1)
                ltac:(lia) ltac:(lia)) as Ho4.
  pose proof (mul_le_4 ((w + 1) * (h + 1) * 1) ((w + 1) * (h + 1) * (c + 1))
                (k + 1) (k + 1) ltac:(lia) ltac:(lia)) as Ho5.
  assert (Hc1 : kw * kh * c + 1 <= (w + 1) * (h + 1) * (c + 1)).
  { replace ((w + 1) * (h + 1) * (c + 1))
      with (w * h * c + w * h + w * c + h * c + w + h + c + 1) by ring.
    pose proof (Z.mul_nonneg_nonneg w c ltac:(lia) ltac:(lia)).
    pose proof (Z.mul_nonneg_nonneg h c ltac:(lia) ltac:(lia)).
    lia. }
  pose proof (mul_le_4 (kw * kh * c + 1) ((w + 1) * (h + 1) * (c + 1))
                k (k + 1) ltac:(lia) ltac:(lia)) as Hcw.
  pose proof (mul_le_4 (kw * kh * c) (kw * kh * c) k k ltac:(lia) ltac:(lia))
    as Hck.
  unfold new, inputs, outputs, countWeights, activation, error,
    GMatrix_cols, GVec_size.
  cbn [m_width m_height m_channels m_kWidth m_kHeight m_outputWidth
       m_outputHeight m_bias m_kernels m_activation].
  rewrite (wrap_small (w - kw)) by lia. fold ow.
  rewrite (wrap_small (h - kh)) by lia. fold oh.
  rewrite (wrap_small ow), (wrap_small oh) by lia.
  rewrite (wrap_small (w * h)) by lia.
  rewrite (wrap_small (w * h * c)) by lia.
  rewrite (wrap_small (kw * kh)) by lia.
  rewrite (wrap_small (kw * kh * c)) by lia.
  rewrite (wrap_small (ow * oh)) by lia.
  rewrite length_replicate, Z2Nat.id by lia.
  rewrite (wrap_small (ow * oh * k)) by lia.
  rewrite GMatrix_resize_rows by lia.
  rewrite (wrap_small (kw * kh * c * k)) by lia.
  rewrite (wrap_small (kw * kh * c * k + k)) by lia.
  cbn [GMatrix_resize m_cols].
  split; [reflexivity |]. split; [reflexivity |]. split; [lia |].
  split; [apply GMatrix_resize_wf; lia |].
  split; [reflexivity |]. split; [reflexivity |]. split; [reflexivity |].
  apply GMatrix_resize_2_buffers. lia.
Qed.

Lemma GLayerConvolutional2D_new_shape_witness :
  outputs (new 0%float 7 5 3 3 3 2) = 30 /\
  countWeights (new 0%float 7 5 3 3 3 2) = 56.
Proof.
  destruct (GLayerConvolutional2D_new_shape 0%float 7 5 3 3 3 2)
    as (_ & Ho & Hc & _).
  - lia.
  - lia.
  - lia.
  - lia.
  - vm_compute. reflexivity.
  - split; [exact Ho | exact Hc].
Defined.

(** X27. [GLayerConvolutional2D::setStride] with positive strides gives the
    output the size [(width - kWidth + 2 * px) / sx + 1] by
    [(height - kHeight + 2 * py) / sy + 1], keeps kernels and bias, points
    the activation image at an image of that size, and reallocates the
    buffers so that the activation and the error have [outputs()] elements
    again. *)
Theorem GLayerConvolutional2D_setStride_spec
        (junk : double) (L : t) (sx' sy' : Z) :
  0 <= m_kWidth L <= m_width L -> 0 <= m_kHeight L <= m_height L ->
  0 <= px (m_inputImage L) -> 0 <= py (m_inputImage L) ->
  m_width L + 2 * px (m_inputImage L) + 1 < size_modulus ->
  m_height L + 2 * py (m_inputImage L) + 1 < size_modulus ->
  1 <= sx' -> 1 <= sy' < none ->
  GVec_size (m_bias L) = GMatrix_rows (m_kernels L) ->
  exists L',
    setStride junk L sx' sy' = Ok L' /\
    m_outputWidth L'
    = (m_width L - m_kWidth L + 2 * px (m_inputImage L)) / sx' + 1 /\
    m_outputHeight L'
    = (m_height L - m_kHeight L + 2 * py (m_inputImage L)) / sy' + 1 /\
    m_kernels L' = m_kernels L /\ m_bias L' = m_bias L /\
    width (m_actImage L') = m_outputWidth L' /\
    height (m_actImage L') = m_outputHeight L' /\
    buffers_match (activation L') (error L') (outputs L').
Proof.
  intros Hkw Hkh Hpx Hpy Hw Hh Hsx Hsy Hbias.
  unfold setStride, updateOutputSize. cbv zeta.
  replace (sy' =? none) with false by (symmetry; apply Z.eqb_neq; lia).
  cbn [with_inputImage Image_set_stride_padding m_inputImage sx sy px py
       m_width m_height m_kWidth m_kHeight m_kernels m_bias m_biasDelta
       m_channels m_kernelImage m_deltaImage m_upStreamErrorImage
       m_actImage m_errImage].
  replace (sx' =? 0) with false by (symmetry; apply Z.eqb_neq; lia).
  replace (sy' =? 0) with false by (symmetry; apply Z.eqb_neq; lia).
  set (pX := px (m_inputImage L)) in *. set (pY := py (m_inputImage L)) in *.
  rewrite (wrap_small (m_width L - m_kWidth L)) by lia.
  rewrite (wrap_small (m_height L - m_kHeight L)) by lia.
  rewrite (wrap_small (2 * pX)), (wrap_small (2 * pY)) by lia.
  rewrite (wrap_small (m_width L - m_kWidth L + 2 * pX)) by lia.
  rewrite (wrap_small (m_height L - m_kHeight L + 2 * pY)) by lia.
  assert (Hqx : 0 <= (m_width L - m_kWidth L + 2 * pX) / sx'
                <= m_width L - m_kWidth L + 2 * pX).
  { split; [apply Z.div_pos; lia |]. apply Z.div_le_upper_bound; [lia |]. nia. }
  assert (Hqy : 0 <= (m_height L - m_kHeight L + 2 * pY) / sy'
                <= m_height L - m_kHeight L + 2 * pY).
  { split; [apply Z.div_pos; lia |]. apply Z.div_le_upper_bound; [lia |]. nia. }
  rewrite (wrap_small ((m_width L - m_kWidth L + 2 * pX) / sx' + 1)) by lia.
  rewrite (wrap_small ((m_height L - m_kHeight L + 2 * pY) / sy' + 1)) by lia.
  eexists. split; [reflexivity |].
  unfold outputs, activation, error.
  cbn [m_outputWidth m_outputHeight m_kernels m_bias m_activation
       m_actImage Image_set_output width height].
  rewrite Hbias.
  repeat (split; [reflexivity |]).
  apply GMatrix_resize_2_buffers. apply wrap_range.
Qed.

Lemma GLayerConvolutional2D_setStride_spec_witness :
  exists L',
    setStride 0%float (new 0%float 7 5 1 3 3 2) 2 1 = Ok L' /\
    m_outputWidth L' = 3 /\ m_outputHeight L' = 3 /\
    outputs L' = 18.
Proof.
  destruct (GLayerConvolutional2D_setStride_spec
              0%float (new 0%float 7 5 1 3 3 2) 2 1)
    as (L' & E & Hw & Hh & _).
  - cbn. lia.
  - cbn. lia.
  - cbn. lia.
  - cbn. lia.
  - vm_compute. reflexivity.
  - vm_compute. reflexivity.
  - lia.
  - split; [lia | vm_compute; reflexivity].
  - reflexivity.
  - exists L'. split; [exact E |].
    vm_compute in E. injection E as <-. repeat split.
Defined.

(** X28. [GLayerConvolutional2D::addKernel] resizes the bias after the
    kernel matrix has grown, to [m_kernels.rows() + 1]: a layer that had one
    bias element per kernel comes out with [k + 1] kernels and [k + 2] bias
    elements (the old bias at the front).  The activation buffer is sized
    for [k + 1] channels, while [outputs()], which counts the bias, reports
    [k + 2]. *)
Theorem GLayerConvolutional2D_addKernel_miscounts (junk : double) (L : t) :
  sx (m_inputImage L) <> 0 -> sy (m_inputImage L) <> 0 ->
  GVec_size (m_bias L) = GMatrix_rows (m_kernels L) ->
  GMatrix_rows (m_kernels L) + 2 < size_modulus ->
  exists L',
    addKernel junk L = Ok L' /\
    GMatrix_rows (m_kernels L') = GMatrix_rows (m_kernels L) + 1 /\
    GVec_size (m_bias L') = GMatrix_rows (m_kernels L) + 2 /\
    take (length (m_bias L)) (m_bias L') = m_bias L /\
    channels (m_actImage L') = GMatrix_rows (m_kernels L) + 1 /\
    GMatrix_cols (m_activation L')
    = wrap (wrap (m_outputWidth L' * m_outputHeight L')
            * (GMatrix_rows (m_kernels L) + 1)) /\
    outputs L'
    = wrap (wrap (m_outputWidth L' * m_outputHeight L')
            * (GMatrix_rows (m_kernels L) + 2)).
Proof.
  intros Hsx Hsy Hbias Hfit.
  unfold addKernel. cbv zeta.
  unfold GMatrix_rows, GVec_size in *.
  set (k := length (m_rows (m_kernels L))) in *.
  rewrite (wrap_small (Z.of_nat k + 1)) by lia.
  assert (Hrows : Z.of_nat (length (m_rows (GMatrix_resize junk (Z.of_nat k + 1)
                                              (GMatrix_cols (m_kernels L)))))
                  = Z.of_nat k + 1).
  { apply (GMatrix_resize_rows junk (Z.of_nat k + 1)). lia. }
  rewrite Hrows.
  rewrite (wrap_small (Z.of_nat k + 1 + 1)) by lia.
  rewrite store_Ok by (rewrite length_replicate; lia).
  mstep. unfold updateOutputSize. cbv zeta.
  cbn [m_inputImage m_width m_height m_kWidth m_kHeight m_kernels m_bias
       m_biasDelta m_channels m_kernelImage m_deltaImage m_upStreamErrorImage
       m_actImage m_errImage].
  apply Z.eqb_neq in Hsx, Hsy. rewrite Hsx, Hsy.
  eexists. split; [reflexivity |].
  unfold outputs, GVec_size, GMatrix_cols.
  cbn [m_outputWidth m_outputHeight m_kernels m_bias m_activation
       m_actImage Image_set_output Image_set_channels channels
       GMatrix_resize m_cols m_rows].
  rewrite !length_app, length_take, length_drop, !length_replicate.
  split; [lia |]. split; [lia |].
  split.
  { rewrite take_0. cbn [app]. rewrite take_app_length. reflexivity. }
  split; [lia |].
  split.
  - rewrite (GMatrix_resize_rows junk (Z.of_nat k + 1)) by lia. reflexivity.
  - do 2 f_equal. lia.
Qed.

Lemma GLayerConvolutional2D_addKernel_miscounts_witness :
  exists L',
    addKernel 0%float (new 0%float 4 4 1 3 3 1) = Ok L' /\
    GMatrix_cols (m_activation L') = 8 /\ outputs L' = 12.
Proof.
  destruct (GLayerConvolutional2D_addKernel_miscounts
              0%float (new 0%float 4 4 1 3 3 1)) as (L' & E & _).
  - cbn. discriminate.
  - cbn. discriminate.
  - reflexivity.
  - vm_compute. reflexivity.
  - exists L'. split; [exact E |].
    vm_compute in E. injection E as <-. split; reflexivity.
Defined.

End Conv2D.

(** ** GMaxPooling2D: construction *)

(** X29. [GMaxPooling2D(inputCols, inputRows, inputChannels, regionSize)]
    throws when [inputCols], or else [inputRows], is no multiple of
    [regionSize]; past these two checks [regionSize] is not used: the layer
    is the one any other admissible region size gives, [m_regionSize] keeps
    its indeterminate value, and [outputs()] and the buffers are sized by
    that value. *)
Theorem GMaxPooling2D_new_spec
        (junk : double) (junk_regionSize : Z)
        (inputCols inputRows inputChannels regionSize : Z) :
  regionSize <> 0 ->
  (inputCols mod regionSize <> 0 ->
   GMaxPooling2D.new junk junk_regionSize inputCols inputRows inputChannels
                     regionSize
   = Raise (Ex "inputCols is not a multiple of regionSize")) /\
  (inputCols mod regionSize = 0 -> inputRows mod regionSize <> 0 ->
   GMaxPooling2D.new junk junk_regionSize inputCols inputRows inputChannels
                     regionSize
   = Raise (Ex "inputRows is not a multiple of regionSize")) /\
  (inputCols mod regionSize = 0 -> inputRows mod regionSize = 0 ->
   GMaxPooling2D.new junk junk_regionSize inputCols inputRows inputChannels
                     regionSize
   = GMaxPooling2D.new junk junk_regionSize inputCols inputRows inputChannels 1
   /\
   (wrap (junk_regionSize * junk_regionSize) <> 0 ->
    exists L,
      GMaxPooling2D.new junk junk_regionSize inputCols inputRows inputChannels
                        regionSize = Ok L /\
      GMaxPooling2D.m_regionSize L = junk_regionSize /\
      GMaxPooling2D.outputs L
      = Ok (wrap (wrap (inputRows * inputCols) * inputChannels)
            / wrap (junk_regionSize * junk_regionSize)) /\
      buffers_match (GMaxPooling2D.activation L) (GMaxPooling2D.error L)
                    (wrap (wrap (inputRows * inputCols) * inputChannels)
                     / wrap (junk_regionSize * junk_regionSize)))).
Proof.
  intros Hr. unfold GMaxPooling2D.new.
  replace (regionSize =? 0) with false by (symmetry; apply Z.eqb_neq; exact Hr).
  split; [| split].
  - intros Hc. apply Z.eqb_neq in Hc. rewrite Hc. reflexivity.
  - intros Hc Hrow. rewrite Hc. apply Z.eqb_neq in Hrow. rewrite Hrow.
    reflexivity.
  - intros Hc Hrow. rewrite Hc, Hrow, !Z.mod_1_r. cbn [Z.eqb negb].
    split; [reflexivity |].
    intros Hj. apply Z.eqb_neq in Hj. rewrite Hj.
    eexists. split; [reflexivity |].
    unfold GMaxPooling2D.outputs, GMaxPooling2D.activation, GMaxPooling2D.error.
    cbn [GMaxPooling2D.m_regionSize GMaxPooling2D.m_inputRows
         GMaxPooling2D.m_inputCols GMaxPooling2D.m_inputChannels
         GMaxPooling2D.m_activation].
    rewrite Hj. split; [reflexivity |]. split; [reflexivity |].
    apply GMatrix_resize_2_buffers.
    apply Z.div_pos; [apply wrap_range |].
    apply Z.eqb_neq in Hj. pose proof (wrap_range (junk_regionSize * junk_regionSize)).
    lia.
Qed.

Lemma GMaxPooling2D_new_spec_witness :
  GMaxPooling2D.new 0%float 7 5 4 1 2
  = Raise (Ex "inputCols is not a multiple of regionSize") /\
  GMaxPooling2D.new 0%float 7 4 4 1 2 = GMaxPooling2D.new 0%float 7 4 4 1 1.
Proof.
  split.
  - apply (GMaxPooling2D_new_spec 0%float 7 5 4 1 2).
    + discriminate.
    + vm_compute. discriminate.
  - apply (GMaxPooling2D_new_spec 0%float 7 4 4 1 2).
    + discriminate.
    + reflexivity.
    + reflexivity.
Defined.

(** ** What weightsToVector writes *)

Lemma store_Raise (buf : list double) (off : nat) (data : list double) :
  (length buf < off + length data)%nat -> store buf off data = Raise Undefined.
Proof. intros H. unfold store. rewrite decide_False by lia. reflexivity. Qed.

Lemma store_drop (buf buf' : list double) (off : nat) (data : list double) :
  store buf off data = Ok buf' ->
  drop (off + length data) buf' = drop (off + length data) buf.
Proof.
  unfold store. destruct (decide _) as [H | H]; [| discriminate].
  intros E. injection E as <-.
  rewrite drop_app_ge by (rewrite length_take; lia).
  rewrite length_take, Nat.min_l by lia.
  replace (off + length data - off)%nat with (length data) by lia.
  rewrite drop_app_length. reflexivity.
Qed.

(** Two consecutive blocks written at the start of a buffer. *)
Lemma store_two_blocks (buf d1 d2 : list double)
      (k : list double -> result (list double * Z)) (n : Z) :
  (forall b, k b = Ok (b, n)) ->
  let write := b1 ← store buf 0 d1; b2 ← store b1 (length d1) d2; k b2 in
  ((length d1 + length d2 <= length buf)%nat ->
   exists buf', write = Ok (buf', n) /\ length buf' = length buf /\
                drop (length d1 + length d2) buf'
                = drop (length d1 + length d2) buf) /\
  ((length buf < length d1 + length d2)%nat -> write = Raise Undefined).
Proof.
  intros Hk write. subst write. split.
  - intros Hroom.
    destruct (store buf 0 d1) as [b1 |] eqn:E1;
      [| rewrite store_Ok in E1 by (simpl; lia); discriminate E1].
    pose proof (store_length _ _ _ _ E1) as Hl1.
    pose proof (store_drop _ _ _ _ E1) as Hd1. cbn [Nat.add] in Hd1.
    mstep.
    destruct (store b1 (length d1) d2) as [b2 |] eqn:E2;
      [| rewrite store_Ok in E2 by lia; discriminate E2].
    pose proof (store_length _ _ _ _ E2) as Hl2.
    pose proof (store_drop _ _ _ _ E2) as Hd2.
    mstep. rewrite Hk. exists b2. split; [reflexivity |].
    split; [lia |].
    rewrite Hd2. rewrite <- (drop_drop b1), Hd1, drop_drop. reflexivity.
  - intros Hshort.
    destruct (decide (length buf < length d1)%nat) as [H1 | H1].
    + rewrite store_Raise by (simpl; lia). reflexivity.
    + rewrite store_Ok by (simpl; lia). mstep.
      rewrite store_Raise; [reflexivity |].
      rewrite !length_app, length_take, length_drop. cbn [Nat.add]. lia.
Qed.

(** X30. [weightsToVector] of a linear, maxout or convolutional layer
    touches exactly the first [rows * cols] (linear) or [rows * (cols + 1)]
    (the others) doubles of the buffer it is given: with that much room it
    succeeds and leaves everything after them as it was, and with less it
    writes past the end of the buffer. *)
Theorem weightsToVector_footprint (P : GParameterizedLayer) (buf : list double) :
  shaped P -> is_rbm P = false ->
  (stored_weights P <= Z.of_nat (length buf) ->
   exists buf' n,
     weightsToVector P buf = Ok (buf', n) /\
     length buf' = length buf /\
     drop (Z.to_nat (stored_weights P)) buf'
     = drop (Z.to_nat (stored_weights P)) buf) /\
  (Z.of_nat (length buf) < stored_weights P ->
   weightsToVector P buf = Raise Undefined).
Proof.
  intros Hshape Hrbm.
  destruct P as [L | L | L | L | L]; cbn [is_rbm] in Hrbm; try discriminate;
    cbn [shaped stored_weights weightsToVector] in *.
  - (* GLayerLinear *)
    destruct Hshape as (Hw & _ & H1 & Hfit & _).
    pose proof (GMatrix_stored_length _ Hw) as Hlen.
    unfold GLayerLinear.weightsToVector, GMatrix_toVector.
    rewrite <- Hlen, Nat2Z.id. split.
    + intros Hroom.
      destruct (store buf 0 (concat (m_rows (GLayerLinear.m_weights L))))
        as [b |] eqn:E;
        [| rewrite store_Ok in E by (simpl; lia); discriminate E].
      mstep. do 2 eexists. split; [reflexivity |].
      split; [exact (store_length _ _ _ _ E) |].
      exact (store_drop _ _ _ _ E).
    + intros Hshort. rewrite store_Raise by (simpl; lia). reflexivity.
  - (* GLayerMaxOut *)
    destruct Hshape as (Hw & Hbw & Hb1 & Hbc).
    pose proof (GMatrix_stored_length _ Hw) as Hlen.
    unfold GLayerMaxOut.weightsToVector, GLayerMaxOut.bias,
      GLayerMaxOut.inputs, GLayerMaxOut.outputs, GMatrix_toVector.
    set (W := GLayerMaxOut.m_weights L) in *.
    set (B := GLayerMaxOut.m_bias L) in *.
    assert (Hb : exists b, m_rows B !! 0%nat = Some b).
    { apply lookup_lt_is_Some_2. unfold GMatrix_rows in Hb1. lia. }
    destruct Hb as [b Hb].
    pose proof (GMatrix_wf_row B _ _ Hbw Hb) as Hblen. rewrite Hbc in Hblen.
    rewrite (GMatrix_row_lookup B 0 b Hb). mstep.
    rewrite <- Hblen, Nat2Z.id in *. rewrite load_all. mstep.
    replace (Z.to_nat (Z.of_nat (length b) * (m_cols W + 1)))
      with (length b + length (concat (m_rows W)))%nat by nia.
    destruct (store_two_blocks buf b (concat (m_rows W))
                (fun b2 => Ok (b2, wrap (Z.of_nat (length b)
                                         * wrap (GMatrix_cols W + 1))))
                (wrap (Z.of_nat (length b) * wrap (GMatrix_cols W + 1))))
      as [Hok Hbad]; [reflexivity |].
    split.
    + intros Hroom. destruct Hok as (buf' & E & Hl & Hd); [nia |].
      exists buf'. eexists. split; [exact E |]. split; assumption.
    + intros Hshort. apply Hbad. nia.
  - (* GLayerConvolutional1D *)
    destruct Hshape as (_ & _ & _ & _ & Hk & Hkc & _ & Hb).
    pose proof (GMatrix_stored_length _ Hk) as Hlen.
    unfold GLayerConvolutional1D.weightsToVector, GLayerConvolutional1D.bias,
      GMatrix_toVector, GVec_size in *.
    set (K := GLayerConvolutional1D.m_kernels L) in *.
    set (b := GLayerConvolutional1D.m_bias L) in *.
    rewrite <- Hb, Nat2Z.id in *. rewrite load_all. mstep.
    replace (Z.to_nat (Z.of_nat (length b) * (m_cols K + 1)))
      with (length b + length (concat (m_rows K)))%nat by nia.
    destruct (store_two_blocks buf b (concat (m_rows K))
                (fun b2 => Ok (b2, wrap (wrap (Z.of_nat (length b) + 1)
                                         * GMatrix_cols K)))
                (wrap (wrap (Z.of_nat (length b) + 1) * GMatrix_cols K)))
      as [Hok Hbad]; [reflexivity |].
    split.
    + intros Hroom. destruct Hok as (buf' & E & Hl & Hd); [nia |].
      exists buf'. eexists. split; [exact E |]. split; assumption.
    + intros Hshort. apply Hbad. nia.
  - (* GLayerConvolutional2D *)
    destruct Hshape as (_ & _ & _ & _ & _ & Hk & Hkc & Hfit & Hb).
    pose proof (GMatrix_stored_length _ Hk) as Hlen.
    unfold GLayerConvolutional2D.weightsToVector, GMatrix_toVector,
      GMatrix_cols, GVec_size in *.
    set (K := GLayerConvolutional2D.m_kernels L) in *.
    set (b := GLayerConvolutional2D.m_bias L) in *.
    rewrite (wrap_small (GMatrix_rows K * m_cols K)) by exact Hfit.
    rewrite <- Hlen, Nat2Z.id.
    replace (Z.to_nat (GMatrix_rows K * (m_cols K + 1)))
      with (length (concat (m_rows K)) + length b)%nat by nia.
    destruct (store_two_blocks buf (concat (m_rows K)) b
                (fun b2 => Ok (b2, GLayerConvolutional2D.countWeights L))
                (GLayerConvolutional2D.countWeights L))
      as [Hok Hbad]; [reflexivity |].
    split.
    + intros Hroom. destruct Hok as (buf' & E & Hl & Hd); [nia |].
      exists buf'. eexists. split; [exact E |]. split; assumption.
    + intros Hshort. apply Hbad. nia.
Qed.

Lemma weightsToVector_footprint_witness :
  weightsToVector (PLinear linear_2x2) (replicate 5 9%float) = Raise Undefined /\
  exists buf' n,
    weightsToVector (PLinear linear_2x2) (replicate 8 9%float) = Ok (buf', n) /\
    drop 6 buf' = [9; 9]%float.
Proof.
  assert (Hshape : shaped (PLinear linear_2x2)).
  { cbn [shaped]. unfold GLayerLinear.wf, GMatrix_wf.
    repeat split; try (vm_compute; reflexivity); try (vm_compute; discriminate);
      repeat constructor. }
  split.
  - apply (weightsToVector_footprint (PLinear linear_2x2) (replicate 5 9%float)
             Hshape eq_refl).
    vm_compute. reflexivity.
  - destruct (weightsToVector_footprint
                (PLinear linear_2x2) (replicate 8 9%float) Hshape eq_refl)
      as [Hok _].
    destruct Hok as (buf' & n & E & _ & Hd).
    + vm_compute. discriminate.
    + exists buf', n. split; [exact E |]. exact Hd.
Defined.
